(** * The medallion pipeline orchestrator ([scripts/run_pipeline.py])

    A shallow embedding of [MDPipelineOrchestrator] and [main].  The script is
    sequential glue around an external command ([oc]), the wall clock and the
    logger, so the embedding is a state-and-exception monad over

    - an environment [Env]: what the cluster answers to the n-th blocking call,
      how long that call takes and whether the user interrupts it;
    - a state [State]: the number of blocking calls made so far, the clock, the
      log records emitted and the command lines handed to [subprocess.run].

    Python values are kept as the script has them: [str] as [string] (each
    character a code point below 256), [int] as [Z], the [float] seconds of
    [time.time()] as exact rationals [Q] (rounding is left out),
    [None]-or-[str] as [option string].  Time passes in blocking calls only:
    a command takes a positive number of microseconds, a sleep the seconds it
    was asked for.  The two [while] loops take a bound on the iterations that
    are unfolded; reaching the bound is the separate result [OutOfFuel]. *)

From Stdlib Require Import String Ascii List ZArith QArith Bool Lia Lqa DecimalString.
Import ListNotations.
Open Scope string_scope.
Open Scope Z_scope.

(** ** Python strings *)

Module Py.

(** [str.isspace] for one character, on the code points below 256. *)
Definition isspace (c : ascii) : bool :=
  let n := N_of_ascii c in
  ((9 <=? n) && (n <=? 13) || (28 <=? n) && (n <=? 32)
   || (n =? 133) || (n =? 160))%N.

(** A [str] in a condition: true unless empty. *)
Definition truthy (s : string) : bool :=
  match s with EmptyString => false | String _ _ => true end.

Fixpoint lstrip (s : string) : string :=
  match s with
  | EmptyString => EmptyString
  | String c r => if isspace c then lstrip r else s
  end.

Fixpoint rstrip (s : string) : string :=
  match s with
  | EmptyString => EmptyString
  | String c r =>
      let r' := rstrip r in
      if isspace c && negb (truthy r') then EmptyString else String c r'
  end.

(** [s.strip()] *)
Definition strip (s : string) : string := rstrip (lstrip s).

(** [s.split(sep)] for a one-character separator. *)
Fixpoint split (sep : ascii) (s : string) : list string :=
  match s with
  | EmptyString => [EmptyString]
  | String c r =>
      if Ascii.eqb c sep then EmptyString :: split sep r
      else match split sep r with
           | h :: t => String c h :: t
           | [] => [String c EmptyString]
           end
  end.

(** [sub in s] *)
Fixpoint contains (sub s : string) : bool :=
  prefix sub s ||
  match s with
  | EmptyString => false
  | String _ r => contains sub r
  end.

(** [sep.join(l)] *)
Definition join (sep : string) (l : list string) : string := String.concat sep l.

(** [str(x)] for a value that is [None] or a [str]. *)
Definition str (v : option string) : string :=
  match v with Some s => s | None => "None" end.

(** [a == b] on values that are [None] or a [str]. *)
Definition eq (a b : option string) : bool :=
  match a, b with
  | Some x, Some y => String.eqb x y
  | None, None => true
  | _, _ => false
  end.

(** [str(n)] for an [int]. *)
Definition str_int (n : Z) : string := NilZero.string_of_int (Z.to_int n).

(** The line feed, ["\n"]. *)
Definition LF : ascii := ascii_of_nat 10.

End Py.

(** ** Exceptions, log records, environment and state *)

(** The exceptions the script can meet.  [subprocess.run(..., check=True)]
    raises [CalledProcessError] on a non-zero exit status and [OSError] when
    the executable cannot be started; [KeyboardInterrupt] is the user's
    Ctrl-C; the other two come from the script's own expressions. *)
Inductive exn : Type :=
| CalledProcessError (returncode : Z) (cmd : list string) (stderr : option string)
| OSError (reason : string)
| ZeroDivisionError
| AttributeError
| KeyboardInterrupt.

(** [isinstance(e, Exception)]: [KeyboardInterrupt] derives from
    [BaseException] only. *)
Definition is_Exception (e : exn) : bool :=
  match e with KeyboardInterrupt => false | _ => true end.

Inductive Level : Type := DEBUG | INFO | WARNING | ERROR.

Definition levelno (l : Level) : Z :=
  match l with DEBUG => 10 | INFO => 20 | WARNING => 30 | ERROR => 40 end.

(** The parts of a formatted message: text, an integer, a float printed with
    one decimal ([:.1f]), an exception printed with [str(e)]. *)
Inductive piece : Type :=
| Str (s : string)
| Int (z : Z)
| Fix1 (q : Q)
| Exc (e : exn).

Definition record : Type := (Level * list piece)%type.

(** What one run of the external command does. *)
Inductive reaction : Type :=
| Exits (returncode : Z) (stdout stderr : string)
| CannotStart (reason : string).

Record Env : Type := mkEnv {
  (** the n-th blocking call, if it runs this command line *)
  env_proc : nat -> list string -> reaction;
  (** microseconds the n-th blocking call takes when it is a command *)
  env_latency : nat -> positive;
  (** whether Ctrl-C arrives during the n-th blocking call *)
  env_interrupt : nat -> bool
}.

Record State : Type := mkState {
  st_step : nat;                  (* blocking calls made so far *)
  st_now : Q;                     (* the clock, in seconds *)
  st_log : list record;           (* records emitted, oldest first *)
  st_calls : list (list string)   (* command lines run, oldest first *)
}.

Inductive Res (A : Type) : Type :=
| Ok (a : A)
| Raise (e : exn)
| OutOfFuel.
Arguments Ok {A} a.
Arguments Raise {A} e.
Arguments OutOfFuel {A}.

Definition M (A : Type) : Type := State -> Res A * State.

Definition ret {A} (a : A) : M A := fun st => (Ok a, st).

Definition raise {A} (e : exn) : M A := fun st => (Raise e, st).

Definition out_of_fuel {A} : M A := fun st => (OutOfFuel, st).

Definition bind {A B} (m : M A) (k : A -> M B) : M B :=
  fun st =>
    match m st with
    | (Ok a, st') => k a st'
    | (Raise e, st') => (Raise e, st')
    | (OutOfFuel, st') => (OutOfFuel, st')
    end.

Declare Scope py_scope.
Delimit Scope py_scope with py.
Notation "x <- m ;; k" := (bind m (fun x => k))
  (at level 61, m at next level, right associativity) : py_scope.
Notation "m ;; k" := (bind m (fun _ => k))
  (at level 61, right associativity) : py_scope.
Open Scope py_scope.

(** [try: body except subprocess.CalledProcessError as e: handler] *)
Definition try_except {A} (body : M A)
  (handler : Z -> list string -> option string -> M A) : M A :=
  fun st =>
    match body st with
    | (Raise (CalledProcessError rc cmd err), st') => handler rc cmd err st'
    | other => other
    end.

(** [logging.basicConfig(level=logging.INFO)]: a record below INFO is dropped. *)
Definition logger_level : Level := INFO.

Definition emit (l : Level) (msg : list piece) : M unit :=
  fun st =>
    if levelno logger_level <=? levelno l then
      (Ok tt, mkState (st_step st) (st_now st) (st_log st ++ [(l, msg)])%list (st_calls st))
    else (Ok tt, st).

Definition logger_debug := emit DEBUG.
Definition logger_info := emit INFO.
Definition logger_warning := emit WARNING.
Definition logger_error := emit ERROR.

(** [time.time()] *)
Definition time_time : M Q := fun st => (Ok (st_now st), st).

Definition usec (p : positive) : Q := Zpos p # 1000000.

Definition Qgt_bool (a b : Q) : bool := negb (Qle_bool a b).
Definition Qlt_bool (a b : Q) : bool := negb (Qle_bool b a).

(** [a / b] on floats *)
Definition truediv (a b : Q) : M Q :=
  if Qeq_bool b 0 then raise ZeroDivisionError else ret (a / b)%Q.

Section Environment.

Variable env : Env.

(** [time.sleep(n)]: a blocking call; the clock moves on by [n] seconds
    unless Ctrl-C cuts it short. *)
Definition time_sleep (n : Z) : M unit :=
  fun st =>
    let k := st_step st in
    if env_interrupt env k then
      (Raise KeyboardInterrupt,
       mkState (S k) (st_now st + usec (env_latency env k)) (st_log st) (st_calls st))
    else
      (Ok tt, mkState (S k) (st_now st + inject_Z n) (st_log st) (st_calls st)).

(** [subprocess.run(cmd, capture_output=..., text=True, check=True)]; the
    result is [result.stdout], which is [None] when nothing is captured. *)
Definition subprocess_run (cmd : list string) (capture_output : bool) : M (option string) :=
  fun st =>
    let k := st_step st in
    let st' := mkState (S k) (st_now st + usec (env_latency env k))
                       (st_log st) (st_calls st ++ [cmd])%list in
    if env_interrupt env k then (Raise KeyboardInterrupt, st')
    else
      match env_proc env k cmd with
      | CannotStart why => (Raise (OSError why), st')
      | Exits rc out err =>
          if rc =? 0 then (Ok (if capture_output then Some out else None), st')
          else (Raise (CalledProcessError rc cmd
                         (if capture_output then Some err else None)), st')
      end.

End Environment.

(** ** [class MDPipelineOrchestrator] *)

Record MDPipelineOrchestrator : Type := mkOrchestrator {
  namespace : string;
  kubeconfig : option string;
  kubectl_cmd : list string
}.

(** [__init__(self, namespace="md-pipeline", kubeconfig=None)] *)
Definition init (namespace : string) (kubeconfig : option string) : MDPipelineOrchestrator :=
  mkOrchestrator namespace kubeconfig
    (["oc"] ++
     match kubeconfig with
     | Some k => if Py.truthy k then ["--kubeconfig"; k] else []
     | None => []
     end)%list.

(** What a loop body hands back to its loop: a [return], or going round
    again with the loop's variables. *)
Inductive ctl (R V : Type) : Type :=
| Return (r : R)
| Continue (v : V).
Arguments Return {R V} r.
Arguments Continue {R V} v.

Section Orchestrator.

Variable env : Env.
Variable self : MDPipelineOrchestrator.
(** How many iterations of each [while] loop are unfolded. *)
Variable fuel : nat.

Definition run_kubectl (args : list string) (capture_output : bool) : M (option string) :=
  let cmd := (kubectl_cmd self ++ args)%list in
  logger_debug [Str "Running: "; Str (Py.join " " cmd)] ;;
  try_except
    (stdout <- subprocess_run env cmd capture_output ;;
     ret (match stdout with Some out => Some (Py.strip out) | None => None end))
    (fun rc c stderr =>
       let e := CalledProcessError rc c stderr in
       logger_error [Str "oc command failed: "; Exc e] ;;
       (match stderr with
        | Some text =>
            if capture_output && Py.truthy text
            then logger_error [Str "stderr: "; Str text]
            else ret tt
        | None => ret tt
        end) ;;
       raise e).

Definition get_executor_count (job_name : string) : M Z :=
  try_except
    (result <- run_kubectl
       ["get"; "pods"; "-l"; "spark-app-name=" ++ job_name ++ ",spark-role=executor";
        "-n"; namespace self; "--no-headers"] true ;;
     match result with
     | Some text =>
         if Py.truthy text
         then ret (Z.of_nat (length (filter (fun line => Py.truthy (Py.strip line))
                                            (Py.split Py.LF text))))
         else ret 0
     | None => ret 0
     end)
    (fun _ _ _ => ret 0).

Definition show_job_logs (job_name : string) (tail_lines : Z) : M unit :=
  logger_info [Str "Recent logs for job '"; Str job_name; Str "':"] ;;
  try_except
    (run_kubectl
       ["logs"; "-l"; "spark-app-name=" ++ job_name ++ ",spark-role=driver";
        "-n"; namespace self; "--tail"; Py.str_int tail_lines] false ;;
     ret tt)
    (fun _ _ _ => logger_warning [Str "Could not retrieve driver logs"]) ;;
  logger_info [Str "Recent executor logs:"] ;;
  try_except
    (run_kubectl
       ["logs"; "-l"; "spark-app-name=" ++ job_name ++ ",spark-role=executor";
        "-n"; namespace self; "--tail"; "20"] false ;;
     ret tt)
    (fun _ _ _ => logger_warning [Str "Could not retrieve executor logs"]).

(** The command line arguments of the status query. *)
Definition status_query (job_name : string) : list string :=
  ["get"; "sparkapplication"; job_name; "-n"; namespace self;
   "-o"; "jsonpath={.status.applicationState.state}"].

(** One pass through the body of [while True:] in [wait_for_spark_job].  The
    whole pass after the timeout test is inside the [try]; the only statement
    of it that lets a [CalledProcessError] out is the status query, which
    comes before the loop's variables are assigned, so the handler goes
    round again with the old ones. *)
Definition wait_for_spark_job_body (job_name : string) (timeout_minutes : Z)
    (start_time : Q) (timeout_seconds : Z)
    (last_status : option string) (last_executor_count : Z)
  : M (ctl bool (option string * Z)) :=
  now <- time_time ;;
  let elapsed := (now - start_time)%Q in
  if Qgt_bool elapsed (inject_Z timeout_seconds) then
    logger_error [Str "Timeout waiting for job '"; Str job_name; Str "' after ";
                  Int timeout_minutes; Str " minutes"] ;;
    ret (Return false)
  else
    try_except
      (status <- run_kubectl (status_query job_name) true ;;
       executor_count <- get_executor_count job_name ;;
       last <- (if negb (Py.eq status last_status)
                   || negb (executor_count =? last_executor_count)
                then
                  logger_info [Str "["; Fix1 (elapsed / 60)%Q; Str "m] Job '"; Str job_name;
                               Str "' - Status: "; Str (Py.str status);
                               Str ", Executors: "; Int executor_count] ;;
                  ret (status, executor_count)
                else ret (last_status, last_executor_count)) ;;
       if Py.eq status (Some "COMPLETED") then
         logger_info [Str "Job '"; Str job_name; Str "' completed successfully in ";
                      Fix1 (elapsed / 60)%Q; Str " minutes!"] ;;
         ret (Return true)
       else if existsb (Py.eq status) [Some "FAILED"; Some "CANCELLED"; Some "ERROR"] then
         logger_error [Str "Job '"; Str job_name; Str "' failed with status: ";
                       Str (Py.str status)] ;;
         show_job_logs job_name 50 ;;
         ret (Return false)
       else
         time_sleep env 30 ;;
         ret (Continue last))
      (fun _ _ _ =>
         logger_warning [Str "Could not get status for job '"; Str job_name;
                         Str "', retrying..."] ;;
         time_sleep env 10 ;;
         ret (Continue (last_status, last_executor_count))).

Fixpoint wait_for_spark_job_loop (n : nat) (job_name : string) (timeout_minutes : Z)
    (start_time : Q) (timeout_seconds : Z)
    (last_status : option string) (last_executor_count : Z) : M bool :=
  match n with
  | O => out_of_fuel
  | S n' =>
      c <- wait_for_spark_job_body job_name timeout_minutes start_time timeout_seconds
             last_status last_executor_count ;;
      match c with
      | Return b => ret b
      | Continue (status, count) =>
          wait_for_spark_job_loop n' job_name timeout_minutes start_time timeout_seconds
            status count
      end
  end.

Definition wait_for_spark_job (job_name : string) (timeout_minutes : Z) : M bool :=
  logger_info [Str "Waiting for Spark job '"; Str job_name;
               Str "' to complete (timeout: "; Int timeout_minutes; Str "m)..."] ;;
  start_time <- time_time ;;
  let timeout_seconds := timeout_minutes * 60 in
  let last_status := Some "" in
  let last_executor_count := 0 in
  wait_for_spark_job_loop fuel job_name timeout_minutes start_time timeout_seconds
    last_status last_executor_count.

Definition apply_manifest (manifest_path : string) : M unit :=
  logger_info [Str "Applying manifest: "; Str manifest_path] ;;
  run_kubectl ["apply"; "-f"; manifest_path] true ;;
  ret tt.

Definition delete_spark_job (job_name : string) : M unit :=
  try_except
    (run_kubectl ["delete"; "sparkapplication"; job_name; "-n"; namespace self] true ;;
     logger_info [Str "Deleted existing job '"; Str job_name; Str "'"] ;;
     time_sleep env 10)
    (fun _ _ _ =>
       logger_info [Str "Job '"; Str job_name; Str "' not found (this is okay)"]).

Definition run_smoke_test : M bool :=
  logger_info [Str "=== Running Smoke Test ==="] ;;
  delete_spark_job "mdp-smoke" ;;
  apply_manifest "k8s/spark/49-smoke.yaml" ;;
  ok <- wait_for_spark_job "mdp-smoke" 10 ;;
  if ok then
    logger_info [Str "Smoke test passed!"] ;;
    ret true
  else
    logger_error [Str "Smoke test failed!"] ;;
    ret false.

(** One pass through the body of the executor-scaling [while] loop of
    [run_bronze_ingest]; [Return tt] is its [break]. *)
Definition run_bronze_ingest_body (target_executors : Z) : M (ctl unit unit) :=
  executor_count <- get_executor_count "mdp-bronze-ingest" ;;
  (if executor_count >? 0 then
     logger_info [Str "Executors starting: "; Int executor_count; Str "/";
                  Int target_executors]
   else ret tt) ;;
  if Qle_bool (inject_Z target_executors * (8 # 10)) (inject_Z executor_count) then
    logger_info [Str "Sufficient executors running: "; Int executor_count; Str "/";
                 Int target_executors] ;;
    ret (Return tt)
  else
    time_sleep env 20 ;;
    ret (Continue tt).

Fixpoint run_bronze_ingest_loop (n : nat) (start_time : Q) (target_executors : Z) : M unit :=
  match n with
  | O => out_of_fuel
  | S n' =>
      now <- time_time ;;
      if Qlt_bool (now - start_time) 600 then
        c <- run_bronze_ingest_body target_executors ;;
        match c with
        | Return _ => ret tt
        | Continue _ => run_bronze_ingest_loop n' start_time target_executors
        end
      else ret tt
  end.

(** [for line in logs.split('\n'): ...] *)
Fixpoint log_performance (lines : list string) : M unit :=
  match lines with
  | [] => ret tt
  | line :: rest =>
      (if Py.contains "Throughput:" line || Py.contains "Est. Size:" line
          || Py.contains "Rows:" line
       then logger_info [Str "Performance: "; Str (Py.strip line)]
       else ret tt) ;;
      log_performance rest
  end.

Definition run_bronze_ingest : M bool :=
  logger_info [Str "=== Running Bronze Ingest (1TB Target - No Compression) ==="] ;;
  delete_spark_job "mdp-bronze-ingest" ;;
  apply_manifest "k8s/spark/42-bronze-ingest.yaml" ;;
  start_time <- time_time ;;
  let target_executors := 48 in
  logger_info [Str "Waiting for executors to start..."] ;;
  run_bronze_ingest_loop fuel start_time target_executors ;;
  ok <- wait_for_spark_job "mdp-bronze-ingest" 180 ;;
  if ok then
    logger_info [Str "Bronze ingest completed!"] ;;
    try_except
      (logs <- run_kubectl
         ["logs"; "-l"; "spark-app-name=mdp-bronze-ingest,spark-role=driver";
          "-n"; namespace self; "--tail"; "20"] true ;;
       match logs with
       | Some text => log_performance (Py.split Py.LF text)
       | None => raise AttributeError
       end)
      (fun _ _ _ => logger_warning [Str "Could not retrieve performance metrics from logs"]) ;;
    ret true
  else
    logger_error [Str "Bronze ingest failed!"] ;;
    ret false.

Definition run_silver_build : M bool :=
  logger_info [Str "=== Running Silver Build (Iceberg) ==="] ;;
  delete_spark_job "mdp-silver-build" ;;
  apply_manifest "k8s/spark/43-silver-build.yaml" ;;
  ok <- wait_for_spark_job "mdp-silver-build" 60 ;;
  if ok then
    logger_info [Str "Silver build completed!"] ;;
    ret true
  else
    logger_error [Str "Silver build failed!"] ;;
    ret false.

Definition run_gold_finalize : M bool :=
  logger_info [Str "=== Running Gold Finalize ==="] ;;
  delete_spark_job "mdp-gold-finalize" ;;
  apply_manifest "k8s/spark/44-gold-finalize.yaml" ;;
  ok <- wait_for_spark_job "mdp-gold-finalize" 30 ;;
  if ok then
    logger_info [Str "Gold finalize completed!"] ;;
    ret true
  else
    logger_error [Str "Gold finalize failed!"] ;;
    ret false.

(** The [trino] invocation inside the coordinator pod. *)
Definition trino_exec (trino_pod : string) (trino_args : list string) : list string :=
  (["exec"; trino_pod; "-n"; namespace self; "--"; "trino"] ++ trino_args)%list.

Definition validate_pipeline : M bool :=
  logger_info [Str "=== Validating Pipeline Results ==="] ;;
  try_except
    (trino_pod <- run_kubectl
       ["get"; "pods"; "-l";
        "app.kubernetes.io/component=coordinator,app.kubernetes.io/instance=mdp-trino";
        "-n"; namespace self; "-o"; "jsonpath={.items[0].metadata.name}"] true ;;
     match trino_pod with
     | None => logger_error [Str "Could not find Trino coordinator pod"] ;; ret false
     | Some pod =>
         if negb (Py.truthy pod) then
           logger_error [Str "Could not find Trino coordinator pod"] ;; ret false
         else
           logger_info [Str "Using Trino pod: "; Str pod] ;;
           logger_info [Str "Testing Trino connectivity..."] ;;
           run_kubectl
             (trino_exec pod ["--catalog"; "iceberg"; "--schema"; "information_schema";
                              "--execute"; "SELECT 1 as test"]) false ;;
           try_except
             (logger_info [Str "Checking Bronze data size..."] ;;
              run_kubectl
                (trino_exec pod
                   ["--catalog"; "iceberg"; "--execute";
                    "SELECT 'Bronze validation - basic connectivity test' as status"])
                false ;;
              ret tt)
             (fun _ _ _ =>
                logger_warning [Str "Bronze data not accessible via Trino (this is normal)"]) ;;
           try_except
             (logger_info [Str "Checking Silver table..."] ;;
              run_kubectl
                (trino_exec pod
                   ["--catalog"; "iceberg"; "--schema"; "silver"; "--execute";
                    "SELECT COUNT(*) as silver_row_count FROM iot_daily_city_sensors LIMIT 1"])
                false ;;
              ret tt)
             (fun _ _ _ =>
                logger_warning [Str "Silver table not accessible (run Silver job first)"]) ;;
           try_except
             (logger_info [Str "Checking Gold table..."] ;;
              run_kubectl
                (trino_exec pod
                   ["--catalog"; "iceberg"; "--schema"; "gold"; "--execute";
                    "SELECT COUNT(*) as gold_row_count FROM iot_executive_kpis LIMIT 1"])
                false ;;
              ret tt)
             (fun _ _ _ =>
                logger_warning [Str "Gold table not accessible (run Gold job first)"]) ;;
           logger_info [Str "Pipeline validation completed!"] ;;
           ret true
     end)
    (fun rc c stderr =>
       logger_error [Str "Pipeline validation failed: "; Exc (CalledProcessError rc c stderr)] ;;
       ret false).

Definition check_cluster_resources : M unit :=
  logger_info [Str "Checking cluster resources..."] ;;
  try_except
    (nodes_info <- run_kubectl ["get"; "nodes"; "-o"; "wide"] true ;;
     logger_info [Str "Available nodes:"] ;;
     logger_info [Str (Py.str nodes_info)] ;;
     logger_info [Str "Checking resource allocation..."] ;;
     run_kubectl ["top"; "nodes"] false ;;
     ret tt)
    (fun _ _ _ => logger_warning [Str "Could not retrieve cluster resource info"]).

Definition run_full_pipeline : M bool :=
  logger_info [Str "Starting MD-Pipeline (1TB Medallion Benchmark)"] ;;
  logger_info [Str "Target: 1TB Bronze (no compression) -> Silver Iceberg -> Gold Analytics"] ;;
  check_cluster_resources ;;
  start_time <- time_time ;;
  logger_info [Str (String Py.LF "--- STEP 1: Smoke Test ---")] ;;
  smoke <- run_smoke_test ;;
  if negb smoke then
    logger_error [Str "Smoke test failed - aborting pipeline"] ;;
    ret false
  else
  logger_info [Str (String Py.LF "--- STEP 2: Bronze Ingest (1TB Target) ---")] ;;
  bronze_start <- time_time ;;
  bronze <- run_bronze_ingest ;;
  if negb bronze then
    logger_error [Str "Bronze ingest failed - aborting pipeline"] ;;
    ret false
  else
  t <- time_time ;;
  let bronze_time := (t - bronze_start)%Q in
  logger_info [Str (String Py.LF "--- STEP 3: Silver Build ---")] ;;
  silver_start <- time_time ;;
  silver <- run_silver_build ;;
  if negb silver then
    logger_error [Str "Silver build failed - aborting pipeline"] ;;
    ret false
  else
  t <- time_time ;;
  let silver_time := (t - silver_start)%Q in
  logger_info [Str (String Py.LF "--- STEP 4: Gold Finalize ---")] ;;
  gold_start <- time_time ;;
  gold <- run_gold_finalize ;;
  if negb gold then
    logger_error [Str "Gold finalize failed - aborting pipeline"] ;;
    ret false
  else
  t <- time_time ;;
  let gold_time := (t - gold_start)%Q in
  logger_info [Str (String Py.LF "--- STEP 5: Pipeline Validation ---")] ;;
  validation_success <- validate_pipeline ;;
  (if negb validation_success then
     logger_warning [Str "Pipeline validation had issues, but core processing completed"]
   else ret tt) ;;
  t <- time_time ;;
  let total_time := (t - start_time)%Q in
  logger_info [Str (String Py.LF "=== PIPELINE COMPLETED SUCCESSFULLY! ===")] ;;
  logger_info [Str "Performance Summary:"] ;;
  bronze_rate <- truediv (1024 * 60) bronze_time ;;
  logger_info [Str "  Bronze (1TB):   "; Fix1 (bronze_time / 60)%Q; Str " minutes (";
               Fix1 bronze_rate; Str " GB/min)"] ;;
  logger_info [Str "  Silver:         "; Fix1 (silver_time / 60)%Q; Str " minutes"] ;;
  logger_info [Str "  Gold:           "; Fix1 (gold_time / 60)%Q; Str " minutes"] ;;
  logger_info [Str "  Total Runtime:  "; Fix1 (total_time / 60)%Q; Str " minutes"] ;;
  total_throughput <- truediv 1024 (total_time / 60)%Q ;;
  logger_info [Str "  Overall Throughput: "; Fix1 total_throughput; Str " GB/min"] ;;
  ret true.

End Orchestrator.

(** ** [main] *)

(** [--stage], one of argparse's [choices]. *)
Inductive Stage : Type := smoke | bronze | silver | gold | validate | full.

(** The namespace returned by [parser.parse_args()]. *)
Record Args : Type := mkArgs {
  arg_kubeconfig : option string;
  arg_namespace : string;
  arg_stage : Stage;
  arg_check_resources : bool
}.

(** How the process ends: [sys.exit(code)] or falling off the end of the
    script (code 0), an exception nobody caught, or no end within the fuel. *)
Inductive Outcome : Type :=
| Exited (code : Z)
| Uncaught (e : exn)
| NoReturn.

(** The exit code the shell sees, when there is one: an uncaught [Exception]
    gives 1, an uncaught [KeyboardInterrupt] ends the process by signal. *)
Definition exit_code (o : Outcome) : option Z :=
  match o with
  | Exited code => Some code
  | Uncaught e => if is_Exception e then Some 1 else None
  | NoReturn => None
  end.

Section Main.

Variable env : Env.
Variable fuel : nat.

(** The [if args.stage == ...: success = ...] chain inside [try:]. *)
Definition selected_stage (orchestrator : MDPipelineOrchestrator) (stage : Stage) : M bool :=
  match stage with
  | smoke => run_smoke_test env orchestrator fuel
  | bronze => run_bronze_ingest env orchestrator fuel
  | silver => run_silver_build env orchestrator fuel
  | gold => run_gold_finalize env orchestrator fuel
  | validate => validate_pipeline env orchestrator
  | full => run_full_pipeline env orchestrator fuel
  end.

(** [main], from the parsed arguments on.  In the [try:] the handlers are
    tried in order, [KeyboardInterrupt] first; every other exception of [exn]
    is an [Exception]. *)
Definition main (args : Args) (st : State) : Outcome * State :=
  let orchestrator := init (arg_namespace args) (arg_kubeconfig args) in
  if arg_check_resources args then
    match check_cluster_resources env orchestrator st with
    | (Ok _, st') => (Exited 0, st')
    | (Raise e, st') => (Uncaught e, st')
    | (OutOfFuel, st') => (NoReturn, st')
    end
  else
    match selected_stage orchestrator (arg_stage args) st with
    | (Ok success, st') => (Exited (if success then 0 else 1), st')
    | (Raise KeyboardInterrupt, st') =>
        (Exited 1,
         snd ((logger_info [Str (String Py.LF "Pipeline orchestration interrupted by user")] ;;
               logger_info [Str "Note: Spark jobs may continue running in the cluster"] ;;
               logger_info [Str ("Check status with: oc get sparkapplication -n "
                                 ++ arg_namespace args)]) st'))
    | (Raise e, st') =>
        (Exited 1, snd (logger_error [Str "Unexpected error: "; Exc e] st'))
    | (OutOfFuel, st') => (NoReturn, st')
    end.

End Main.

(** * Vocabulary of the statements *)

Open Scope list_scope.
Open Scope Z_scope.

(** ** States the statements name *)

(** The state after a log call. *)
Definition logged (l : Level) (msg : list piece) (st : State) : State :=
  snd (emit l msg st).

(** [st] with [records] written to the log. *)
Definition with_records (records : list record) (st : State) : State :=
  mkState (st_step st) (st_now st) (st_log st ++ records) (st_calls st).

(** The state once the next blocking call has run [cmd]. *)
Definition ran (env : Env) (cmd : list string) (st : State) : State :=
  mkState (S (st_step st)) (st_now st + usec (env_latency env (st_step st)))
          (st_log st) (st_calls st ++ [cmd]).

(** The state once the next blocking call has slept [n] seconds. *)
Definition slept (n : Z) (st : State) : State :=
  mkState (S (st_step st)) (st_now st + inject_Z n) (st_log st) (st_calls st).

(** ** Command lines and log records *)

(** The command line of [delete_spark_job]. *)
Definition delete_cmd (self : MDPipelineOrchestrator) (job_name : string) : list string :=
  kubectl_cmd self ++ ["delete"; "sparkapplication"; job_name; "-n"; namespace self].

(** The arguments of the pod listing in [get_executor_count]. *)
Definition pods_query (self : MDPipelineOrchestrator) (job_name : string) : list string :=
  ["get"; "pods"; "-l"; ("spark-app-name=" ++ job_name ++ ",spark-role=executor")%string;
   "-n"; namespace self; "--no-headers"].

(** The two command lines of [show_job_logs]. *)
Definition driver_logs_cmd (self : MDPipelineOrchestrator) (job_name : string)
    (tail_lines : Z) : list string :=
  kubectl_cmd self ++
  ["logs"; "-l"; ("spark-app-name=" ++ job_name ++ ",spark-role=driver")%string;
   "-n"; namespace self; "--tail"; Py.str_int tail_lines].

Definition executor_logs_cmd (self : MDPipelineOrchestrator) (job_name : string) : list string :=
  kubectl_cmd self ++
  ["logs"; "-l"; ("spark-app-name=" ++ job_name ++ ",spark-role=executor")%string;
   "-n"; namespace self; "--tail"; "20"].

(** The command line of the status query. *)
Definition status_cmd (self : MDPipelineOrchestrator) (job_name : string) : list string :=
  kubectl_cmd self ++ status_query self job_name.

(** The two command lines of [check_cluster_resources]. *)
Definition get_nodes_cmd (self : MDPipelineOrchestrator) : list string :=
  kubectl_cmd self ++ ["get"; "nodes"; "-o"; "wide"].

Definition top_nodes_cmd (self : MDPipelineOrchestrator) : list string :=
  kubectl_cmd self ++ ["top"; "nodes"].

(** Whether the arguments handed to [run_kubectl] are an [apply]. *)
Definition is_apply (args : list string) : bool :=
  match args with
  | verb :: _ => String.eqb verb "apply"
  | [] => false
  end.

(** The manifests handed to [oc apply -f], oldest first. *)
Definition applied (self : MDPipelineOrchestrator) (calls : list (list string)) : list string :=
  flat_map
    (fun cmd =>
       match skipn (length (kubectl_cmd self)) cmd with
       | [verb; flag; manifest] =>
           if String.eqb verb "apply" && String.eqb flag "-f" then [manifest] else []
       | _ => []
       end)
    calls.

(** The manifests of the four processing stages, in the order of
    [run_full_pipeline]. *)
Definition stage_manifests : list string :=
  ["k8s/spark/49-smoke.yaml"; "k8s/spark/42-bronze-ingest.yaml";
   "k8s/spark/43-silver-build.yaml"; "k8s/spark/44-gold-finalize.yaml"]%string.

(** The records [run_kubectl] writes when its command exits non-zero. *)
Definition failure_records (rc : Z) (cmd : list string) (capture_output : bool)
    (err : string) : list record :=
  (ERROR, [Str "oc command failed: ";
           Exc (CalledProcessError rc cmd (if capture_output then Some err else None))])
  :: (if capture_output && Py.truthy err then [(ERROR, [Str "stderr: "; Str err])] else []).

(** The records of the timeout branch and of the retry handler. *)
Definition timeout_record (job_name : string) (timeout_minutes : Z) : record :=
  (ERROR, [Str "Timeout waiting for job '"; Str job_name; Str "' after ";
           Int timeout_minutes; Str " minutes"]).

Definition retry_record (job_name : string) : record :=
  (WARNING, [Str "Could not get status for job '"; Str job_name; Str "', retrying..."]).

(** The records written at ERROR level. *)
Definition error_records (log : list record) : list record :=
  filter (fun r => match fst r with ERROR => true | _ => false end) log.

(** ** Statuses, counts and the timeout *)

(** The statuses that end the wait. *)
Definition is_success (status : option string) : bool := Py.eq status (Some "COMPLETED").

Definition is_failure (status : option string) : bool :=
  existsb (Py.eq status) [Some "FAILED"; Some "CANCELLED"; Some "ERROR"].

Definition is_terminal (status : option string) : bool :=
  is_success status || is_failure status.

(** Whether the clock of [st] is past the timeout. *)
Definition timed_out (start_time : Q) (timeout_seconds : Z) (st : State) : bool :=
  Qgt_bool (st_now st - start_time) (inject_Z timeout_seconds).

(** The lines of a listing that hold something besides white space. *)
Definition visible_lines (text : string) : Z :=
  Z.of_nat (length (filter (fun line => Py.truthy (Py.strip line)) (Py.split Py.LF text))).


(** ** What is assumed of the environment *)

(** An undisturbed run: nobody presses Ctrl-C and [oc] can be started, so
    every command ends with an exit status. *)
Definition undisturbed (env : Env) : Prop :=
  (forall k, env_interrupt env k = false)
  /\ (forall k cmd, exists rc out err, env_proc env k cmd = Exits rc out err).

(** No status query about [job_name] ever answers a terminal status. *)
Definition never_terminal (env : Env) (self : MDPipelineOrchestrator) (job_name : string) : Prop :=
  forall k out err,
    env_proc env k (status_cmd self job_name) = Exits 0 out err ->
    is_terminal (Some (Py.strip out)) = false.

(** A result that is a return, or else one of the two disturbances: Ctrl-C,
    or [oc] could not be started. *)
Definition returns_unless_disturbed {A} (r : Res A) : Prop :=
  match r with
  | Ok _ => True
  | Raise KeyboardInterrupt => True
  | Raise (OSError _) => True
  | _ => False
  end.

(** ** Relations between the state before and after *)

(** [m] takes every state to one that [R] relates it to, whatever it returns. *)
Definition keeps (R : State -> State -> Prop) {A} (m : M A) : Prop :=
  forall st r st', m st = (r, st') -> R st st'.

(** The step counter and the clock never go back. *)
Definition progress (st st' : State) : Prop :=
  (st_step st <= st_step st')%nat /\ (st_now st <= st_now st')%Q.

(** Nothing was applied between [st] and [st']. *)
Definition same_applied (self : MDPipelineOrchestrator) (st st' : State) : Prop :=
  applied self (st_calls st') = applied self (st_calls st).

(** [m] applies the first few of [manifests], in order, and nothing else;
    all of them when it returns a value that [P] holds of. *)
Definition applies (self : MDPipelineOrchestrator) {A} (P : A -> Prop)
    (manifests : list string) (m : M A) : Prop :=
  forall st r st',
    m st = (r, st') ->
    exists k,
      applied self (st_calls st') = applied self (st_calls st) ++ firstn k manifests
      /\ (forall a, r = Ok a -> P a -> k = length manifests).

(** The property that holds of every value. *)
Definition any {A} (a : A) : Prop := True.

(** ** The states in which [run_full_pipeline] enters each stage *)

(** [run_full_pipeline], started in [st], calls [run_smoke_test] in [s]. *)
Definition smoke_entry (env : Env) (self : MDPipelineOrchestrator) (st s : State) : Prop :=
  exists s0,
    check_cluster_resources env self
      (logged INFO
         [Str "Target: 1TB Bronze (no compression) -> Silver Iceberg -> Gold Analytics"]
         (logged INFO [Str "Starting MD-Pipeline (1TB Medallion Benchmark)"] st))
    = (Ok tt, s0)
    /\ s = logged INFO [Str (String Py.LF "--- STEP 1: Smoke Test ---")] s0.

(** ... and, the smoke test having returned [True], [run_bronze_ingest] in [s]. *)
Definition bronze_entry (env : Env) (self : MDPipelineOrchestrator) (fuel : nat)
    (st s : State) : Prop :=
  exists s0 s1,
    smoke_entry env self st s0
    /\ run_smoke_test env self fuel s0 = (Ok true, s1)
    /\ s = logged INFO [Str (String Py.LF "--- STEP 2: Bronze Ingest (1TB Target) ---")] s1.

Definition silver_entry (env : Env) (self : MDPipelineOrchestrator) (fuel : nat)
    (st s : State) : Prop :=
  exists s0 s1,
    bronze_entry env self fuel st s0
    /\ run_bronze_ingest env self fuel s0 = (Ok true, s1)
    /\ s = logged INFO [Str (String Py.LF "--- STEP 3: Silver Build ---")] s1.

Definition gold_entry (env : Env) (self : MDPipelineOrchestrator) (fuel : nat)
    (st s : State) : Prop :=
  exists s0 s1,
    silver_entry env self fuel st s0
    /\ run_silver_build env self fuel s0 = (Ok true, s1)
    /\ s = logged INFO [Str (String Py.LF "--- STEP 4: Gold Finalize ---")] s1.

(** All four processing stages have returned [True]; [validate_pipeline] is
    called in [s]. *)
Definition validate_entry (env : Env) (self : MDPipelineOrchestrator) (fuel : nat)
    (st s : State) : Prop :=
  exists s0 s1,
    gold_entry env self fuel st s0
    /\ run_gold_finalize env self fuel s0 = (Ok true, s1)
    /\ s = logged INFO [Str (String Py.LF "--- STEP 5: Pipeline Validation ---")] s1.

(** The state in which a run of [run_full_pipeline] enters the validation,
    computed stage by stage. *)
Definition at_validation (env : Env) (self : MDPipelineOrchestrator) (fuel : nat)
    (st : State) : list (Res bool) * State :=
  let a0 := logged INFO
              [Str "Target: 1TB Bronze (no compression) -> Silver Iceberg -> Gold Analytics"]
              (logged INFO [Str "Starting MD-Pipeline (1TB Medallion Benchmark)"] st) in
  let r0 := check_cluster_resources env self a0 in
  let r1 := run_smoke_test env self fuel
              (logged INFO [Str (String Py.LF "--- STEP 1: Smoke Test ---")] (snd r0)) in
  let r2 := run_bronze_ingest env self fuel
              (logged INFO [Str (String Py.LF "--- STEP 2: Bronze Ingest (1TB Target) ---")]
                 (snd r1)) in
  let r3 := run_silver_build env self fuel
              (logged INFO [Str (String Py.LF "--- STEP 3: Silver Build ---")] (snd r2)) in
  let r4 := run_gold_finalize env self fuel
              (logged INFO [Str (String Py.LF "--- STEP 4: Gold Finalize ---")] (snd r3)) in
  ([match fst r0 with Ok _ => Ok true | Raise e => Raise e | OutOfFuel => OutOfFuel end;
    fst r1; fst r2; fst r3; fst r4],
   logged INFO [Str (String Py.LF "--- STEP 5: Pipeline Validation ---")] (snd r4)).

(** ** The commands a run adds, and how it can end *)

(** The command line of [apply_manifest]. *)
Definition apply_cmd (self : MDPipelineOrchestrator) (manifest_path : string) : list string :=
  kubectl_cmd self ++ ["apply"; "-f"; manifest_path].

(** The pod lookup and the four queries of [validate_pipeline]. *)
Definition trino_pod_cmd (self : MDPipelineOrchestrator) : list string :=
  kubectl_cmd self ++
  ["get"; "pods"; "-l";
   "app.kubernetes.io/component=coordinator,app.kubernetes.io/instance=mdp-trino"%string;
   "-n"; namespace self; "-o"; "jsonpath={.items[0].metadata.name}"%string].

Definition connectivity_cmd (self : MDPipelineOrchestrator) (pod : string) : list string :=
  kubectl_cmd self ++
  trino_exec self pod ["--catalog"; "iceberg"; "--schema"; "information_schema";
                       "--execute"; "SELECT 1 as test"]%string.

Definition bronze_check_cmd (self : MDPipelineOrchestrator) (pod : string) : list string :=
  kubectl_cmd self ++
  trino_exec self pod
    ["--catalog"; "iceberg"; "--execute";
     "SELECT 'Bronze validation - basic connectivity test' as status"]%string.

Definition silver_check_cmd (self : MDPipelineOrchestrator) (pod : string) : list string :=
  kubectl_cmd self ++
  trino_exec self pod
    ["--catalog"; "iceberg"; "--schema"; "silver"; "--execute";
     "SELECT COUNT(*) as silver_row_count FROM iot_daily_city_sensors LIMIT 1"]%string.

Definition gold_check_cmd (self : MDPipelineOrchestrator) (pod : string) : list string :=
  kubectl_cmd self ++
  trino_exec self pod
    ["--catalog"; "iceberg"; "--schema"; "gold"; "--execute";
     "SELECT COUNT(*) as gold_row_count FROM iot_executive_kpis LIMIT 1"]%string.

(** The job and the manifest of each processing stage, as its function names
    them. *)
Definition stage_job (stage : Stage) : option (string * string) :=
  match stage with
  | smoke => Some ("mdp-smoke", "k8s/spark/49-smoke.yaml")
  | bronze => Some ("mdp-bronze-ingest", "k8s/spark/42-bronze-ingest.yaml")
  | silver => Some ("mdp-silver-build", "k8s/spark/43-silver-build.yaml")
  | gold => Some ("mdp-gold-finalize", "k8s/spark/44-gold-finalize.yaml")
  | validate | full => None
  end%string.

(** Whether the arguments handed to [run_kubectl] start with one of [verbs]. *)
Definition verb_in (verbs : list string) (args : list string) : bool :=
  match args with
  | verb :: _ => existsb (String.eqb verb) verbs
  | [] => false
  end.

(** [cmd] is this orchestrator's [oc] prefix followed by one of [verbs]. *)
Definition oc_with (self : MDPipelineOrchestrator) (verbs : list string)
    (cmd : list string) : Prop :=
  exists args, cmd = kubectl_cmd self ++ args /\ verb_in verbs args = true.

(** Between [st] and [st'] commands were only added, each of them [oc] with
    one of [verbs]. *)
Definition runs_only (self : MDPipelineOrchestrator) (verbs : list string)
    (st st' : State) : Prop :=
  exists more, st_calls st' = st_calls st ++ more /\ Forall (oc_with self verbs) more.

(** The verbs that only look at the cluster. *)
Definition reading : list string := ["get"; "logs"]%string.

(** Every verb the script uses. *)
Definition all_verbs : list string := ["delete"; "apply"; "get"; "logs"; "exec"; "top"]%string.

(** The commands of a processing stage: the delete; then, unless the stage
    ended there, the apply; then only commands that look at the cluster. *)
Definition stage_commands (self : MDPipelineOrchestrator) (job_name manifest_path : string)
    (st st' : State) : Prop :=
  exists more,
    st_calls st' = st_calls st ++ delete_cmd self job_name :: more
    /\ (more = []
        \/ exists reads,
             more = apply_cmd self manifest_path :: reads
             /\ Forall (oc_with self reading) reads).


(** One of the blocking calls from [first] up to, not including, [last] was a
    status query about [job_name] that answered ["COMPLETED"]. *)
Definition seen_completed (env : Env) (self : MDPipelineOrchestrator) (job_name : string)
    (first last : nat) : Prop :=
  exists k out err,
    (first <= k < last)%nat
    /\ env_proc env k (status_cmd self job_name) = Exits 0 out err
    /\ Py.strip out = "COMPLETED"%string.

(** The exceptions [e] may be when the only commands whose failure is let
    through are those of [commands]: Ctrl-C, [oc] not starting, or the
    [CalledProcessError] of such a command. *)
Definition may_raise (commands : list string -> Prop) (e : exn) : Prop :=
  match e with
  | CalledProcessError _ cmd _ => commands cmd
  | OSError _ => True
  | KeyboardInterrupt => True
  | ZeroDivisionError => False
  | AttributeError => False
  end.

(** [m] returns, or raises one of those exceptions, or (only if [unfinished])
    runs out of fuel. *)
Definition ends_with (commands : list string -> Prop) (unfinished : Prop) {A} (m : M A) : Prop :=
  forall st r st',
    m st = (r, st') ->
    match r with
    | Ok _ => True
    | Raise e => may_raise commands e
    | OutOfFuel => unfinished
    end.

(** Any command. *)
Definition any_command (cmd : list string) : Prop := True.

(** No command. *)
Definition no_command (cmd : list string) : Prop := False.

(** The lines of the driver log that [run_bronze_ingest] reports, and the
    records it writes for them. *)
Definition is_performance_line (line : string) : bool :=
  Py.contains "Throughput:" line || Py.contains "Est. Size:" line || Py.contains "Rows:" line.

Definition performance_records (lines : list string) : list record :=
  map (fun line => (INFO, [Str "Performance: "; Str (Py.strip line)]))
      (filter is_performance_line lines).

(** The progress record of a poll. *)
Definition progress_record (job_name : string) (elapsed : Q) (status : option string)
    (executor_count : Z) : record :=
  (INFO, [Str "["; Fix1 (elapsed / 60)%Q; Str "m] Job '"; Str job_name;
          Str "' - Status: "; Str (Py.str status);
          Str ", Executors: "; Int executor_count]).


(** ** Scenarios: concrete clusters the statements are tried on *)

Module Scenario.

Definition st0 : State := mkState 0 0 [] [].

Definition oc : MDPipelineOrchestrator := init "md-pipeline" None.

(** A cluster where every command ends with an exit status, a quarter of a
    second after it was started, and nobody is at the keyboard; [answer] gives
    the exit status, stdout and stderr of the k-th blocking call. *)
Definition cluster (answer : nat -> list string -> Z * string * string) : Env :=
  mkEnv (fun k cmd => let '(rc, out, err) := answer k cmd in Exits rc out err)
        (fun _ => 250000%positive) (fun _ => false).

(** The verb of a command line run through [oc]. *)
Definition verb (cmd : list string) : string := nth 1 cmd "".

(** The resource kind of an [oc get]. *)
Definition kind (cmd : list string) : string := nth 2 cmd "".

Definition not_found : Z * string * string :=
  (1, "", "Error from server (NotFound): sparkapplications.sparkoperator.k8s.io not found").

(** No job of any name exists; every other command succeeds with no output. *)
Definition nothing_to_delete : Env :=
  cluster (fun _ cmd => if String.eqb (verb cmd) "delete" then not_found else (0, "", "")).

(** Every status query answers [status]; every other command succeeds with
    no output. *)
Definition always (status : string) : Env :=
  cluster (fun _ cmd =>
             if String.eqb (verb cmd) "get" && String.eqb (kind cmd) "sparkapplication"
             then (0, status, "") else (0, "", "")).


(** A cluster whose first status query fails and whose later ones answer
    ["COMPLETED"]. *)
Definition flaky_then_completed : Env :=
  cluster
    (fun k cmd =>
       if String.eqb (verb cmd) "get" && String.eqb (kind cmd) "sparkapplication"
       then (if Nat.eqb k 0 then (1, "", "Unable to connect to the server")
             else (0, "COMPLETED", ""))
       else (0, "", "")).

(** The job has failed and its logs cannot be fetched. *)
Definition failed_without_logs : Env :=
  cluster
    (fun _ cmd =>
       if String.eqb (verb cmd) "logs" then (1, "", "No resources found")
       else if String.eqb (verb cmd) "get"
               && String.eqb (kind cmd) "sparkapplication"
            then (0, "FAILED", "")
            else (0, "", "")).

(** The resource commands both fail; nothing else is asked of the cluster. *)
Definition no_metrics : Env :=
  cluster (fun _ _ => (1, "", "error: Metrics API not available")).

(** The user presses Ctrl-C during the third blocking call. *)
Definition interrupted_at_third_call : Env :=
  mkEnv (fun _ _ => Exits 0 "" "") (fun _ => 250000%positive) (fun k => Nat.eqb k 2).


(** The cluster refuses every manifest. *)
Definition apply_refused : Env :=
  cluster
    (fun _ cmd => if String.eqb (verb cmd) "apply"
                  then (1, "", "error: unable to recognize manifest") else (0, "", "")).

(** The bronze job fails; everything else succeeds. *)
Definition bronze_fails : Env :=
  cluster
    (fun _ cmd =>
       if String.eqb (verb cmd) "get" && String.eqb (kind cmd) "sparkapplication"
       then (if String.eqb (nth 3 cmd "") "mdp-bronze-ingest"
             then (0, "FAILED", "") else (0, "COMPLETED", ""))
       else (0, "", "")).



(** Every job completes and the Trino coordinator pod is found. *)
Definition healthy : Env :=
  cluster
    (fun _ cmd =>
       if String.eqb (verb cmd) "get"
       then (if String.eqb (kind cmd) "sparkapplication"
             then (0, "COMPLETED", "")
             else if String.eqb (kind cmd) "pods"
                  then (0, "mdp-trino-coordinator-0", "")
                  else (0, "", ""))
       else (0, "", "")).

End Scenario.

(** * Properties *)

(** ** Running a computation *)

Lemma bind_Ok {A B} (m : M A) (k : A -> M B) st a st' :
  m st = (Ok a, st') -> bind m k st = k a st'.
Proof. intros H. unfold bind. rewrite H. reflexivity. Qed.

Lemma bind_Raise {A B} (m : M A) (k : A -> M B) st e st' :
  m st = (Raise e, st') -> bind m k st = (Raise e, st').
Proof. intros H. unfold bind. rewrite H. reflexivity. Qed.

Lemma bind_inv {A B} (m : M A) (k : A -> M B) st r st' :
  bind m k st = (r, st') ->
  (exists a s1, m st = (Ok a, s1) /\ k a s1 = (r, st'))
  \/ (exists e, m st = (Raise e, st') /\ r = Raise e)
  \/ (m st = (OutOfFuel, st') /\ r = OutOfFuel).
Proof.
  unfold bind. destruct (m st) as [[a | e |] s1]; intros H.
  - left. eauto.
  - right; left. inversion H; subst. eauto.
  - right; right. inversion H; subst. eauto.
Qed.

Lemma emit_logged l msg st : emit l msg st = (Ok tt, logged l msg st).
Proof. unfold logged, emit. destruct (levelno logger_level <=? levelno l); reflexivity. Qed.

Lemma bind_emit {B} l msg (k : unit -> M B) st :
  bind (emit l msg) k st = k tt (logged l msg st).
Proof. apply bind_Ok, emit_logged. Qed.

Ltac run_log :=
  unfold logger_info, logger_warning, logger_error, logger_debug; rewrite ?bind_emit.

Lemma logged_step l msg st : st_step (logged l msg st) = st_step st.
Proof. unfold logged, emit. destruct (levelno logger_level <=? levelno l); reflexivity. Qed.

Lemma logged_now l msg st : st_now (logged l msg st) = st_now st.
Proof. unfold logged, emit. destruct (levelno logger_level <=? levelno l); reflexivity. Qed.

Lemma logged_calls l msg st : st_calls (logged l msg st) = st_calls st.
Proof. unfold logged, emit. destruct (levelno logger_level <=? levelno l); reflexivity. Qed.

(** ** Relations every step of the orchestrator preserves *)

Section Preserved.

Variable env : Env.
Variable self : MDPipelineOrchestrator.
Variable fuel : nat.

Variable R : State -> State -> Prop.

Hypothesis R_refl : forall st, R st st.
Hypothesis R_trans : forall a b c, R a b -> R b c -> R a c.
Hypothesis R_emit : forall l msg, keeps R (emit l msg).
Hypothesis R_sleep : forall n, 0 <= n -> keeps R (time_sleep env n).
Hypothesis R_run : forall args c,
  is_apply args = false -> keeps R (subprocess_run env (kubectl_cmd self ++ args) c).

Lemma keeps_ret {A} (a : A) : keeps R (ret a).
Proof. intros st r st' H. inversion H; subst. apply R_refl. Qed.

Lemma keeps_raise {A} e : keeps R (@raise A e).
Proof. intros st r st' H. inversion H; subst. apply R_refl. Qed.

Lemma keeps_out_of_fuel {A} : keeps R (@out_of_fuel A).
Proof. intros st r st' H. inversion H; subst. apply R_refl. Qed.

Lemma keeps_time_time : keeps R time_time.
Proof. intros st r st' H. inversion H; subst. apply R_refl. Qed.

Lemma keeps_bind {A B} (m : M A) (k : A -> M B) :
  keeps R m -> (forall a, keeps R (k a)) -> keeps R (bind m k).
Proof.
  intros Hm Hk st r st' H.
  destruct (bind_inv _ _ _ _ _ H) as [(a & s1 & H1 & H2) | [(e & H1 & _) | (H1 & _)]].
  - eapply R_trans; [eapply Hm | eapply Hk]; eauto.
  - eapply Hm; eauto.
  - eapply Hm; eauto.
Qed.

Lemma keeps_try_except {A} (body : M A) handler :
  keeps R body -> (forall rc c err, keeps R (handler rc c err)) -> keeps R (try_except body handler).
Proof.
  intros Hb Hh st r st'. unfold try_except.
  destruct (body st) as [[a | e |] s1] eqn:E.
  - intros H. inversion H; subst. eapply Hb; eauto.
  - destruct e;
      try solve [ intros H; inversion H; subst; eapply Hb; eauto ].
    intros H. eapply R_trans; [eapply Hb | eapply Hh]; eauto.
  - intros H. inversion H; subst. eapply Hb; eauto.
Qed.

Lemma keeps_truediv a b : keeps R (truediv a b).
Proof. unfold truediv. destruct (Qeq_bool b 0); [apply keeps_raise | apply keeps_ret]. Qed.

Ltac keeps_step :=
  lazymatch goal with
  | |- keeps R (bind _ _) => apply keeps_bind; [ | intro ]
  | |- keeps R (try_except _ _) => apply keeps_try_except; [ | intros ? ? ? ]
  | |- keeps R (ret _) => apply keeps_ret
  | |- keeps R (raise _) => apply keeps_raise
  | |- keeps R time_time => apply keeps_time_time
  | |- keeps R (truediv _ _) => apply keeps_truediv
  | |- keeps R (logger_debug _) => apply R_emit
  | |- keeps R (logger_info _) => apply R_emit
  | |- keeps R (logger_warning _) => apply R_emit
  | |- keeps R (logger_error _) => apply R_emit
  | |- keeps R (time_sleep _ _) => apply R_sleep; lia
  | |- keeps R (subprocess_run _ _ _) => apply R_run; reflexivity
  | |- keeps R (if ?c then _ else _) => destruct c
  | |- keeps R (match ?x with _ => _ end) => destruct x
  end.

Ltac keeps_tac := repeat keeps_step.

Lemma keeps_run_kubectl args c :
  is_apply args = false -> keeps R (run_kubectl env self args c).
Proof.
  intros Ha. unfold run_kubectl.
  apply keeps_bind; [apply R_emit | intros _].
  apply keeps_try_except.
  - apply keeps_bind; [apply R_run; exact Ha | intro; apply keeps_ret].
  - intros. keeps_tac.
Qed.

Lemma keeps_get_executor_count job : keeps R (get_executor_count env self job).
Proof.
  unfold get_executor_count.
  apply keeps_try_except; [ | intros; apply keeps_ret ].
  apply keeps_bind; [ apply keeps_run_kubectl; reflexivity | intro ].
  keeps_tac.
Qed.

Lemma keeps_show_job_logs job tail : keeps R (show_job_logs env self job tail).
Proof.
  unfold show_job_logs.
  keeps_step; [ keeps_step | ].
  keeps_step; [ keeps_step; [ keeps_step; [ apply keeps_run_kubectl; reflexivity | keeps_tac ] | keeps_tac ] | ].
  keeps_step; [ keeps_step | ].
  keeps_step; [ keeps_step; [ apply keeps_run_kubectl; reflexivity | keeps_tac ] | keeps_tac ].
Qed.

Lemma keeps_wait_for_spark_job_body job tm start ts ls lc :
  keeps R (wait_for_spark_job_body env self job tm start ts ls lc).
Proof.
  unfold wait_for_spark_job_body.
  keeps_step; [ keeps_step | ].
  keeps_step; [ keeps_tac | ].
  keeps_step; [ | keeps_tac ].
  keeps_step; [ apply keeps_run_kubectl; reflexivity | ].
  keeps_step; [ apply keeps_get_executor_count | ].
  keeps_step; [ keeps_tac | ].
  keeps_step; [ keeps_tac | ].
  keeps_step; [ | keeps_tac ].
  keeps_step; [ keeps_step | ].
  keeps_step; [ apply keeps_show_job_logs | keeps_tac ].
Qed.

Lemma keeps_wait_for_spark_job_loop n job tm start ts :
  forall ls lc, keeps R (wait_for_spark_job_loop env self n job tm start ts ls lc).
Proof.
  induction n as [ | n IH ]; intros ls lc; simpl.
  - apply keeps_out_of_fuel.
  - apply keeps_bind; [ apply keeps_wait_for_spark_job_body | ].
    intros [b | [s c]]; [ apply keeps_ret | apply IH ].
Qed.

Lemma keeps_wait_for_spark_job job tm : keeps R (wait_for_spark_job env self fuel job tm).
Proof.
  unfold wait_for_spark_job.
  keeps_step; [ keeps_step | ].
  keeps_step; [ keeps_step | ].
  apply keeps_wait_for_spark_job_loop.
Qed.

Lemma keeps_delete_spark_job job : keeps R (delete_spark_job env self job).
Proof.
  unfold delete_spark_job.
  keeps_step; [ | keeps_tac ].
  keeps_step; [ apply keeps_run_kubectl; reflexivity | keeps_tac ].
Qed.

Lemma keeps_run_bronze_ingest_loop n start target :
  keeps R (run_bronze_ingest_loop env self n start target).
Proof.
  induction n as [ | n IH ]; simpl.
  - apply keeps_out_of_fuel.
  - keeps_step; [ keeps_step | ].
    keeps_step; [ | keeps_tac ].
    apply keeps_bind.
    + unfold run_bronze_ingest_body.
      keeps_step; [ apply keeps_get_executor_count | keeps_tac ].
    + intros [ done | again ]; [ apply keeps_ret | apply IH ].
Qed.

Lemma keeps_log_performance lines : keeps R (log_performance lines).
Proof.
  induction lines as [ | line rest IH ]; simpl.
  - apply keeps_ret.
  - keeps_step; [ keeps_tac | apply IH ].
Qed.

Lemma keeps_validate_pipeline : keeps R (validate_pipeline env self).
Proof.
  unfold validate_pipeline, trino_exec.
  keeps_step; [ keeps_step | ].
  keeps_step; [ | keeps_tac ].
  keeps_step; [ apply keeps_run_kubectl; reflexivity | ].
  keeps_step; [ | keeps_tac ].
  keeps_step; [ keeps_tac | ].
  repeat first [ apply keeps_run_kubectl; reflexivity | keeps_step ].
Qed.

Lemma keeps_check_cluster_resources : keeps R (check_cluster_resources env self).
Proof.
  unfold check_cluster_resources.
  repeat first [ apply keeps_run_kubectl; reflexivity | keeps_step ].
Qed.

End Preserved.

(** The same, for relations that an [apply] preserves too: they hold across
    the stage functions and the whole pipeline. *)
Section PreservedByStages.

Variable env : Env.
Variable self : MDPipelineOrchestrator.
Variable fuel : nat.

Variable R : State -> State -> Prop.

Hypothesis R_refl : forall st, R st st.
Hypothesis R_trans : forall a b c, R a b -> R b c -> R a c.
Hypothesis R_emit : forall l msg, keeps R (emit l msg).
Hypothesis R_sleep : forall n, 0 <= n -> keeps R (time_sleep env n).
Hypothesis R_run : forall cmd c, keeps R (subprocess_run env cmd c).

Let R_run' : forall args c,
    is_apply args = false -> keeps R (subprocess_run env (kubectl_cmd self ++ args) c) :=
  fun args c _ => R_run (kubectl_cmd self ++ args)%list c.

Ltac stage_step :=
  lazymatch goal with
  | |- keeps R (bind _ _) => apply (keeps_bind R R_trans); [ | intro ]
  | |- keeps R (ret _) => apply (keeps_ret R R_refl)
  | |- keeps R time_time => apply (keeps_time_time R R_refl)
  | |- keeps R (truediv _ _) => apply (keeps_truediv R R_refl)
  | |- keeps R (logger_info _) => apply R_emit
  | |- keeps R (logger_warning _) => apply R_emit
  | |- keeps R (logger_error _) => apply R_emit
  | |- keeps R (delete_spark_job _ _ _) =>
      apply (keeps_delete_spark_job env self R R_refl R_trans R_emit R_sleep R_run')
  | |- keeps R (wait_for_spark_job _ _ _ _ _) =>
      apply (keeps_wait_for_spark_job env self fuel R R_refl R_trans R_emit R_sleep R_run')
  | |- keeps R (validate_pipeline _ _) =>
      apply (keeps_validate_pipeline env self R R_refl R_trans R_emit R_run')
  | |- keeps R (check_cluster_resources _ _) =>
      apply (keeps_check_cluster_resources env self R R_refl R_trans R_emit R_run')
  | |- keeps R (if ?c then _ else _) => destruct c
  end.

Lemma keeps_apply_manifest manifest_path : keeps R (apply_manifest env self manifest_path).
Proof.
  unfold apply_manifest, run_kubectl.
  apply (keeps_bind R R_trans); [ apply R_emit | intros _ ].
  apply (keeps_bind R R_trans); [ | intro; apply (keeps_ret R R_refl) ].
  apply (keeps_bind R R_trans); [ apply R_emit | intros _ ].
  apply (keeps_try_except R R_trans).
  - apply (keeps_bind R R_trans); [ apply R_run | intro; apply (keeps_ret R R_refl) ].
  - intros rc c [ text | ].
    + apply (keeps_bind R R_trans); [ apply R_emit | intros _ ].
      apply (keeps_bind R R_trans); [ | intros _; apply (keeps_raise R R_refl) ].
      destruct (true && Py.truthy text); [ apply R_emit | apply (keeps_ret R R_refl) ].
    + apply (keeps_bind R R_trans); [ apply R_emit | intros _ ].
      apply (keeps_bind R R_trans);
        [ apply (keeps_ret R R_refl) | intros _; apply (keeps_raise R R_refl) ].
Qed.

Lemma keeps_run_smoke_test : keeps R (run_smoke_test env self fuel).
Proof.
  unfold run_smoke_test.
  repeat first [ apply keeps_apply_manifest | stage_step ].
Qed.

Lemma keeps_run_silver_build : keeps R (run_silver_build env self fuel).
Proof.
  unfold run_silver_build.
  repeat first [ apply keeps_apply_manifest | stage_step ].
Qed.

Lemma keeps_run_gold_finalize : keeps R (run_gold_finalize env self fuel).
Proof.
  unfold run_gold_finalize.
  repeat first [ apply keeps_apply_manifest | stage_step ].
Qed.

Lemma keeps_run_bronze_ingest : keeps R (run_bronze_ingest env self fuel).
Proof.
  unfold run_bronze_ingest.
  do 5 (apply (keeps_bind R R_trans);
        [ first [ apply keeps_apply_manifest | stage_step ] | intro ]).
  apply (keeps_bind R R_trans);
    [ apply (keeps_run_bronze_ingest_loop env self R R_refl R_trans R_emit R_sleep R_run')
    | intro ].
  apply (keeps_bind R R_trans); [ stage_step | intros [ | ] ].
  - apply (keeps_bind R R_trans); [ apply R_emit | intros _ ].
    apply (keeps_bind R R_trans); [ | intro; apply (keeps_ret R R_refl) ].
    apply (keeps_try_except R R_trans); [ | intros; apply R_emit ].
    apply (keeps_bind R R_trans);
      [ apply (keeps_run_kubectl env self R R_refl R_trans R_emit R_run'); reflexivity
      | intros [ text | ] ].
    + apply (keeps_log_performance R R_refl R_trans R_emit).
    + apply (keeps_raise R R_refl).
  - repeat stage_step.
Qed.

Lemma keeps_run_full_pipeline : keeps R (run_full_pipeline env self fuel).
Proof.
  unfold run_full_pipeline.
  repeat first
    [ apply keeps_run_smoke_test | apply keeps_run_bronze_ingest
    | apply keeps_run_silver_build | apply keeps_run_gold_finalize
    | stage_step ].
Qed.

End PreservedByStages.

(** ** Two instances: the clock and the step counter move forward; the
    manifests applied so far stay the same outside [apply_manifest] *)

Lemma usec_pos p : (0 < usec p)%Q.
Proof. unfold usec, Qlt. simpl. lia. Qed.

Lemma progress_refl st : progress st st.
Proof. split; [ lia | apply Qle_refl ]. Qed.

Lemma progress_trans a b c : progress a b -> progress b c -> progress a c.
Proof. intros [H1 H2] [H3 H4]. split; [ lia | eapply Qle_trans; eauto ]. Qed.

Lemma progress_emit l msg : keeps progress (emit l msg).
Proof.
  intros st r st' H. rewrite emit_logged in H. inversion H; subst.
  split; [ rewrite logged_step; lia | rewrite logged_now; apply Qle_refl ].
Qed.

Lemma progress_sleep env n : 0 <= n -> keeps progress (time_sleep env n).
Proof.
  intros Hn st r st'. unfold time_sleep.
  pose proof (usec_pos (env_latency env (st_step st))) as Hp.
  assert (0 <= inject_Z n)%Q as Hq by (unfold Qle, inject_Z; simpl; lia).
  destruct (env_interrupt env (st_step st)); intros H; inversion H; subst;
    split; simpl; try lia; lra.
Qed.

Lemma progress_run env cmd c : keeps progress (subprocess_run env cmd c).
Proof.
  intros st r st'. unfold subprocess_run.
  pose proof (usec_pos (env_latency env (st_step st))) as Hp.
  destruct (env_interrupt env (st_step st)).
  - intros H; inversion H; subst. split; simpl; [ lia | lra ].
  - destruct (env_proc env (st_step st) cmd) as [rc out err | why].
    + destruct (rc =? 0); intros H; inversion H; subst; split; simpl; try lia; lra.
    + intros H; inversion H; subst. split; simpl; [ lia | lra ].
Qed.

Lemma skipn_kubectl_cmd {A} (l r : list A) : skipn (length l) (l ++ r) = r.
Proof. induction l as [ | x l IH ]; simpl; auto. Qed.

Lemma applied_snoc self calls args :
  applied self (calls ++ [kubectl_cmd self ++ args]) =
  (applied self calls ++
   match args with
   | [verb; flag; manifest] =>
       if String.eqb verb "apply" && String.eqb flag "-f" then [manifest] else []
   | _ => []
   end)%list.
Proof.
  unfold applied. rewrite flat_map_app. simpl.
  rewrite skipn_kubectl_cmd, app_nil_r. reflexivity.
Qed.

Lemma same_applied_refl self st : same_applied self st st.
Proof. reflexivity. Qed.

Lemma same_applied_trans self a b c :
  same_applied self a b -> same_applied self b c -> same_applied self a c.
Proof. unfold same_applied. congruence. Qed.

Lemma same_applied_emit self l msg : keeps (same_applied self) (emit l msg).
Proof.
  intros st r st' H. rewrite emit_logged in H. inversion H; subst.
  unfold same_applied. rewrite logged_calls. reflexivity.
Qed.

Lemma same_applied_sleep self env n : 0 <= n -> keeps (same_applied self) (time_sleep env n).
Proof.
  intros _ st r st'. unfold time_sleep.
  destruct (env_interrupt env (st_step st)); intros H; inversion H; subst; reflexivity.
Qed.

Lemma subprocess_run_calls env cmd c st r st' :
  subprocess_run env cmd c st = (r, st') -> st_calls st' = (st_calls st ++ [cmd])%list.
Proof.
  unfold subprocess_run.
  destruct (env_interrupt env (st_step st)).
  - intros H; inversion H; subst. reflexivity.
  - destruct (env_proc env (st_step st) cmd) as [rc out err | why].
    + destruct (rc =? 0); intros H; inversion H; subst; reflexivity.
    + intros H; inversion H; subst. reflexivity.
Qed.

Lemma same_applied_run self env args c :
  is_apply args = false ->
  keeps (same_applied self) (subprocess_run env (kubectl_cmd self ++ args) c).
Proof.
  intros Ha st r st' H. unfold same_applied.
  rewrite (subprocess_run_calls _ _ _ _ _ _ H), applied_snoc.
  destruct args as [ | verb [ | flag [ | manifest [ | x rest ] ] ] ];
    try (rewrite app_nil_r; reflexivity).
  simpl in Ha. rewrite Ha. simpl. rewrite app_nil_r. reflexivity.
Qed.

(** ** One command *)

Section Commands.

Variable env : Env.
Variable self : MDPipelineOrchestrator.

Lemma run_kubectl_ok args c st out err :
  env_interrupt env (st_step st) = false ->
  env_proc env (st_step st) (kubectl_cmd self ++ args) = Exits 0 out err ->
  run_kubectl env self args c st =
  (Ok (if c then Some (Py.strip out) else None), ran env (kubectl_cmd self ++ args) st).
Proof.
  intros Hi Hp. unfold run_kubectl, try_except, bind, subprocess_run. simpl.
  rewrite Hi, Hp. simpl. destruct c; reflexivity.
Qed.

Lemma run_kubectl_failed args c st rc out err :
  env_interrupt env (st_step st) = false ->
  env_proc env (st_step st) (kubectl_cmd self ++ args) = Exits rc out err ->
  rc <> 0 ->
  run_kubectl env self args c st =
  (Raise (CalledProcessError rc (kubectl_cmd self ++ args) (if c then Some err else None)),
   with_records (failure_records rc (kubectl_cmd self ++ args) c err)
     (ran env (kubectl_cmd self ++ args) st)).
Proof.
  intros Hi Hp Hrc. unfold run_kubectl, try_except, bind, subprocess_run. simpl.
  rewrite Hi, Hp. apply Z.eqb_neq in Hrc. rewrite Hrc.
  unfold failure_records, with_records.
  destruct c; simpl; [ destruct (Py.truthy err); simpl | ];
    rewrite <- ?app_assoc; reflexivity.
Qed.

(** Whatever the environment does, [run_kubectl] makes exactly one blocking
    call, the command it was given. *)
Lemma run_kubectl_calls args c st r st' :
  run_kubectl env self args c st = (r, st') ->
  st_calls st' = st_calls st ++ [kubectl_cmd self ++ args].
Proof.
  unfold run_kubectl, try_except, bind. simpl.
  destruct (subprocess_run env (kubectl_cmd self ++ args) c st) as [[o | e | ] s1] eqn:E;
    pose proof (subprocess_run_calls _ _ _ _ _ _ E) as Hc.
  - intros H; inversion H; subst. exact Hc.
  - destruct e; try (intros H; inversion H; subst; exact Hc).
    destruct stderr as [ text | ]; [ destruct (c && Py.truthy text) | ];
      simpl; intros H; inversion H; subst; simpl; exact Hc.
  - intros H; inversion H; subst. exact Hc.
Qed.

End Commands.

(** ** [delete_spark_job] when the job is absent *)

Section DeleteSparkJob.

Variable env : Env.
Variable self : MDPipelineOrchestrator.

(** C3, as amended.  When the delete command exits non-zero,
    [delete_spark_job] returns normally after that single command, without
    the ten-second pause, and its handler writes one INFO record; by then
    [run_kubectl] has written the failed command (and its stderr, when there
    is any) at ERROR level. *)
Theorem delete_spark_job_absent job_name st rc out err :
  env_interrupt env (st_step st) = false ->
  env_proc env (st_step st) (delete_cmd self job_name) = Exits rc out err ->
  rc <> 0 ->
  delete_spark_job env self job_name st =
  (Ok tt,
   with_records
     (failure_records rc (delete_cmd self job_name) true err ++
      [(INFO, [Str "Job '"; Str job_name; Str "' not found (this is okay)"])])
     (ran env (delete_cmd self job_name) st))
  /\ error_records (failure_records rc (delete_cmd self job_name) true err) <> [].
Proof.
  intros Hi Hp Hrc. split; [ | discriminate ].
  unfold delete_spark_job, try_except, bind.
  unfold delete_cmd in *.
  rewrite (run_kubectl_failed env self _ true st rc out err Hi Hp Hrc).
  unfold logger_info, emit, with_records. simpl.
  rewrite <- app_assoc. reflexivity.
Qed.

End DeleteSparkJob.

(** C3 as stated fails: with no job to delete the call returns normally, but
    two of the three records it leaves are at ERROR level. *)
Lemma delete_spark_job_error_output :
  let cmd := ["oc"; "delete"; "sparkapplication"; "mdp-smoke"; "-n"; "md-pipeline"] in
  let run := delete_spark_job Scenario.nothing_to_delete Scenario.oc "mdp-smoke" Scenario.st0 in
  env_proc Scenario.nothing_to_delete 0 cmd =
    Exits 1 "" "Error from server (NotFound): sparkapplications.sparkoperator.k8s.io not found"
  /\ fst run = Ok tt
  /\ map fst (st_log (snd run)) = [ERROR; ERROR; INFO]
  /\ ~ (error_records (st_log (snd run)) = []).
Proof. vm_compute. repeat split; discriminate. Qed.

Lemma delete_spark_job_absent_witness :
  fst (delete_spark_job Scenario.nothing_to_delete Scenario.oc "mdp-smoke" Scenario.st0) = Ok tt.
Proof.
  destruct (delete_spark_job_absent Scenario.nothing_to_delete Scenario.oc "mdp-smoke"
              Scenario.st0 1 ""
              "Error from server (NotFound): sparkapplications.sparkoperator.k8s.io not found")
    as [H _].
  - reflexivity.
  - reflexivity.
  - lia.
  - rewrite H. reflexivity.
Defined.

(** ** An undisturbed run: nobody presses Ctrl-C and [oc] can be started, so
    every command ends with an exit status *)

Lemma cluster_undisturbed answer : undisturbed (Scenario.cluster answer).
Proof.
  split; [ reflexivity | ]. intros k cmd. simpl.
  destruct (answer k cmd) as [[rc out] err]. eauto.
Qed.

Section Undisturbed.

Variable env : Env.
Variable self : MDPipelineOrchestrator.
Hypothesis calm : undisturbed env.

Lemma time_sleep_ok n st : time_sleep env n st = (Ok tt, slept n st).
Proof. unfold time_sleep. rewrite (proj1 calm). reflexivity. Qed.

Lemma run_kubectl_cases args c st :
  exists rc out err,
    env_proc env (st_step st) (kubectl_cmd self ++ args) = Exits rc out err
    /\ ((rc = 0 /\
         run_kubectl env self args c st =
         (Ok (if c then Some (Py.strip out) else None), ran env (kubectl_cmd self ++ args) st))
        \/ (rc <> 0 /\
            run_kubectl env self args c st =
            (Raise (CalledProcessError rc (kubectl_cmd self ++ args)
                      (if c then Some err else None)),
             with_records (failure_records rc (kubectl_cmd self ++ args) c err)
               (ran env (kubectl_cmd self ++ args) st)))).
Proof.
  destruct (proj2 calm (st_step st) (kubectl_cmd self ++ args)) as (rc & out & err & Hp).
  exists rc, out, err. split; [ exact Hp | ].
  destruct (Z.eq_dec rc 0) as [ -> | Hrc ].
  - left. split; [ reflexivity | ].
    exact (run_kubectl_ok env self args c st out err (proj1 calm _) Hp).
  - right. split; [ exact Hrc | ].
    exact (run_kubectl_failed env self args c st rc out err (proj1 calm _) Hp Hrc).
Qed.

Lemma visible_lines_empty : visible_lines "" = 0.
Proof. reflexivity. Qed.

Lemma visible_lines_nonneg text : 0 <= visible_lines text.
Proof. unfold visible_lines. lia. Qed.

Lemma get_executor_count_exits job st rc out err :
  env_interrupt env (st_step st) = false ->
  env_proc env (st_step st) (kubectl_cmd self ++ pods_query self job) = Exits rc out err ->
  exists st',
    get_executor_count env self job st =
    (Ok (if rc =? 0 then visible_lines (Py.strip out) else 0), st').
Proof.
  intros Hi Hp. unfold get_executor_count, try_except, bind.
  fold (pods_query self job).
  destruct (Z.eq_dec rc 0) as [ -> | Hrc ].
  - rewrite (run_kubectl_ok env self _ true st out err Hi Hp). simpl.
    destruct (Py.strip out); simpl; unfold ret; eexists; reflexivity.
  - rewrite (run_kubectl_failed env self _ true st rc out err Hi Hp Hrc).
    apply Z.eqb_neq in Hrc. rewrite Hrc. unfold ret. eexists; reflexivity.
Qed.

Lemma get_executor_count_ok job st :
  exists n st', get_executor_count env self job st = (Ok n, st') /\ 0 <= n.
Proof.
  destruct (proj2 calm (st_step st) (kubectl_cmd self ++ pods_query self job))
    as (rc & out & err & Hp).
  destruct (get_executor_count_exits job st rc out err (proj1 calm _) Hp) as (st' & H).
  eexists _, st'. split; [ exact H | ].
  destruct (rc =? 0); [ apply visible_lines_nonneg | lia ].
Qed.

End Undisturbed.

(** ** [get_executor_count] *)





(** ** [show_job_logs] *)

Section ShowJobLogs.

Variable env : Env.
Variable self : MDPipelineOrchestrator.

Lemma show_job_logs_exits job_name tail_lines st rc1 out1 err1 rc2 out2 err2 :
  env_interrupt env (st_step st) = false ->
  env_interrupt env (S (st_step st)) = false ->
  env_proc env (st_step st) (driver_logs_cmd self job_name tail_lines)
    = Exits rc1 out1 err1 ->
  env_proc env (S (st_step st)) (executor_logs_cmd self job_name) = Exits rc2 out2 err2 ->
  exists st',
    show_job_logs env self job_name tail_lines st = (Ok tt, st')
    /\ st_step st' = S (S (st_step st))
    /\ st_calls st' = st_calls st ++ [driver_logs_cmd self job_name tail_lines;
                                      executor_logs_cmd self job_name]
    /\ (rc1 <> 0 -> In (WARNING, [Str "Could not retrieve driver logs"]) (st_log st'))
    /\ (rc2 <> 0 -> In (WARNING, [Str "Could not retrieve executor logs"]) (st_log st')).
Proof.
  intros Hi1 Hi2 Hp1 Hp2. unfold driver_logs_cmd, executor_logs_cmd in *.
  unfold show_job_logs. run_log.
  set (s1 := logged INFO _ st).
  assert (st_step s1 = st_step st) as Es1 by apply logged_step.
  assert (st_calls s1 = st_calls st) as Ec1 by apply logged_calls.
  rewrite <- Es1 in Hi1, Hp1.
  assert (exists s2,
    try_except
      (run_kubectl env self
         ["logs"; "-l"; ("spark-app-name=" ++ job_name ++ ",spark-role=driver")%string;
          "-n"; namespace self; "--tail"; Py.str_int tail_lines] false ;; ret tt)
      (fun _ _ _ => logger_warning [Str "Could not retrieve driver logs"]) s1 = (Ok tt, s2)
    /\ st_step s2 = S (st_step st)
    /\ st_calls s2 = st_calls st ++ [driver_logs_cmd self job_name tail_lines]
    /\ (rc1 <> 0 -> In (WARNING, [Str "Could not retrieve driver logs"]) (st_log s2)))
    as (s2 & E2 & Es2 & Ec2 & Hw2).
  { unfold try_except, bind.
    destruct (Z.eq_dec rc1 0) as [ -> | Hrc ].
    - rewrite (run_kubectl_ok env self _ false s1 out1 err1 Hi1 Hp1).
      eexists. split; [ reflexivity | ]. simpl. rewrite ?Es1, ?Ec1.
      repeat split. intros Hne. contradiction.
    - rewrite (run_kubectl_failed env self _ false s1 rc1 out1 err1 Hi1 Hp1 Hrc).
      eexists. split; [ reflexivity | ]. simpl. rewrite ?Es1, ?Ec1.
      repeat split. intros _. apply in_or_app. right. left. reflexivity. }
  fold (logger_warning [Str "Could not retrieve driver logs"]).
  rewrite (bind_Ok _ _ _ _ _ E2). run_log.
  set (s3 := logged INFO _ s2).
  assert (st_step s3 = S (st_step st)) as Es3 by (unfold s3; rewrite logged_step; exact Es2).
  assert (st_calls s3 = st_calls s2) as Ec3 by apply logged_calls.
  assert (incl (st_log s2) (st_log s3)) as Hl3.
  { unfold s3, logged, emit. simpl. intros x Hx. apply in_or_app. left. exact Hx. }
  rewrite <- Es3 in Hi2, Hp2.
  unfold try_except, bind.
  destruct (Z.eq_dec rc2 0) as [ -> | Hrc ];
    [ rewrite (run_kubectl_ok env self _ false s3 out2 err2 Hi2 Hp2)
    | rewrite (run_kubectl_failed env self _ false s3 rc2 out2 err2 Hi2 Hp2 Hrc) ];
    (eexists; split; [ reflexivity | ]); simpl;
    (split; [ congruence | ]);
    (split; [ rewrite Ec2, <- app_assoc; reflexivity | ]);
    (split; intros H; try congruence; try specialize (Hw2 H);
     rewrite ?in_app_iff; simpl; tauto).
Qed.

End ShowJobLogs.

(** ** [wait_for_spark_job]: one pass through the loop body *)

Section WaitBody.

Variable env : Env.
Variable self : MDPipelineOrchestrator.

Lemma progress_get_executor_count job : keeps progress (get_executor_count env self job).
Proof.
  apply keeps_get_executor_count;
    eauto using progress_refl, progress_trans, progress_emit, progress_run.
Qed.

Lemma body_timed_out job tm start ts ls lc st :
  timed_out start ts st = true ->
  wait_for_spark_job_body env self job tm start ts ls lc st =
  (Ok (Return false), with_records [timeout_record job tm] st).
Proof.
  intros Ht. unfold wait_for_spark_job_body, timed_out in *.
  unfold bind at 1, time_time. rewrite Ht. reflexivity.
Qed.

Lemma body_query_failed job tm start ts ls lc st rc out err :
  timed_out start ts st = false ->
  env_interrupt env (st_step st) = false ->
  env_interrupt env (S (st_step st)) = false ->
  env_proc env (st_step st) (status_cmd self job) = Exits rc out err ->
  rc <> 0 ->
  wait_for_spark_job_body env self job tm start ts ls lc st =
  (Ok (Continue (ls, lc)),
   slept 10 (with_records (failure_records rc (status_cmd self job) true err ++ [retry_record job])
               (ran env (status_cmd self job) st))).
Proof.
  intros Ht Hi1 Hi2 Hp Hrc. unfold wait_for_spark_job_body, timed_out, status_cmd in *.
  unfold bind at 1, time_time. rewrite Ht.
  unfold try_except at 1. unfold bind at 1.
  rewrite (run_kubectl_failed env self _ true st rc out err Hi1 Hp Hrc).
  unfold bind, logger_warning, emit, time_sleep. simpl. rewrite Hi2.
  unfold slept, with_records, retry_record. simpl. rewrite <- app_assoc. reflexivity.
Qed.

Section Calm.

Hypothesis calm : undisturbed env.

Lemma show_job_logs_ok job tail st :
  exists st', show_job_logs env self job tail st = (Ok tt, st').
Proof.
  destruct (proj2 calm (st_step st) (driver_logs_cmd self job tail)) as (rc1 & o1 & e1 & H1).
  destruct (proj2 calm (S (st_step st)) (executor_logs_cmd self job)) as (rc2 & o2 & e2 & H2).
  destruct (show_job_logs_exits env self job tail st _ _ _ _ _ _
              (proj1 calm _) (proj1 calm _) H1 H2) as (st' & H & _).
  exists st'. exact H.
Qed.

Lemma body_query_ok job tm start ts ls lc st out err :
  timed_out start ts st = false ->
  env_proc env (st_step st) (status_cmd self job) = Exits 0 out err ->
  let status := Some (Py.strip out) in
  exists c st',
    wait_for_spark_job_body env self job tm start ts ls lc st = (Ok c, st')
    /\ (is_success status = true -> c = Return true)
    /\ (is_success status = false -> is_failure status = true -> c = Return false)
    /\ (is_terminal status = false ->
        (exists last, c = Continue last) /\ (st_now st + 30 <= st_now st')%Q).
Proof.
  intros Ht Hp status. unfold wait_for_spark_job_body, timed_out, status_cmd in *.
  unfold bind at 1, time_time. rewrite Ht.
  unfold try_except at 1. unfold bind at 1.
  rewrite (run_kubectl_ok env self _ true st out err (proj1 calm _) Hp).
  fold status.
  set (s1 := ran env _ st).
  destruct (get_executor_count_ok env self calm job s1) as (n & s2 & Hn & _).
  pose proof (progress_get_executor_count job _ _ _ Hn) as [_ Hs2].
  assert (st_now st <= st_now s1)%Q as Hs1.
  { unfold s1, ran. simpl. pose proof (usec_pos (env_latency env (st_step st))). lra. }
  rewrite (bind_Ok _ _ _ _ _ Hn).
  match goal with
  | |- context [ bind ?m _ s2 ] =>
      assert (exists last s3, m s2 = (Ok last, s3) /\ st_now s3 = st_now s2)
        as (last & s3 & Hl & Hs3)
  end.
  { destruct (negb (Py.eq status ls) || negb (n =? lc)).
    - run_log. eexists _, _. split; [ reflexivity | apply logged_now ].
    - eexists _, _. split; reflexivity. }
  rewrite (bind_Ok _ _ _ _ _ Hl).
  unfold is_terminal, is_success, is_failure.
  destruct (Py.eq status (Some "COMPLETED")) eqn:Es.
  - run_log. eexists _, _. split; [ reflexivity | ].
    repeat split; intros; discriminate.
  - destruct (existsb (Py.eq status) [Some "FAILED"; Some "CANCELLED"; Some "ERROR"]) eqn:Ef.
    + run_log.
      match goal with
      | |- context [ bind (show_job_logs env self job 50) _ ?s ] =>
          destruct (show_job_logs_ok job 50 s) as (s4 & Hs4)
      end.
      rewrite (bind_Ok _ _ _ _ _ Hs4).
      eexists _, _. split; [ reflexivity | ].
      repeat split; intros; discriminate.
    + rewrite (bind_Ok _ _ _ _ _ (time_sleep_ok env calm 30 s3)).
      eexists _, _. split; [ reflexivity | ].
      split; [ intros; discriminate | ].
      split; [ intros; discriminate | ].
      intros _. split; [ eexists; reflexivity | ].
      unfold slept. simpl. rewrite Hs3. change (inject_Z 30) with 30%Q. lra.
Qed.

End Calm.

End WaitBody.

(** ** [wait_for_spark_job]: what a result says about the run *)

Lemma progress_show_job_logs env self job tail :
  keeps progress (show_job_logs env self job tail).
Proof.
  apply keeps_show_job_logs;
    eauto using progress_refl, progress_trans, progress_emit, progress_run.
Qed.

Lemma progress_wait_for_spark_job_body env self job tm start ts ls lc :
  keeps progress (wait_for_spark_job_body env self job tm start ts ls lc).
Proof.
  apply keeps_wait_for_spark_job_body;
    eauto using progress_refl, progress_trans, progress_emit, progress_run, progress_sleep.
Qed.

Ltac progress_step :=
  lazymatch goal with
  | |- keeps progress (bind _ _) => apply (keeps_bind progress progress_trans); [ | intro ]
  | |- keeps progress (ret _) => apply (keeps_ret progress progress_refl)
  | |- keeps progress (logger_info _) => apply progress_emit
  | |- keeps progress (logger_warning _) => apply progress_emit
  | |- keeps progress (logger_error _) => apply progress_emit
  | |- keeps progress (time_sleep _ _) => apply progress_sleep; lia
  | |- keeps progress (get_executor_count _ _ _) => apply progress_get_executor_count
  | |- keeps progress (show_job_logs _ _ _ _) => apply progress_show_job_logs
  | |- keeps progress (if ?c then _ else _) => destruct c
  end.

Section WaitResult.

Variable env : Env.
Variable self : MDPipelineOrchestrator.

Lemma subprocess_run_Ok_inv cmd c st v st' :
  subprocess_run env cmd c st = (Ok v, st') ->
  exists out err,
    env_proc env (st_step st) cmd = Exits 0 out err
    /\ v = (if c then Some out else None)
    /\ st' = ran env cmd st.
Proof.
  unfold subprocess_run.
  destruct (env_interrupt env (st_step st)); [ discriminate | ].
  destruct (env_proc env (st_step st) cmd) as [rc out err | why]; [ | discriminate ].
  destruct (Z.eqb_spec rc 0) as [ -> | Hrc ]; [ | discriminate ].
  intros H. inversion H; subst. exists out, err. repeat split.
Qed.

Lemma run_kubectl_Ok_inv args c st v st' :
  run_kubectl env self args c st = (Ok v, st') ->
  exists out err,
    env_proc env (st_step st) (kubectl_cmd self ++ args) = Exits 0 out err
    /\ v = (if c then Some (Py.strip out) else None)
    /\ st' = ran env (kubectl_cmd self ++ args) st.
Proof.
  unfold run_kubectl, try_except, bind. simpl.
  destruct (subprocess_run env (kubectl_cmd self ++ args) c st) as [[o | e | ] s1] eqn:E.
  - intros H. inversion H; subst.
    destruct (subprocess_run_Ok_inv _ _ _ _ _ E) as (out & err & Hp & -> & ->).
    exists out, err. destruct c; repeat split; assumption.
  - destruct e; try discriminate.
    destruct stderr as [ text | ]; [ destruct (c && Py.truthy text) | ]; discriminate.
  - discriminate.
Qed.

Lemma body_true_inv job tm start ts ls lc st st' :
  wait_for_spark_job_body env self job tm start ts ls lc st = (Ok (Return true), st') ->
  exists out err,
    env_proc env (st_step st) (status_cmd self job) = Exits 0 out err
    /\ Py.strip out = "COMPLETED"
    /\ (st_step st < st_step st')%nat.
Proof.
  intros H. unfold wait_for_spark_job_body in H.
  unfold bind at 1, time_time in H.
  destruct (Qgt_bool (st_now st - start) (inject_Z ts)).
  { revert H. run_log. discriminate. }
  unfold try_except at 1 in H.
  match type of H with
  | context [ match ?X with _ => _ end ] => destruct X as [[c | e | ] s] eqn:E
  end.
  - inversion H; subst. clear H.
    apply bind_inv in E.
    destruct E as [(status & s1 & Hq & E) | [(e & _ & He) | (_ & He)]]; try discriminate.
    destruct (run_kubectl_Ok_inv _ _ _ _ _ Hq) as (out & err & Hp & -> & ->).
    exists out, err. split; [ exact Hp | ].
    match type of E with
    | ?K _ = _ => assert (keeps progress K) as HK by (repeat progress_step)
    end.
    pose proof (HK _ _ _ E) as [Hstep _]. simpl in Hstep.
    split; [ | lia ].
    apply bind_inv in E.
    destruct E as [(n & s2 & Hn & E) | [(e & _ & He) | (_ & He)]]; try discriminate.
    apply bind_inv in E.
    destruct E as [(last & s3 & Hl & E) | [(e & _ & He) | (_ & He)]]; try discriminate.
    destruct (Py.eq (Some (Py.strip out)) (Some "COMPLETED")) eqn:Es.
    + simpl in Es. apply String.eqb_eq in Es. exact Es.
    + exfalso.
      destruct (existsb (Py.eq (Some (Py.strip out)))
                  [Some "FAILED"; Some "CANCELLED"; Some "ERROR"]).
      * revert E. run_log. intros E. apply bind_inv in E.
        destruct E as [(u & s4 & _ & E) | [(e & _ & He) | (_ & He)]]; discriminate.
      * apply bind_inv in E.
        destruct E as [(u & s4 & _ & E) | [(e & _ & He) | (_ & He)]]; discriminate.
  - destruct e; try discriminate.
    revert H. run_log. intros H. apply bind_inv in H.
    destruct H as [(u & s4 & _ & H) | [(e & _ & He) | (_ & He)]]; discriminate.
  - discriminate.
Qed.

Lemma loop_true_inv n job tm start ts :
  forall ls lc st st',
    wait_for_spark_job_loop env self n job tm start ts ls lc st = (Ok true, st') ->
    exists k out err,
      (st_step st <= k < st_step st')%nat
      /\ env_proc env k (status_cmd self job) = Exits 0 out err
      /\ Py.strip out = "COMPLETED".
Proof.
  induction n as [ | n IH ]; intros ls lc st st' H; simpl in H; [ discriminate | ].
  apply bind_inv in H.
  destruct H as [(c & s1 & Hb & H) | [(e & _ & He) | (_ & He)]]; try discriminate.
  destruct c as [ b | [ status count ] ].
  - inversion H; subst.
    destruct (body_true_inv _ _ _ _ _ _ _ _ Hb) as (out & err & Hp & Hs & Hlt).
    exists (st_step st), out, err. repeat split; auto.
  - destruct (IH _ _ _ _ H) as (k & out & err & Hk & Hp & Hs).
    destruct (progress_wait_for_spark_job_body _ _ _ _ _ _ _ _ _ _ _ Hb) as [Hstep _].
    exists k, out, err. repeat split; auto; lia.
Qed.

End WaitResult.

(** ** [wait_for_spark_job]: timeout, classification, retry *)

Lemma timed_out_true start ts st :
  timed_out start ts st = true <-> (inject_Z ts < st_now st - start)%Q.
Proof.
  unfold timed_out, Qgt_bool. rewrite negb_true_iff.
  split; intros H.
  - apply Qnot_le_lt. intros Hle. apply Qle_bool_iff in Hle. congruence.
  - destruct (Qle_bool (st_now st - start) (inject_Z ts)) eqn:E; [ | reflexivity ].
    apply Qle_bool_iff in E. lra.
Qed.


Section WaitLoop.

Variable env : Env.
Variable self : MDPipelineOrchestrator.
Hypothesis calm : undisturbed env.

Lemma loop_times_out job tm start ts :
  never_terminal env self job ->
  forall n ls lc st,
    (inject_Z ts - (st_now st - start) < 10 * inject_Z (Z.of_nat n))%Q ->
    exists s,
      wait_for_spark_job_loop env self (S n) job tm start ts ls lc st =
      (Ok false, with_records [timeout_record job tm] s)
      /\ timed_out start ts s = true.
Proof.
  intros Hnt. induction n as [ | n IH ]; intros ls lc st Hlt.
  - assert (timed_out start ts st = true) as Ht.
    { apply timed_out_true. change (inject_Z (Z.of_nat 0)) with 0%Q in Hlt. lra. }
    exists st. split; [ | exact Ht ].
    simpl. rewrite (bind_Ok _ _ _ _ _ (body_timed_out env self job tm start ts ls lc st Ht)).
    reflexivity.
  - destruct (timed_out start ts st) eqn:Ht.
    + exists st. split; [ | exact Ht ].
      cbn [wait_for_spark_job_loop].
      rewrite (bind_Ok _ _ _ _ _ (body_timed_out env self job tm start ts ls lc st Ht)).
      reflexivity.
    + assert (inject_Z (Z.of_nat (S n)) = inject_Z (Z.of_nat n) + 1)%Q as Hn.
      { rewrite Nat2Z.inj_succ, <- Z.add_1_r, inject_Z_plus. reflexivity. }
      destruct (proj2 calm (st_step st) (status_cmd self job)) as (rc & out & err & Hp).
      destruct (Z.eq_dec rc 0) as [ -> | Hrc ].
      * destruct (body_query_ok env self calm job tm start ts ls lc st out err Ht Hp)
          as (c & s1 & Hb & _ & _ & Hc).
        destruct (Hc (Hnt _ _ _ Hp)) as [[[status count] ->] Hnow].
        destruct (IH status count s1) as (s & Hs & Hts); [ rewrite Hn in Hlt; lra | ].
        exists s. split; [ | exact Hts ].
        cbn [wait_for_spark_job_loop]. rewrite (bind_Ok _ _ _ _ _ Hb). exact Hs.
      * pose proof (body_query_failed env self job tm start ts ls lc st rc out err Ht
                      (proj1 calm _) (proj1 calm _) Hp Hrc) as Hb.
        match type of Hb with _ = (_, ?s1) =>
          destruct (IH ls lc s1) as (s & Hs & Hts) end.
        { simpl. pose proof (usec_pos (env_latency env (st_step st))).
          change (inject_Z 10) with 10%Q. rewrite Hn in Hlt. lra. }
        exists s. split; [ | exact Hts ].
        cbn [wait_for_spark_job_loop]. rewrite (bind_Ok _ _ _ _ _ Hb). exact Hs.
Qed.

End WaitLoop.

(** C1.  Where no status query ever answers a terminal status,
    [wait_for_spark_job] never returns [True]; and in an undisturbed run,
    given the fuel for the at most [6 * timeout_minutes + 2] passes the
    ten-second pauses leave room for, it returns [False] from the timeout
    branch, at a clock reading more than [timeout_minutes * 60] seconds past
    its start. *)
Theorem wait_for_spark_job_times_out env self job_name timeout_minutes st :
  never_terminal env self job_name ->
  (forall fuel st', wait_for_spark_job env self fuel job_name timeout_minutes st <> (Ok true, st'))
  /\ (undisturbed env ->
      forall fuel,
        (Z.to_nat (6 * timeout_minutes) + 2 <= fuel)%nat ->
        exists s,
          wait_for_spark_job env self fuel job_name timeout_minutes st =
          (Ok false, with_records [timeout_record job_name timeout_minutes] s)
          /\ (inject_Z (timeout_minutes * 60) < st_now s - st_now st)%Q).
Proof.
  intros Hnt. split.
  - intros fuel st' H. unfold wait_for_spark_job in H. revert H. run_log.
    unfold bind at 1, time_time. intros H.
    destruct (loop_true_inv env self _ _ _ _ _ _ _ _ _ H) as (k & out & err & _ & Hp & Hs).
    specialize (Hnt _ _ _ Hp). rewrite Hs in Hnt. discriminate.
  - intros calm fuel Hfuel. destruct fuel as [ | n ]; [ lia | ].
    unfold wait_for_spark_job. run_log. unfold bind at 1, time_time.
    rewrite logged_now.
    match goal with
    | |- context [ wait_for_spark_job_loop _ _ _ _ _ _ _ ?ls ?lc ?s0 ] =>
        destruct (loop_times_out env self calm job_name timeout_minutes (st_now st)
                    (timeout_minutes * 60) Hnt n ls lc s0) as (s & Hs & Ht)
    end.
    + rewrite logged_now.
      assert (timeout_minutes * 60 < 10 * Z.of_nat n) as Hz by lia.
      rewrite Zlt_Qlt, !inject_Z_mult in Hz. rewrite inject_Z_mult.
      change (inject_Z 10) with 10%Q in Hz. lra.
    + exists s. split; [ exact Hs | ]. apply timed_out_true in Ht. exact Ht.
Qed.

Lemma wait_for_spark_job_times_out_witness :
  exists s,
    wait_for_spark_job (Scenario.always "RUNNING") Scenario.oc 8 "mdp-smoke" 1 Scenario.st0 =
    (Ok false, with_records [timeout_record "mdp-smoke" 1] s)
    /\ (60 < st_now s)%Q.
Proof.
  destruct (wait_for_spark_job_times_out (Scenario.always "RUNNING") Scenario.oc
              "mdp-smoke" 1 Scenario.st0) as [_ H].
  - intros k out err E. vm_compute in E. inversion E; subst. reflexivity.
  - destruct (H (cluster_undisturbed _) 8%nat) as (s & Hs & Ht); [ vm_compute; lia | ].
    exists s. split; [ exact Hs | ].
    change (inject_Z (1 * 60)) with 60%Q in Ht.
    change (st_now Scenario.st0) with 0%Q in Ht. lra.
Defined.





(** The retried wait then ends on the second query's answer. *)
Example flaky_then_completed_returns_true :
  fst (wait_for_spark_job Scenario.flaky_then_completed Scenario.oc 2 "mdp-smoke" 10 Scenario.st0)
  = Ok true.
Proof. vm_compute. reflexivity. Qed.




(** The wait on that cluster still ends with [False]. *)
Example failed_without_logs_returns_false :
  fst (wait_for_spark_job Scenario.failed_without_logs Scenario.oc 1 "mdp-smoke" 10 Scenario.st0)
  = Ok false.
Proof. vm_compute. reflexivity. Qed.

(** ** [main] *)

Section CheckResources.

Variable env : Env.
Variable self : MDPipelineOrchestrator.
Hypothesis calm : undisturbed env.

Lemma check_cluster_resources_ok st :
  exists st',
    check_cluster_resources env self st = (Ok tt, st')
    /\ (st_calls st' = st_calls st ++ [get_nodes_cmd self]
        \/ st_calls st' = st_calls st ++ [get_nodes_cmd self; top_nodes_cmd self]).
Proof.
  unfold check_cluster_resources, get_nodes_cmd, top_nodes_cmd. run_log.
  set (s1 := logged INFO _ st).
  assert (st_calls s1 = st_calls st) as Ec1 by apply logged_calls.
  unfold try_except at 1. unfold bind at 1.
  destruct (run_kubectl_cases env self calm ["get"; "nodes"; "-o"; "wide"] true s1)
    as (rc & out & err & _ & [[_ H] | [_ H]]); rewrite H; clear H.
  - run_log.
    match goal with
    | |- context [ bind (run_kubectl env self ["top"; "nodes"] false) _ ?s ] =>
        set (s2 := s);
        assert (st_calls s2 = st_calls st ++ [kubectl_cmd self ++ ["get"; "nodes"; "-o"; "wide"]])
          as Ec2 by (unfold s2; rewrite !logged_calls; unfold ran; cbn [st_calls]; rewrite Ec1; reflexivity);
        destruct (run_kubectl_cases env self calm ["top"; "nodes"] false s2)
          as (rc2 & out2 & err2 & _ & [[_ H] | [_ H]])
    end.
    + rewrite (bind_Ok _ _ _ _ _ H). eexists. split; [ reflexivity | ].
      right. unfold ran. cbn [st_calls]. rewrite Ec2, <- app_assoc. reflexivity.
    + rewrite (bind_Raise _ _ _ _ _ H). unfold logger_warning. rewrite emit_logged.
      eexists. split; [ reflexivity | ].
      right. rewrite logged_calls. unfold with_records, ran. cbn [st_calls].
      rewrite Ec2, <- app_assoc. reflexivity.
  - unfold logger_warning. rewrite emit_logged.
    eexists. split; [ reflexivity | ].
    left. rewrite logged_calls. unfold with_records, ran. cbn [st_calls].
    rewrite Ec1. reflexivity.
Qed.

End CheckResources.




(** C8.  Without [--check-resources] the exit code is 0 exactly when the
    selected stage function returns [True]; it is 1 when that function
    returns [False], when Ctrl-C interrupts it, and when any other exception
    escapes it. *)
Theorem exit_code_reflects_stage env fuel args st :
  arg_check_resources args = false ->
  let self := init (arg_namespace args) (arg_kubeconfig args) in
  let result := fst (selected_stage env fuel self (arg_stage args) st) in
  let code := exit_code (fst (main env fuel args st)) in
  (code = Some 0 <-> result = Ok true)
  /\ (result = Ok false -> code = Some 1)
  /\ (result = Raise KeyboardInterrupt -> code = Some 1)
  /\ (forall e, result = Raise e -> code = Some 1).
Proof.
  intros Hflag self result code. unfold code, result, main. rewrite Hflag. fold self.
  destruct (selected_stage env fuel self (arg_stage args) st) as [[[ | ] | e | ] s]; simpl.
  - repeat split; intros; try discriminate; reflexivity.
  - repeat split; intros; try discriminate; reflexivity.
  - destruct e; simpl; repeat split; intros; try discriminate; reflexivity.
  - repeat split; intros; discriminate.
Qed.

Lemma exit_code_reflects_stage_witness :
  exit_code (fst (main (Scenario.always "COMPLETED") 1 (mkArgs None "md-pipeline" smoke false)
                    Scenario.st0)) = Some 0
  /\ exit_code (fst (main (Scenario.always "FAILED") 1 (mkArgs None "md-pipeline" gold false)
                       Scenario.st0)) = Some 1
  /\ exit_code (fst (main Scenario.interrupted_at_third_call 1 (mkArgs None "md-pipeline" silver false)
                       Scenario.st0)) = Some 1
  /\ exit_code (fst (main Scenario.apply_refused 1 (mkArgs None "md-pipeline" smoke false)
                       Scenario.st0)) = Some 1.
Proof.
  split; [ | split; [ | split ] ].
  - apply (proj2 (proj1 (exit_code_reflects_stage (Scenario.always "COMPLETED") 1
             (mkArgs None "md-pipeline" smoke false) Scenario.st0 eq_refl))).
    vm_compute. reflexivity.
  - apply (proj1 (proj2 (exit_code_reflects_stage (Scenario.always "FAILED") 1
             (mkArgs None "md-pipeline" gold false) Scenario.st0 eq_refl))).
    vm_compute. reflexivity.
  - apply (proj1 (proj2 (proj2 (exit_code_reflects_stage Scenario.interrupted_at_third_call 1
             (mkArgs None "md-pipeline" silver false) Scenario.st0 eq_refl)))).
    vm_compute. reflexivity.
  - apply (proj2 (proj2 (proj2 (exit_code_reflects_stage Scenario.apply_refused 1
             (mkArgs None "md-pipeline" smoke false) Scenario.st0 eq_refl)))
             (CalledProcessError 1 ["oc"; "apply"; "-f"; "k8s/spark/49-smoke.yaml"]
                (Some "error: unable to recognize manifest"%string))).
    vm_compute. reflexivity.
Defined.

(** ** The pipeline: the clock *)

Section PipelineClock.

Variable env : Env.
Variable self : MDPipelineOrchestrator.
Variable fuel : nat.

Lemma progress_run_smoke_test : keeps progress (run_smoke_test env self fuel).
Proof.
  apply keeps_run_smoke_test;
    eauto using progress_refl, progress_trans, progress_emit, progress_run, progress_sleep.
Qed.

Lemma progress_run_bronze_ingest : keeps progress (run_bronze_ingest env self fuel).
Proof.
  apply keeps_run_bronze_ingest;
    eauto using progress_refl, progress_trans, progress_emit, progress_run, progress_sleep.
Qed.

Lemma progress_run_silver_build : keeps progress (run_silver_build env self fuel).
Proof.
  apply keeps_run_silver_build;
    eauto using progress_refl, progress_trans, progress_emit, progress_run, progress_sleep.
Qed.

Lemma progress_run_gold_finalize : keeps progress (run_gold_finalize env self fuel).
Proof.
  apply keeps_run_gold_finalize;
    eauto using progress_refl, progress_trans, progress_emit, progress_run, progress_sleep.
Qed.

Lemma progress_validate_pipeline : keeps progress (validate_pipeline env self).
Proof.
  apply keeps_validate_pipeline;
    eauto using progress_refl, progress_trans, progress_emit, progress_run.
Qed.

Lemma progress_apply_manifest manifest_path :
  keeps progress (apply_manifest env self manifest_path).
Proof.
  apply keeps_apply_manifest;
    eauto using progress_refl, progress_trans, progress_emit, progress_run.
Qed.

Lemma subprocess_run_now cmd c st r st' :
  subprocess_run env cmd c st = (r, st') ->
  st_now st' = (st_now st + usec (env_latency env (st_step st)))%Q.
Proof.
  unfold subprocess_run.
  destruct (env_interrupt env (st_step st)).
  - intros H; inversion H; subst. reflexivity.
  - destruct (env_proc env (st_step st) cmd) as [rc out err | why].
    + destruct (rc =? 0); intros H; inversion H; subst; reflexivity.
    + intros H; inversion H; subst. reflexivity.
Qed.

(** A command takes time, however it ends. *)
Lemma run_kubectl_takes_time args c st r st' :
  run_kubectl env self args c st = (r, st') -> (st_now st < st_now st')%Q.
Proof.
  unfold run_kubectl, try_except, bind. simpl.
  pose proof (usec_pos (env_latency env (st_step st))) as Hp.
  destruct (subprocess_run env (kubectl_cmd self ++ args) c st) as [[o | e | ] s1] eqn:E;
    pose proof (subprocess_run_now _ _ _ _ _ E) as Hn.
  - intros H; inversion H; subst. rewrite Hn. lra.
  - destruct e; try (intros H; inversion H; subst; rewrite Hn; lra).
    destruct stderr as [ text | ]; [ destruct (c && Py.truthy text) | ];
      simpl; intros H; inversion H; subst; simpl; rewrite Hn; lra.
  - intros H; inversion H; subst. rewrite Hn. lra.
Qed.

Lemma delete_spark_job_takes_time job st r st' :
  delete_spark_job env self job st = (r, st') -> (st_now st < st_now st')%Q.
Proof.
  unfold delete_spark_job, try_except.
  match goal with
  | |- context [ match ?X with _ => _ end ] => destruct X as [[a | e | ] s] eqn:E
  end.
  - intros H; inversion H; subst.
    apply bind_inv in E.
    destruct E as [(o & s1 & Hq & E) | [(e & _ & He) | (_ & He)]]; try discriminate.
    pose proof (run_kubectl_takes_time _ _ _ _ _ Hq) as H1.
    assert (progress s1 st') as [_ H2].
    { revert E. apply (keeps_bind progress progress_trans); [ apply progress_emit | intros _ ].
      apply progress_sleep. lia. }
    lra.
  - apply bind_inv in E.
    destruct E as [(o & s1 & Hq & E) | [(e' & Hq & He) | (_ & He)]]; try discriminate.
    + pose proof (run_kubectl_takes_time _ _ _ _ _ Hq) as H1.
      assert (progress s1 s) as [_ H2].
      { revert E. apply (keeps_bind progress progress_trans); [ apply progress_emit | intros _ ].
        apply progress_sleep. lia. }
      destruct e; intros H; inversion H; subst; try lra.
      match goal with
      | H : logger_info _ _ = _ |- _ => apply progress_emit in H; destruct H as [_ H3]
      end.
      lra.
    + pose proof (run_kubectl_takes_time _ _ _ _ _ Hq) as H1.
      destruct e; intros H; inversion H; subst; try lra.
      match goal with
      | H : logger_info _ _ = _ |- _ => apply progress_emit in H; destruct H as [_ H3]
      end.
      lra.
  - intros H; inversion H; subst.
    apply bind_inv in E.
    destruct E as [(o & s1 & Hq & E) | [(e & _ & He) | (Hq & _)]]; try discriminate.
    + pose proof (run_kubectl_takes_time _ _ _ _ _ Hq) as H1.
      assert (progress s1 st') as [_ H2].
      { revert E. apply (keeps_bind progress progress_trans); [ apply progress_emit | intros _ ].
        apply progress_sleep. lia. }
      lra.
    + apply (run_kubectl_takes_time _ _ _ _ _ Hq).
Qed.

(** [run_bronze_ingest] deletes the old job first, so it always takes time. *)
Lemma run_bronze_ingest_takes_time st r st' :
  run_bronze_ingest env self fuel st = (r, st') -> (st_now st < st_now st')%Q.
Proof.
  intros H.
  unfold run_bronze_ingest in H. revert H. run_log. intros H.
  apply bind_inv in H.
  destruct H as [(u & s1 & Hd & H) | [(e & Hd & _) | (Hd & _)]];
    pose proof (delete_spark_job_takes_time _ _ _ _ Hd) as H1;
    rewrite logged_now in H1; try exact H1.
  eapply Qlt_le_trans; [ exact H1 | ].
  match type of H with
  | ?K s1 = _ =>
      assert (keeps progress K) as HK; [ | exact (proj2 (HK _ _ _ H)) ]
  end.
  clear.
  apply (keeps_bind progress progress_trans); [ apply progress_apply_manifest | intros _ ].
  apply (keeps_bind progress progress_trans);
    [ apply (keeps_time_time progress progress_refl) | intro ].
  apply (keeps_bind progress progress_trans); [ apply progress_emit | intros _ ].
  apply (keeps_bind progress progress_trans).
  { apply keeps_run_bronze_ingest_loop;
      eauto using progress_refl, progress_trans, progress_emit, progress_run, progress_sleep. }
  intros _.
  apply (keeps_bind progress progress_trans).
  { apply keeps_wait_for_spark_job;
      eauto using progress_refl, progress_trans, progress_emit, progress_run, progress_sleep. }
  intros [ | ].
  - apply (keeps_bind progress progress_trans); [ apply progress_emit | intros _ ].
    apply (keeps_bind progress progress_trans);
      [ | intro; apply (keeps_ret progress progress_refl) ].
    apply (keeps_try_except progress progress_trans); [ | intros; apply progress_emit ].
    apply (keeps_bind progress progress_trans).
    + apply keeps_run_kubectl;
        eauto using progress_refl, progress_trans, progress_emit, progress_run.
    + intros [ text | ].
      * apply keeps_log_performance; eauto using progress_refl, progress_trans, progress_emit.
      * apply (keeps_raise progress progress_refl).
  - apply (keeps_bind progress progress_trans); [ apply progress_emit | intros _ ].
    apply (keeps_ret progress progress_refl).
Qed.

End PipelineClock.

(** ** The pipeline: the manifests applied *)

Section PipelineManifests.

Variable env : Env.
Variable self : MDPipelineOrchestrator.
Variable fuel : nat.

Lemma applies_none {A} (P : A -> Prop) (m : M A) :
  keeps (same_applied self) m -> applies self P [] m.
Proof.
  intros Hk st r st' H. exists 0%nat. split; [ | reflexivity ].
  rewrite (Hk _ _ _ H). simpl. rewrite app_nil_r. reflexivity.
Qed.

Lemma applies_nothing_more {A} (P : A -> Prop) manifests (m : M A) :
  keeps (same_applied self) m ->
  (forall st a st', m st = (Ok a, st') -> ~ P a) ->
  applies self P manifests m.
Proof.
  intros Hk Hn st r st' H. exists 0%nat. split.
  - rewrite (Hk _ _ _ H). simpl. rewrite app_nil_r. reflexivity.
  - intros a -> Ha. exfalso. exact (Hn _ _ _ H Ha).
Qed.

Lemma applies_bind {A B} (P : B -> Prop) ms1 ms2 (m : M A) (k : A -> M B) :
  applies self any ms1 m -> (forall a, applies self P ms2 (k a)) -> applies self P (ms1 ++ ms2) (bind m k).
Proof.
  intros Hm Hk st r st' H.
  destruct (bind_inv _ _ _ _ _ H) as [(a & s1 & H1 & H2) | [(e & H1 & ->) | (H1 & ->)]].
  - destruct (Hm _ _ _ H1) as (k1 & E1 & F1).
    destruct (Hk a _ _ _ H2) as (k2 & E2 & F2).
    specialize (F1 a eq_refl I). subst k1.
    exists (length ms1 + k2)%nat. split.
    + rewrite E2, E1, firstn_all, firstn_app_2, app_assoc. reflexivity.
    + intros b Hb Pb. rewrite (F2 b Hb Pb), length_app. reflexivity.
  - destruct (Hm _ _ _ H1) as (k1 & E1 & F1).
    exists (Nat.min k1 (length ms1)). split; [ | intros; discriminate ].
    rewrite E1. f_equal. rewrite firstn_app.
    replace (Nat.min k1 (length ms1) - length ms1)%nat with 0%nat by lia.
    simpl. rewrite app_nil_r.
    destruct (Nat.le_ge_cases k1 (length ms1)) as [Hle | Hge].
    + rewrite Nat.min_l by exact Hle. reflexivity.
    + rewrite Nat.min_r by exact Hge. rewrite !firstn_all2 by lia. reflexivity.
  - destruct (Hm _ _ _ H1) as (k1 & E1 & F1).
    exists (Nat.min k1 (length ms1)). split; [ | intros; discriminate ].
    rewrite E1. f_equal. rewrite firstn_app.
    replace (Nat.min k1 (length ms1) - length ms1)%nat with 0%nat by lia.
    simpl. rewrite app_nil_r.
    destruct (Nat.le_ge_cases k1 (length ms1)) as [Hle | Hge].
    + rewrite Nat.min_l by exact Hle. reflexivity.
    + rewrite Nat.min_r by exact Hge. rewrite !firstn_all2 by lia. reflexivity.
Qed.

Lemma applies_then {A B} (P : B -> Prop) ms (m : M A) (k : A -> M B) :
  keeps (same_applied self) m -> (forall a, applies self P ms (k a)) -> applies self P ms (bind m k).
Proof.
  intros Hm Hk. change ms with ([] ++ ms).
  apply applies_bind; [ apply applies_none; exact Hm | exact Hk ].
Qed.

Lemma applies_first {A B} (P : B -> Prop) manifest ms (m : M A) (k : A -> M B) :
  applies self any [manifest] m -> (forall a, applies self P ms (k a)) ->
  applies self P (manifest :: ms) (bind m k).
Proof. intros Hm Hk. change (manifest :: ms) with ([manifest] ++ ms). apply applies_bind; auto. Qed.

Lemma applies_apply_manifest manifest_path :
  applies self any [manifest_path] (apply_manifest env self manifest_path).
Proof.
  intros st r st' H. exists 1%nat. split; [ | reflexivity ].
  unfold apply_manifest in H. revert H. run_log. intros H.
  apply bind_inv in H.
  assert (forall r1 s1,
            run_kubectl env self ["apply"; "-f"; manifest_path] true
              (logged INFO [Str "Applying manifest: "; Str manifest_path] st) = (r1, s1) ->
            applied self (st_calls s1) = applied self (st_calls st) ++ [manifest_path]) as Hc.
  { intros r1 s1 Hq. rewrite (run_kubectl_calls _ _ _ _ _ _ _ Hq), applied_snoc, logged_calls.
    reflexivity. }
  destruct H as [(o & s1 & Hq & H) | [(e & Hq & _) | (Hq & _)]].
  - inversion H; subst. exact (Hc _ _ Hq).
  - exact (Hc _ _ Hq).
  - exact (Hc _ _ Hq).
Qed.

Ltac unchanged :=
  first
    [ apply same_applied_emit
    | apply (keeps_ret _ (same_applied_refl self))
    | apply (keeps_time_time _ (same_applied_refl self))
    | apply (keeps_truediv _ (same_applied_refl self))
    | apply keeps_delete_spark_job
    | apply keeps_wait_for_spark_job
    | apply keeps_run_bronze_ingest_loop
    | apply keeps_validate_pipeline
    | apply keeps_check_cluster_resources ];
  eauto using same_applied_refl, same_applied_trans, same_applied_emit,
    same_applied_sleep, same_applied_run.

Lemma same_applied_tail (ok : bool) (yes no : M bool) :
  keeps (same_applied self) yes -> keeps (same_applied self) no ->
  keeps (same_applied self) (if ok then yes else no).
Proof. destruct ok; auto. Qed.

Lemma applies_stage banner job manifest timeout (yes no : M bool) :
  keeps (same_applied self) yes -> keeps (same_applied self) no ->
  applies self any [manifest]
    (logger_info banner ;;
     delete_spark_job env self job ;;
     apply_manifest env self manifest ;;
     ok <- wait_for_spark_job env self fuel job timeout ;;
     if ok then yes else no).
Proof.
  intros Hy Hn.
  apply applies_then; [ unchanged | intros _ ].
  apply applies_then; [ unchanged | intros _ ].
  change [manifest] with ([manifest] ++ []).
  apply applies_bind; [ apply applies_apply_manifest | intros _ ].
  apply applies_none.
  apply (keeps_bind _ (same_applied_trans self)); [ unchanged | intros ok ].
  apply same_applied_tail; assumption.
Qed.

Lemma applies_run_smoke_test :
  applies self any ["k8s/spark/49-smoke.yaml"%string] (run_smoke_test env self fuel).
Proof.
  apply applies_stage;
    (apply (keeps_bind _ (same_applied_trans self)); [ unchanged | intros _; unchanged ]).
Qed.

Lemma applies_run_silver_build :
  applies self any ["k8s/spark/43-silver-build.yaml"%string] (run_silver_build env self fuel).
Proof.
  apply applies_stage;
    (apply (keeps_bind _ (same_applied_trans self)); [ unchanged | intros _; unchanged ]).
Qed.

Lemma applies_run_gold_finalize :
  applies self any ["k8s/spark/44-gold-finalize.yaml"%string] (run_gold_finalize env self fuel).
Proof.
  apply applies_stage;
    (apply (keeps_bind _ (same_applied_trans self)); [ unchanged | intros _; unchanged ]).
Qed.

Lemma applies_run_bronze_ingest :
  applies self any ["k8s/spark/42-bronze-ingest.yaml"%string] (run_bronze_ingest env self fuel).
Proof.
  unfold run_bronze_ingest.
  apply applies_then; [ unchanged | intros _ ].
  apply applies_then; [ unchanged | intros _ ].
  change ["k8s/spark/42-bronze-ingest.yaml"%string]
    with (["k8s/spark/42-bronze-ingest.yaml"%string] ++ []).
  apply applies_bind; [ apply applies_apply_manifest | intros _ ].
  apply applies_none.
  apply (keeps_bind _ (same_applied_trans self)); [ unchanged | intros start_time ].
  apply (keeps_bind _ (same_applied_trans self)); [ unchanged | intros _ ].
  apply (keeps_bind _ (same_applied_trans self)); [ unchanged | intros _ ].
  apply (keeps_bind _ (same_applied_trans self)); [ unchanged | intros [ | ] ].
  - apply (keeps_bind _ (same_applied_trans self)); [ unchanged | intros _ ].
    apply (keeps_bind _ (same_applied_trans self)); [ | intros _; unchanged ].
    apply (keeps_try_except _ (same_applied_trans self)); [ | intros; unchanged ].
    apply (keeps_bind _ (same_applied_trans self)).
    + apply keeps_run_kubectl;
        eauto using same_applied_refl, same_applied_trans, same_applied_emit, same_applied_run.
    + intros [ text | ].
      * apply keeps_log_performance;
          eauto using same_applied_refl, same_applied_trans, same_applied_emit.
      * apply (keeps_raise _ (same_applied_refl self)).
  - apply (keeps_bind _ (same_applied_trans self)); [ unchanged | intros _; unchanged ].
Qed.

End PipelineManifests.

(** ** The pipeline: the states in which each stage is entered *)

Lemma bind_time_time {B} (k : Q -> M B) st : bind time_time k st = k (st_now st) st.
Proof. reflexivity. Qed.

Lemma Qeq_bool_pos a : (0 < a)%Q -> Qeq_bool a 0 = false.
Proof.
  intros Ha. destruct (Qeq_bool a 0) eqn:E; [ | reflexivity ].
  apply Qeq_bool_iff in E. lra.
Qed.

Section Pipeline.

Variable env : Env.
Variable self : MDPipelineOrchestrator.
Variable fuel : nat.

Ltac run_pipeline :=
  repeat first
    [ rewrite bind_emit
    | rewrite bind_time_time
    | match goal with
      | H : ?m ?s = (Ok ?a, ?s') |- context [ bind ?m _ ?s ] =>
          rewrite (bind_Ok m _ s a s' H)
      end
    | progress cbn [negb] ].

Ltac enter :=
  repeat match goal with
    | H : smoke_entry env self _ _ |- _ => destruct H as (? & ? & ->)
    | H : bronze_entry env self fuel _ _ |- _ => destruct H as (? & ? & ? & ? & ->)
    | H : silver_entry env self fuel _ _ |- _ => destruct H as (? & ? & ? & ? & ->)
    | H : gold_entry env self fuel _ _ |- _ => destruct H as (? & ? & ? & ? & ->)
    | H : validate_entry env self fuel _ _ |- _ => destruct H as (? & ? & ? & ? & ->)
    end.

Lemma abort_at_smoke st s s' :
  smoke_entry env self st s ->
  run_smoke_test env self fuel s = (Ok false, s') ->
  run_full_pipeline env self fuel st =
  (Ok false, logged ERROR [Str "Smoke test failed - aborting pipeline"] s').
Proof.
  intros He Hs. enter.
  unfold run_full_pipeline, logger_info, logger_error. run_pipeline. reflexivity.
Qed.

Lemma abort_at_bronze st s s' :
  bronze_entry env self fuel st s ->
  run_bronze_ingest env self fuel s = (Ok false, s') ->
  run_full_pipeline env self fuel st =
  (Ok false, logged ERROR [Str "Bronze ingest failed - aborting pipeline"] s').
Proof.
  intros He Hs. enter.
  unfold run_full_pipeline, logger_info, logger_error. run_pipeline. reflexivity.
Qed.

Lemma abort_at_silver st s s' :
  silver_entry env self fuel st s ->
  run_silver_build env self fuel s = (Ok false, s') ->
  run_full_pipeline env self fuel st =
  (Ok false, logged ERROR [Str "Silver build failed - aborting pipeline"] s').
Proof.
  intros He Hs. enter.
  unfold run_full_pipeline, logger_info, logger_error. run_pipeline. reflexivity.
Qed.

Lemma abort_at_gold st s s' :
  gold_entry env self fuel st s ->
  run_gold_finalize env self fuel s = (Ok false, s') ->
  run_full_pipeline env self fuel st =
  (Ok false, logged ERROR [Str "Gold finalize failed - aborting pipeline"] s').
Proof.
  intros He Hs. enter.
  unfold run_full_pipeline, logger_info, logger_error. run_pipeline. reflexivity.
Qed.

Lemma applied_logged l msg st : applied self (st_calls (logged l msg st)) = applied self (st_calls st).
Proof. rewrite logged_calls. reflexivity. Qed.

Lemma applied_after {P : bool -> Prop} manifest (m : M bool) s b s' :
  applies self P [manifest] m -> P b ->
  m s = (Ok b, s') ->
  applied self (st_calls s') = applied self (st_calls s) ++ [manifest].
Proof.
  intros Hm Pb H. destruct (Hm _ _ _ H) as (k & E & F).
  rewrite E, (F b eq_refl Pb). reflexivity.
Qed.

Lemma applied_at_smoke st s :
  smoke_entry env self st s -> applied self (st_calls s) = applied self (st_calls st).
Proof.
  intros (s0 & H & ->). rewrite applied_logged.
  assert (same_applied self
            (logged INFO
               [Str "Target: 1TB Bronze (no compression) -> Silver Iceberg -> Gold Analytics"]
               (logged INFO [Str "Starting MD-Pipeline (1TB Medallion Benchmark)"] st)) s0)
    as E.
  { revert H. apply keeps_check_cluster_resources;
      eauto using same_applied_refl, same_applied_trans, same_applied_emit, same_applied_run. }
  unfold same_applied in E. rewrite E, !applied_logged. reflexivity.
Qed.

Lemma applied_at_bronze st s :
  bronze_entry env self fuel st s ->
  applied self (st_calls s) = applied self (st_calls st) ++ firstn 1 stage_manifests.
Proof.
  intros (s0 & s1 & He & H & ->). rewrite applied_logged.
  rewrite (applied_after _ _ _ _ _ (applies_run_smoke_test env self fuel) I H).
  rewrite (applied_at_smoke _ _ He). reflexivity.
Qed.

Lemma applied_at_silver st s :
  silver_entry env self fuel st s ->
  applied self (st_calls s) = applied self (st_calls st) ++ firstn 2 stage_manifests.
Proof.
  intros (s0 & s1 & He & H & ->). rewrite applied_logged.
  rewrite (applied_after _ _ _ _ _ (applies_run_bronze_ingest env self fuel) I H).
  rewrite (applied_at_bronze _ _ He), <- app_assoc. reflexivity.
Qed.

Lemma applied_at_gold st s :
  gold_entry env self fuel st s ->
  applied self (st_calls s) = applied self (st_calls st) ++ firstn 3 stage_manifests.
Proof.
  intros (s0 & s1 & He & H & ->). rewrite applied_logged.
  rewrite (applied_after _ _ _ _ _ (applies_run_silver_build env self fuel) I H).
  rewrite (applied_at_silver _ _ He), <- app_assoc. reflexivity.
Qed.

Lemma applied_at_validate st s :
  validate_entry env self fuel st s ->
  applied self (st_calls s) = applied self (st_calls st) ++ stage_manifests.
Proof.
  intros (s0 & s1 & He & H & ->). rewrite applied_logged.
  rewrite (applied_after _ _ _ _ _ (applies_run_gold_finalize env self fuel) I H).
  rewrite (applied_at_gold _ _ He), <- app_assoc. reflexivity.
Qed.

Lemma applies_abort msg manifests :
  applies self (fun b => b = true) manifests (logger_error msg ;; ret false).
Proof.
  apply applies_nothing_more.
  - apply (keeps_bind _ (same_applied_trans self)).
    + apply same_applied_emit.
    + intros _. apply (keeps_ret _ (same_applied_refl self)).
  - intros st a st'. unfold logger_error. rewrite bind_emit.
    intros H. inversion H; subst. discriminate.
Qed.

Ltac unchanged_step :=
  first
    [ apply same_applied_emit
    | apply (keeps_ret _ (same_applied_refl self))
    | apply (keeps_time_time _ (same_applied_refl self))
    | apply (keeps_truediv _ (same_applied_refl self))
    | apply keeps_validate_pipeline;
        eauto using same_applied_refl, same_applied_trans, same_applied_emit, same_applied_run
    | apply keeps_check_cluster_resources;
        eauto using same_applied_refl, same_applied_trans, same_applied_emit, same_applied_run ].

Lemma applies_run_full_pipeline :
  applies self (fun b => b = true) stage_manifests (run_full_pipeline env self fuel).
Proof.
  unfold run_full_pipeline, stage_manifests.
  do 5 (apply applies_then; [ unchanged_step | intro ]).
  apply applies_first; [ apply applies_run_smoke_test | intros [ | ] ];
    [ cbn [negb] | apply applies_abort ].
  do 2 (apply applies_then; [ unchanged_step | intro ]).
  apply applies_first; [ apply applies_run_bronze_ingest | intros [ | ] ];
    [ cbn [negb] | apply applies_abort ].
  do 3 (apply applies_then; [ unchanged_step | intro ]).
  apply applies_first; [ apply applies_run_silver_build | intros [ | ] ];
    [ cbn [negb] | apply applies_abort ].
  do 3 (apply applies_then; [ unchanged_step | intro ]).
  apply applies_first; [ apply applies_run_gold_finalize | intros [ | ] ];
    [ cbn [negb] | apply applies_abort ].
  apply applies_none.
  repeat first
    [ match goal with |- keeps _ (if ?c then _ else _) => destruct c end
    | match goal with
      | |- keeps _ (validate_pipeline _ _) => unchanged_step
      | |- keeps _ (bind _ _) => apply (keeps_bind _ (same_applied_trans self)); [ | intro ]
      end
    | unchanged_step ].
Qed.

End Pipeline.

(** With the four processing stages done, the pipeline runs the validation,
    writes its summary and returns [True]: no division of the summary can
    fail, because [run_bronze_ingest] takes time. *)
Lemma run_full_pipeline_completes env self fuel st s validation_success s' :
  validate_entry env self fuel st s ->
  validate_pipeline env self s = (Ok validation_success, s') ->
  exists st',
    run_full_pipeline env self fuel st = (Ok true, st')
    /\ st_calls st' = st_calls s'.
Proof.
  intros He Hv.
  destruct He as (g0 & g1 & He & Hgold & ->).
  destruct He as (v0 & v1 & He & Hsilver & ->).
  destruct He as (b0 & b1 & He & Hbronze & ->).
  destruct He as (k0 & k1 & He & Hsmoke & ->).
  destruct He as (c0 & Hcheck & ->).
  pose proof (run_bronze_ingest_takes_time _ _ _ _ _ _ Hbronze) as Tb.
  pose proof (proj2 (progress_run_smoke_test _ _ _ _ _ _ Hsmoke)) as Tk.
  pose proof (proj2 (progress_run_silver_build _ _ _ _ _ _ Hsilver)) as Ts.
  pose proof (proj2 (progress_run_gold_finalize _ _ _ _ _ _ Hgold)) as Tg.
  pose proof (proj2 (progress_validate_pipeline _ _ _ _ _ Hv)) as Tv.
  rewrite ?logged_now in *.
  unfold run_full_pipeline, logger_info, logger_error, logger_warning.
  repeat first
    [ rewrite bind_emit
    | rewrite bind_time_time
    | match goal with
      | H : ?m ?x = (Ok ?a, ?x') |- context [ bind ?m _ ?x ] =>
          rewrite (bind_Ok m _ x a x' H)
      end
    | progress cbn [negb] ].
  rewrite ?logged_now.
  match goal with
  | |- context [ bind (if ?c then _ else _) _ _ ] =>
      assert (exists x, (if c then emit WARNING
                           [Str "Pipeline validation had issues, but core processing completed"]
                         else ret tt) s' = (Ok tt, x)
                        /\ st_now x = st_now s' /\ st_calls x = st_calls s')
        as (x & Hx & Hxn & Hxc)
        by (destruct c;
            [ rewrite emit_logged; eexists; split; [ reflexivity | ];
              split; [ apply logged_now | apply logged_calls ]
            | eexists; split; [ reflexivity | split; reflexivity ] ])
  end.
  rewrite (bind_Ok _ _ _ _ _ Hx).
  repeat first [ rewrite bind_emit | rewrite bind_time_time ].
  rewrite ?logged_now.
  unfold truediv at 1. rewrite Qeq_bool_pos by lra.
  unfold bind at 1, ret at 1.
  repeat first [ rewrite bind_emit | rewrite bind_time_time ].
  unfold truediv at 1. rewrite Qeq_bool_pos.
  - unfold bind at 1, ret at 1. rewrite bind_emit.
    eexists. split; [ reflexivity | ].
    rewrite !logged_calls. exact Hxc.
  - rewrite ?logged_now, Hxn. unfold Qdiv. change (/ 60)%Q with (1 # 60)%Q. lra.
Qed.

(** C2.  Whatever happens, the manifests [run_full_pipeline] applies are the
    first few of smoke, bronze, silver, gold, in that order, and all four when
    it returns [True].  When a stage returns [False] — the ones before it
    having returned [True] — the pipeline returns [False] in the state that
    stage left, but for one ERROR record: nothing more is run, and the
    manifests applied are those up to the failing stage.  When all four have
    returned [True] the validation is entered with the four manifests applied
    and is the last thing the pipeline runs. *)
Theorem pipeline_aborts_on_first_failure env self fuel st :
  (forall r st',
     run_full_pipeline env self fuel st = (r, st') ->
     exists k,
       applied self (st_calls st') = applied self (st_calls st) ++ firstn k stage_manifests
       /\ (r = Ok true -> k = 4%nat))
  /\ (forall s s',
        smoke_entry env self st s ->
        run_smoke_test env self fuel s = (Ok false, s') ->
        run_full_pipeline env self fuel st =
          (Ok false, logged ERROR [Str "Smoke test failed - aborting pipeline"] s')
        /\ applied self (st_calls s') = applied self (st_calls st) ++ firstn 1 stage_manifests)
  /\ (forall s s',
        bronze_entry env self fuel st s ->
        run_bronze_ingest env self fuel s = (Ok false, s') ->
        run_full_pipeline env self fuel st =
          (Ok false, logged ERROR [Str "Bronze ingest failed - aborting pipeline"] s')
        /\ applied self (st_calls s') = applied self (st_calls st) ++ firstn 2 stage_manifests)
  /\ (forall s s',
        silver_entry env self fuel st s ->
        run_silver_build env self fuel s = (Ok false, s') ->
        run_full_pipeline env self fuel st =
          (Ok false, logged ERROR [Str "Silver build failed - aborting pipeline"] s')
        /\ applied self (st_calls s') = applied self (st_calls st) ++ firstn 3 stage_manifests)
  /\ (forall s s',
        gold_entry env self fuel st s ->
        run_gold_finalize env self fuel s = (Ok false, s') ->
        run_full_pipeline env self fuel st =
          (Ok false, logged ERROR [Str "Gold finalize failed - aborting pipeline"] s')
        /\ applied self (st_calls s') = applied self (st_calls st) ++ firstn 4 stage_manifests)
  /\ (forall s validation_success s',
        validate_entry env self fuel st s ->
        validate_pipeline env self s = (Ok validation_success, s') ->
        applied self (st_calls s) = applied self (st_calls st) ++ stage_manifests
        /\ exists st',
             run_full_pipeline env self fuel st = (Ok true, st')
             /\ st_calls st' = st_calls s').
Proof.
  split; [ | split; [ | split; [ | split; [ | split ] ] ] ].
  - intros r st' H.
    destruct (applies_run_full_pipeline env self fuel _ _ _ H) as (k & E & F).
    exists k. split; [ exact E | ]. intros ->. exact (F true eq_refl eq_refl).
  - intros s s' He H. split; [ exact (abort_at_smoke env self fuel _ _ _ He H) | ].
    rewrite (applied_after _ _ _ _ _ _ (applies_run_smoke_test env self fuel) I H).
    rewrite (applied_at_smoke _ _ _ _ He). reflexivity.
  - intros s s' He H. split; [ exact (abort_at_bronze env self fuel _ _ _ He H) | ].
    rewrite (applied_after _ _ _ _ _ _ (applies_run_bronze_ingest env self fuel) I H).
    rewrite (applied_at_bronze _ _ _ _ _ He), <- app_assoc. reflexivity.
  - intros s s' He H. split; [ exact (abort_at_silver env self fuel _ _ _ He H) | ].
    rewrite (applied_after _ _ _ _ _ _ (applies_run_silver_build env self fuel) I H).
    rewrite (applied_at_silver _ _ _ _ _ He), <- app_assoc. reflexivity.
  - intros s s' He H. split; [ exact (abort_at_gold env self fuel _ _ _ He H) | ].
    rewrite (applied_after _ _ _ _ _ _ (applies_run_gold_finalize env self fuel) I H).
    rewrite (applied_at_gold _ _ _ _ _ He), <- app_assoc. reflexivity.
  - intros s v s' He Hv. split; [ exact (applied_at_validate env self fuel _ _ He) | ].
    exact (run_full_pipeline_completes env self fuel st s v s' He Hv).
Qed.

Lemma pipeline_aborts_on_first_failure_witness :
  exists st',
    run_full_pipeline Scenario.bronze_fails Scenario.oc 32 Scenario.st0 = (Ok false, st')
    /\ applied Scenario.oc (st_calls st') =
       ["k8s/spark/49-smoke.yaml"; "k8s/spark/42-bronze-ingest.yaml"]%string.
Proof.
  pose (a0 := logged INFO
                [Str "Target: 1TB Bronze (no compression) -> Silver Iceberg -> Gold Analytics"]
                (logged INFO [Str "Starting MD-Pipeline (1TB Medallion Benchmark)"]
                   Scenario.st0)).
  pose (s0 := snd (check_cluster_resources Scenario.bronze_fails Scenario.oc a0)).
  pose (a1 := logged INFO [Str (String Py.LF "--- STEP 1: Smoke Test ---")] s0).
  pose (s1 := snd (run_smoke_test Scenario.bronze_fails Scenario.oc 32 a1)).
  pose (a2 := logged INFO [Str (String Py.LF "--- STEP 2: Bronze Ingest (1TB Target) ---")] s1).
  pose (s2 := snd (run_bronze_ingest Scenario.bronze_fails Scenario.oc 32 a2)).
  destruct (pipeline_aborts_on_first_failure Scenario.bronze_fails Scenario.oc 32 Scenario.st0)
    as (_ & _ & H & _).
  destruct (H a2 s2) as [Hrun Happlied].
  - exists a1, s1. split; [ | split ].
    + exists s0. split; [ vm_compute; reflexivity | reflexivity ].
    + vm_compute. reflexivity.
    + reflexivity.
  - vm_compute. reflexivity.
  - eexists. split; [ exact Hrun | ].
    rewrite applied_logged. exact Happlied.
Defined.

(** C4.  Once the four processing stages have returned [True],
    [run_full_pipeline] returns [True] whether [validate_pipeline] returns
    [True] or [False], running nothing after the validation, and [main] with
    [--stage full] ends with exit code 0. *)
Theorem validation_is_advisory env fuel args st s validation_success s' :
  arg_stage args = full ->
  arg_check_resources args = false ->
  let self := init (arg_namespace args) (arg_kubeconfig args) in
  validate_entry env self fuel st s ->
  validate_pipeline env self s = (Ok validation_success, s') ->
  exists st',
    run_full_pipeline env self fuel st = (Ok true, st')
    /\ st_calls st' = st_calls s'
    /\ main env fuel args st = (Exited 0, st').
Proof.
  intros Hstage Hflag self He Hv.
  destruct (run_full_pipeline_completes env self fuel st s validation_success s' He Hv)
    as (st' & Hrun & Hcalls).
  exists st'. split; [ exact Hrun | ]. split; [ exact Hcalls | ].
  unfold main. rewrite Hflag, Hstage. fold self. simpl selected_stage.
  rewrite Hrun. reflexivity.
Qed.

Lemma validate_entry_at_validation env self fuel st :
  fst (at_validation env self fuel st) = [Ok true; Ok true; Ok true; Ok true; Ok true] ->
  validate_entry env self fuel st (snd (at_validation env self fuel st)).
Proof.
  unfold at_validation. cbn [fst snd].
  destruct (check_cluster_resources env self _) as [[[] | e | ] s0] eqn:E0;
    cbn [fst snd]; try discriminate.
  destruct (run_smoke_test env self fuel _) as [q1 s1] eqn:E1; cbn [fst snd].
  destruct (run_bronze_ingest env self fuel _) as [q2 s2] eqn:E2; cbn [fst snd].
  destruct (run_silver_build env self fuel _) as [q3 s3] eqn:E3; cbn [fst snd].
  destruct (run_gold_finalize env self fuel _) as [q4 s4] eqn:E4; cbn [fst snd].
  intros H.
  cbn [fst snd] in *. inversion H; subst.
  exists (logged INFO [Str (String Py.LF "--- STEP 4: Gold Finalize ---")] s3), s4.
  split; [ | split; [ exact E4 | reflexivity ] ].
  exists (logged INFO [Str (String Py.LF "--- STEP 3: Silver Build ---")] s2), s3.
  split; [ | split; [ exact E3 | reflexivity ] ].
  exists (logged INFO [Str (String Py.LF "--- STEP 2: Bronze Ingest (1TB Target) ---")] s1), s2.
  split; [ | split; [ exact E2 | reflexivity ] ].
  exists (logged INFO [Str (String Py.LF "--- STEP 1: Smoke Test ---")] s0), s1.
  split; [ | split; [ exact E1 | reflexivity ] ].
  exists s0. split; [ exact E0 | reflexivity ].
Qed.

Lemma validation_is_advisory_witness :
  let args := mkArgs None "md-pipeline" full false in
  fst (validate_pipeline Scenario.healthy Scenario.oc
         (snd (at_validation Scenario.healthy Scenario.oc 32 Scenario.st0))) = Ok true
  /\ fst (main Scenario.healthy 32 args Scenario.st0) = Exited 0
  /\ fst (validate_pipeline (Scenario.always "COMPLETED") Scenario.oc
            (snd (at_validation (Scenario.always "COMPLETED") Scenario.oc 32 Scenario.st0)))
     = Ok false
  /\ fst (main (Scenario.always "COMPLETED") 32 args Scenario.st0) = Exited 0.
Proof.
  intros args.
  split; [ vm_compute; reflexivity | ].
  split.
  - destruct (validation_is_advisory Scenario.healthy 32 args Scenario.st0
                (snd (at_validation Scenario.healthy Scenario.oc 32 Scenario.st0)) true
                (snd (validate_pipeline Scenario.healthy Scenario.oc
                        (snd (at_validation Scenario.healthy Scenario.oc 32 Scenario.st0)))))
      as (st' & _ & _ & Hm).
    + reflexivity.
    + reflexivity.
    + apply validate_entry_at_validation. vm_compute. reflexivity.
    + vm_compute. reflexivity.
    + rewrite Hm. reflexivity.
  - split; [ vm_compute; reflexivity | ].
    destruct (validation_is_advisory (Scenario.always "COMPLETED") 32 args Scenario.st0
                (snd (at_validation (Scenario.always "COMPLETED") Scenario.oc 32 Scenario.st0))
                false
                (snd (validate_pipeline (Scenario.always "COMPLETED") Scenario.oc
                        (snd (at_validation (Scenario.always "COMPLETED") Scenario.oc 32
                                Scenario.st0)))))
      as (st' & _ & _ & Hm).
    + reflexivity.
    + reflexivity.
    + apply validate_entry_at_validation. vm_compute. reflexivity.
    + vm_compute. reflexivity.
    + rewrite Hm. reflexivity.
Defined.

(** * Further properties of the orchestrator *)

(** ** The commands a run adds *)

Lemma runs_only_refl self verbs st : runs_only self verbs st st.
Proof. exists []. split; [ rewrite app_nil_r; reflexivity | constructor ]. Qed.

Lemma runs_only_trans self verbs a b c :
  runs_only self verbs a b -> runs_only self verbs b c -> runs_only self verbs a c.
Proof.
  intros (l1 & E1 & F1) (l2 & E2 & F2). exists (l1 ++ l2). split.
  - rewrite E2, E1, app_assoc. reflexivity.
  - apply Forall_app. split; assumption.
Qed.

Lemma runs_only_emit self verbs l msg : keeps (runs_only self verbs) (emit l msg).
Proof.
  intros st r st' H. rewrite emit_logged in H. inversion H; subst.
  exists []. split; [ rewrite logged_calls, app_nil_r; reflexivity | constructor ].
Qed.

Lemma runs_only_sleep self verbs env n : keeps (runs_only self verbs) (time_sleep env n).
Proof.
  intros st r st'. unfold time_sleep.
  destruct (env_interrupt env (st_step st)); intros H; inversion H; subst;
    (exists []; split; [ simpl; rewrite app_nil_r; reflexivity | constructor ]).
Qed.

Lemma runs_only_run self verbs env args c :
  verb_in verbs args = true ->
  keeps (runs_only self verbs) (subprocess_run env (kubectl_cmd self ++ args) c).
Proof.
  intros Hv st r st' H. exists [kubectl_cmd self ++ args]. split.
  - exact (subprocess_run_calls _ _ _ _ _ _ H).
  - constructor; [ exists args; split; [ reflexivity | exact Hv ] | constructor ].
Qed.

Lemma verb_in_cons verbs verb args : In verb verbs -> verb_in verbs (verb :: args) = true.
Proof.
  intros Hin. simpl. apply existsb_exists. exists verb.
  split; [ exact Hin | apply String.eqb_refl ].
Qed.

(** One step of a proof that a computation adds only such commands. *)
Ltac only_step :=
  lazymatch goal with
  | |- keeps (runs_only ?s ?v) (bind _ _) => apply (keeps_bind _ (runs_only_trans s v)); [ | intro ]
  | |- keeps (runs_only ?s ?v) (try_except _ _) =>
      apply (keeps_try_except _ (runs_only_trans s v)); [ | intros ? ? ? ]
  | |- keeps (runs_only ?s ?v) (ret _) => apply (keeps_ret _ (runs_only_refl s v))
  | |- keeps (runs_only ?s ?v) (raise _) => apply (keeps_raise _ (runs_only_refl s v))
  | |- keeps (runs_only ?s ?v) out_of_fuel => apply (keeps_out_of_fuel _ (runs_only_refl s v))
  | |- keeps (runs_only ?s ?v) time_time => apply (keeps_time_time _ (runs_only_refl s v))
  | |- keeps (runs_only ?s ?v) (truediv _ _) => apply (keeps_truediv _ (runs_only_refl s v))
  | |- keeps (runs_only ?s ?v) (emit _ _) => apply runs_only_emit
  | |- keeps (runs_only ?s ?v) (logger_debug _) => apply runs_only_emit
  | |- keeps (runs_only ?s ?v) (logger_info _) => apply runs_only_emit
  | |- keeps (runs_only ?s ?v) (logger_warning _) => apply runs_only_emit
  | |- keeps (runs_only ?s ?v) (logger_error _) => apply runs_only_emit
  | |- keeps (runs_only ?s ?v) (time_sleep _ _) => apply runs_only_sleep
  | |- keeps (runs_only ?s ?v) (if ?c then _ else _) => destruct c
  | |- keeps (runs_only ?s ?v) (match ?x with _ => _ end) => destruct x
  | |- keeps (runs_only ?s ?v) (let _ := _ in _) => cbv zeta
  end.

Section Verbs.

Variable env : Env.
Variable self : MDPipelineOrchestrator.
Variable fuel : nat.
Variable verbs : list string.

Lemma only_run_kubectl args c :
  verb_in verbs args = true -> keeps (runs_only self verbs) (run_kubectl env self args c).
Proof.
  intros Hv. unfold run_kubectl.
  only_step; [ only_step | ].
  only_step; [ | repeat only_step ].
  only_step; [ apply runs_only_run; exact Hv | only_step ].
Qed.

Lemma only_delete_spark_job job :
  In "delete"%string verbs -> keeps (runs_only self verbs) (delete_spark_job env self job).
Proof.
  intros Hd. unfold delete_spark_job.
  only_step; [ | only_step ].
  only_step; [ apply only_run_kubectl, verb_in_cons, Hd | repeat only_step ].
Qed.

Lemma only_apply_manifest manifest_path :
  In "apply"%string verbs -> keeps (runs_only self verbs) (apply_manifest env self manifest_path).
Proof.
  intros Ha. unfold apply_manifest.
  only_step; [ only_step | ].
  only_step; [ apply only_run_kubectl, verb_in_cons, Ha | only_step ].
Qed.

Lemma only_check_cluster_resources :
  In "get"%string verbs -> In "top"%string verbs ->
  keeps (runs_only self verbs) (check_cluster_resources env self).
Proof.
  intros Hg Ht. unfold check_cluster_resources.
  repeat first
    [ apply only_run_kubectl, verb_in_cons; assumption
    | only_step ].
Qed.

Lemma only_validate_pipeline :
  In "get"%string verbs -> In "exec"%string verbs ->
  keeps (runs_only self verbs) (validate_pipeline env self).
Proof.
  intros Hg Hx. unfold validate_pipeline, trino_exec.
  only_step; [ only_step | ].
  only_step; [ | repeat only_step ].
  only_step; [ apply only_run_kubectl, verb_in_cons, Hg | ].
  only_step; [ | repeat only_step ].
  only_step; [ repeat only_step | ].
  repeat first
    [ apply only_run_kubectl, verb_in_cons; assumption
    | only_step ].
Qed.

Hypothesis reads : incl reading verbs.

Let can_get : In "get"%string verbs := reads _ (or_introl eq_refl).
Let can_logs : In "logs"%string verbs := reads _ (or_intror (or_introl eq_refl)).

Ltac read_step :=
  first
    [ apply only_run_kubectl, verb_in_cons; first [ exact can_get | exact can_logs ]
    | only_step ].

Lemma only_get_executor_count job : keeps (runs_only self verbs) (get_executor_count env self job).
Proof. unfold get_executor_count. repeat read_step. Qed.

Lemma only_show_job_logs job tail : keeps (runs_only self verbs) (show_job_logs env self job tail).
Proof. unfold show_job_logs. repeat read_step. Qed.

Lemma only_wait_for_spark_job_body job tm start ts ls lc :
  keeps (runs_only self verbs) (wait_for_spark_job_body env self job tm start ts ls lc).
Proof.
  unfold wait_for_spark_job_body, status_query.
  only_step; [ only_step | ].
  only_step; [ repeat only_step | ].
  only_step; [ | repeat only_step ].
  only_step; [ read_step | ].
  only_step; [ apply only_get_executor_count | ].
  only_step; [ repeat only_step | ].
  only_step; [ repeat only_step | ].
  only_step; [ | repeat only_step ].
  only_step; [ only_step | ].
  only_step; [ apply only_show_job_logs | only_step ].
Qed.

Lemma only_wait_for_spark_job_loop n job tm start ts :
  forall ls lc,
    keeps (runs_only self verbs) (wait_for_spark_job_loop env self n job tm start ts ls lc).
Proof.
  induction n as [ | n IH ]; intros ls lc; simpl.
  - only_step.
  - apply (keeps_bind _ (runs_only_trans self verbs));
      [ apply only_wait_for_spark_job_body | ].
    intros [ b | [ s c ] ]; [ only_step | apply IH ].
Qed.

Lemma only_wait_for_spark_job job tm :
  keeps (runs_only self verbs) (wait_for_spark_job env self fuel job tm).
Proof.
  unfold wait_for_spark_job.
  only_step; [ only_step | ].
  only_step; [ only_step | ].
  apply only_wait_for_spark_job_loop.
Qed.

Lemma only_run_bronze_ingest_loop n start target :
  keeps (runs_only self verbs) (run_bronze_ingest_loop env self n start target).
Proof.
  induction n as [ | n IH ]; simpl.
  - only_step.
  - only_step; [ only_step | ].
    only_step; [ | only_step ].
    apply (keeps_bind _ (runs_only_trans self verbs)).
    + unfold run_bronze_ingest_body.
      only_step; [ apply only_get_executor_count | repeat only_step ].
    + intros [ done | again ]; [ only_step | apply IH ].
Qed.

Lemma only_log_performance lines : keeps (runs_only self verbs) (log_performance lines).
Proof.
  apply keeps_log_performance.
  - apply runs_only_refl.
  - apply runs_only_trans.
  - apply runs_only_emit.
Qed.

End Verbs.

(** ** A processing stage: delete, apply, then look *)

Section StageCommands.

Variable env : Env.
Variable self : MDPipelineOrchestrator.
Variable fuel : nat.

Lemma pause_calls (msg : list piece) n st r st' :
  (logger_info msg ;; time_sleep env n) st = (r, st') -> st_calls st' = st_calls st.
Proof.
  run_log. unfold time_sleep.
  destruct (env_interrupt env _); intros H; injection H as _ <-; cbn [st_calls]; first [ apply logged_calls | reflexivity ].
Qed.

Lemma delete_spark_job_calls job st r st' :
  delete_spark_job env self job st = (r, st') ->
  st_calls st' = st_calls st ++ [delete_cmd self job].
Proof.
  unfold delete_spark_job, try_except, delete_cmd.
  match goal with
  | |- context [ match ?X with _ => _ end ] => destruct X as [[a | e | ] s] eqn:E
  end;
    (assert (st_calls s =
             st_calls st ++
             [kubectl_cmd self ++ ["delete"; "sparkapplication"; job; "-n"; namespace self]])
       as Cs;
     [ apply bind_inv in E;
       destruct E as [(o & s1 & Hq & E) | [(e' & Hq & He) | (Hq & He)]];
       pose proof (run_kubectl_calls _ _ _ _ _ _ _ Hq) as Hc;
       [ rewrite (pause_calls _ _ _ _ _ E); exact Hc | exact Hc | exact Hc ]
     | ]).
  - intros H; inversion H; subst. exact Cs.
  - destruct e; intros H; inversion H; subst; exact Cs.
  - intros H; inversion H; subst. exact Cs.
Qed.

Lemma apply_manifest_calls manifest st r st' :
  apply_manifest env self manifest st = (r, st') ->
  st_calls st' = st_calls st ++ [apply_cmd self manifest].
Proof.
  unfold apply_manifest, apply_cmd. run_log. intros H.
  apply bind_inv in H.
  destruct H as [(o & s1 & Hq & H) | [(e & Hq & _) | (Hq & _)]];
    pose proof (run_kubectl_calls _ _ _ _ _ _ _ Hq) as Hc;
    rewrite logged_calls in Hc.
  - inversion H; subst. exact Hc.
  - exact Hc.
  - exact Hc.
Qed.

Lemma stage_commands_shape banner job manifest (rest : M bool) :
  keeps (runs_only self reading) rest ->
  forall st r st',
    (logger_info banner ;;
     delete_spark_job env self job ;;
     apply_manifest env self manifest ;;
     rest) st = (r, st') ->
    stage_commands self job manifest st st'
    /\ (forall b, r = Ok b ->
        exists reads,
          st_calls st' = st_calls st ++ delete_cmd self job :: apply_cmd self manifest :: reads).
Proof.
  intros Hrest st r st'. run_log. intros H.
  apply bind_inv in H.
  destruct H as [([] & s1 & Hd & H) | [(e & Hd & ->) | (Hd & ->)]];
    pose proof (delete_spark_job_calls _ _ _ _ Hd) as Cd;
    rewrite logged_calls in Cd;
    try (split; [ exists []; split; [ exact Cd | left; reflexivity ] | intros; discriminate ]).
  apply bind_inv in H.
  destruct H as [([] & s2 & Ha & H) | [(e & Ha & ->) | (Ha & ->)]];
    pose proof (apply_manifest_calls _ _ _ _ Ha) as Ca;
    try (split; [ | intros; discriminate ];
         exists [apply_cmd self manifest]; split;
         [ rewrite Ca, Cd, <- app_assoc; reflexivity
         | right; exists []; split; [ reflexivity | constructor ] ]).
  destruct (Hrest _ _ _ H) as (reads & Cr & Fr).
  assert (st_calls st' =
          st_calls st ++ delete_cmd self job :: apply_cmd self manifest :: reads) as Hc.
  { rewrite Cr, Ca, Cd, <- !app_assoc. reflexivity. }
  split.
  - exists (apply_cmd self manifest :: reads). split; [ exact Hc | ].
    right. exists reads. split; [ reflexivity | exact Fr ].
  - intros b _. exists reads. exact Hc.
Qed.

Ltac stage_rest :=
  repeat
    first
      [ apply only_wait_for_spark_job; apply incl_refl
      | apply only_run_bronze_ingest_loop; apply incl_refl
      | apply only_log_performance
      | apply only_run_kubectl; reflexivity
      | only_step ].

Lemma stage_commands_selected stage job manifest st :
  stage_job stage = Some (job, manifest) ->
  stage_commands self job manifest st (snd (selected_stage env fuel self stage st))
  /\ (forall b,
        fst (selected_stage env fuel self stage st) = Ok b ->
        exists reads,
          st_calls (snd (selected_stage env fuel self stage st)) =
          st_calls st ++ delete_cmd self job :: apply_cmd self manifest :: reads).
Proof.
  intros Hs.
  destruct (selected_stage env fuel self stage st) as [r st'] eqn:E. cbn [fst snd].
  destruct stage; inversion Hs; subst; cbn [selected_stage] in E;
    revert E; apply stage_commands_shape; stage_rest.
Qed.

End StageCommands.

(** ** Every command of a run *)

Lemma oc_with_weaken self verbs verbs' cmd :
  incl verbs verbs' -> oc_with self verbs cmd -> oc_with self verbs' cmd.
Proof.
  intros Hi (args & -> & Hv). exists args. split; [ reflexivity | ].
  destruct args as [ | verb rest ]; [ discriminate | ].
  simpl in Hv. apply existsb_exists in Hv. destruct Hv as (x & Hx & E).
  apply String.eqb_eq in E. subst x. apply verb_in_cons, Hi, Hx.
Qed.

Lemma stage_commands_runs_only self job manifest st st' :
  stage_commands self job manifest st st' -> runs_only self all_verbs st st'.
Proof.
  intros (more & Hc & Hm). exists (delete_cmd self job :: more). split; [ exact Hc | ].
  constructor.
  - eexists. split; [ reflexivity | reflexivity ].
  - destruct Hm as [ -> | (reads & -> & Hr) ]; constructor.
    + eexists. split; [ reflexivity | reflexivity ].
    + eapply Forall_impl; [ | exact Hr ].
      intros cmd. apply oc_with_weaken.
      intros x [ <- | [ <- | [] ] ]; simpl; tauto.
Qed.

Section EveryCommand.

Variable env : Env.
Variable self : MDPipelineOrchestrator.
Variable fuel : nat.

Lemma only_stage stage job manifest :
  stage_job stage = Some (job, manifest) ->
  keeps (runs_only self all_verbs) (selected_stage env fuel self stage).
Proof.
  intros Hs st r st' H.
  apply (stage_commands_runs_only self job manifest).
  replace st' with (snd (selected_stage env fuel self stage st)) by (rewrite H; reflexivity).
  apply stage_commands_selected. exact Hs.
Qed.

End EveryCommand.

Ltac only_pipeline :=
  repeat
    lazymatch goal with
    | |- keeps _ (run_smoke_test _ _ _) => apply (only_stage _ _ _ smoke _ _ eq_refl)
    | |- keeps _ (run_bronze_ingest _ _ _) => apply (only_stage _ _ _ bronze _ _ eq_refl)
    | |- keeps _ (run_silver_build _ _ _) => apply (only_stage _ _ _ silver _ _ eq_refl)
    | |- keeps _ (run_gold_finalize _ _ _) => apply (only_stage _ _ _ gold _ _ eq_refl)
    | |- keeps _ (validate_pipeline _ _) => apply only_validate_pipeline; simpl; tauto
    | |- keeps _ (check_cluster_resources _ _) =>
        apply only_check_cluster_resources; simpl; tauto
    | |- _ => only_step
    end.

Lemma only_run_full_pipeline env self fuel :
  keeps (runs_only self all_verbs) (run_full_pipeline env self fuel).
Proof. unfold run_full_pipeline. only_pipeline. Qed.

Lemma only_selected_stage env self fuel stage :
  keeps (runs_only self all_verbs) (selected_stage env fuel self stage).
Proof.
  destruct stage.
  - apply (only_stage _ _ _ smoke _ _ eq_refl).
  - apply (only_stage _ _ _ bronze _ _ eq_refl).
  - apply (only_stage _ _ _ silver _ _ eq_refl).
  - apply (only_stage _ _ _ gold _ _ eq_refl).
  - apply only_validate_pipeline; simpl; tauto.
  - apply only_run_full_pipeline.
Qed.

(** X1.  Whatever the environment does and however the run ends, [main] only
    adds commands, and each of them is [oc] -- followed by [--kubeconfig] and
    the path when a non-empty path was given, by nothing when it was absent or
    empty -- and then one of the verbs delete, apply, get, logs, exec, top. *)
Theorem main_runs_only_oc env fuel args st :
  let self := init (arg_namespace args) (arg_kubeconfig args) in
  runs_only self all_verbs st (snd (main env fuel args st))
  /\ (arg_kubeconfig args = None \/ arg_kubeconfig args = Some ""%string ->
      kubectl_cmd self = ["oc"%string])
  /\ (forall k,
        arg_kubeconfig args = Some k -> k <> ""%string ->
        kubectl_cmd self = ["oc"; "--kubeconfig"; k]%string).
Proof.
  intros self. split; [ | split ].
  - unfold main. fold self. destruct (arg_check_resources args).
    + destruct (check_cluster_resources env self st) as [[u | e | ] s] eqn:E; cbn [snd];
        (eapply only_check_cluster_resources; [ | | exact E ]; simpl; tauto).
    + destruct (selected_stage env fuel self (arg_stage args) st) as [r s] eqn:E.
      pose proof (only_selected_stage env self fuel _ _ _ _ E) as Hs.
      destruct r as [ b | e | ]; cbn [snd]; try exact Hs.
      destruct e; cbn [snd];
        (eapply runs_only_trans; [ exact Hs | ]);
        (exists []; split; [ | constructor ]);
        unfold logger_info, logger_error; rewrite ?bind_emit, ?emit_logged; cbn [snd];
        rewrite ?logged_calls, app_nil_r; reflexivity.
  - unfold self, init. intros [ -> | -> ]; reflexivity.
  - unfold self, init. intros k -> Hk. destruct k; [ contradiction | reflexivity ].
Qed.

(** X2.  Whatever the environment does and however it ends, a processing
    stage (smoke, bronze, silver, gold) first runs the delete of its job;
    then, unless it ended there, the apply of its manifest; and after that
    only [get] and [logs] commands: once submitted, the job is looked at, never
    deleted or applied again, not even when it fails or the wait times out.
    A stage that returns has got as far as the apply. *)
Theorem stage_submits_then_observes env fuel self stage job_name manifest_path st :
  stage_job stage = Some (job_name, manifest_path) ->
  let run := selected_stage env fuel self stage st in
  stage_commands self job_name manifest_path st (snd run)
  /\ (forall b,
        fst run = Ok b ->
        exists reads,
          st_calls (snd run) =
          st_calls st ++ delete_cmd self job_name :: apply_cmd self manifest_path :: reads).
Proof. intros Hs. exact (stage_commands_selected env self fuel stage job_name manifest_path st Hs). Qed.

Lemma stage_submits_then_observes_witness :
  let run := selected_stage (Scenario.always "FAILED") 1 Scenario.oc silver Scenario.st0 in
  stage_commands Scenario.oc "mdp-silver-build" "k8s/spark/43-silver-build.yaml" Scenario.st0
    (snd run)
  /\ length (st_calls (snd run)) = 6%nat.
Proof.
  split; [ | vm_compute; reflexivity ].
  exact (proj1 (stage_submits_then_observes (Scenario.always "FAILED") 1 Scenario.oc silver
                  "mdp-silver-build" "k8s/spark/43-silver-build.yaml" Scenario.st0 eq_refl)).
Defined.

(** ** How a computation can end *)

Lemma ends_ret commands unfinished {A} (a : A) : ends_with commands unfinished (ret a).
Proof. intros st r st' H. inversion H; subst. exact I. Qed.


Lemma ends_emit commands unfinished l msg : ends_with commands unfinished (emit l msg).
Proof. intros st r st' H. rewrite emit_logged in H. inversion H; subst. exact I. Qed.

Lemma ends_time_time commands unfinished : ends_with commands unfinished time_time.
Proof. intros st r st' H. inversion H; subst. exact I. Qed.

Lemma ends_sleep commands unfinished env n : ends_with commands unfinished (time_sleep env n).
Proof.
  intros st r st'. unfold time_sleep.
  destruct (env_interrupt env (st_step st)); intros H; inversion H; subst; exact I.
Qed.

Lemma ends_run (commands : list string -> Prop) unfinished env cmd c :
  commands cmd -> ends_with commands unfinished (subprocess_run env cmd c).
Proof.
  intros Hc st r st'. unfold subprocess_run.
  destruct (env_interrupt env (st_step st)); [ intros H; inversion H; subst; exact I | ].
  destruct (env_proc env (st_step st) cmd) as [rc out err | why];
    [ | intros H; inversion H; subst; exact I ].
  destruct (rc =? 0); intros H; inversion H; subst; [ exact I | exact Hc ].
Qed.

Lemma ends_bind commands unfinished {A B} (m : M A) (k : A -> M B) :
  ends_with commands unfinished m -> (forall a, ends_with commands unfinished (k a)) ->
  ends_with commands unfinished (bind m k).
Proof.
  intros Hm Hk st r st' H.
  destruct (bind_inv _ _ _ _ _ H) as [(a & s1 & H1 & H2) | [(e & H1 & ->) | (H1 & ->)]].
  - exact (Hk a _ _ _ H2).
  - exact (Hm _ _ _ H1).
  - exact (Hm _ _ _ H1).
Qed.

(** A [try] lets no command failure of its body out, whatever the command. *)
Lemma ends_caught others commands unfinished {A} (body : M A) handler :
  ends_with others unfinished body ->
  (forall rc c err, ends_with commands unfinished (handler rc c err)) ->
  ends_with commands unfinished (try_except body handler).
Proof.
  intros Hb Hh st r st'. unfold try_except.
  destruct (body st) as [[a | e | ] s] eqn:E; pose proof (Hb _ _ _ E) as He.
  - intros H; inversion H; subst. exact I.
  - destruct e; try (intros H; inversion H; subst; exact He).
    apply Hh.
  - intros H; inversion H; subst. exact He.
Qed.


Section Ends.

Variable env : Env.
Variable self : MDPipelineOrchestrator.

Lemma ends_run_kubectl (commands : list string -> Prop) unfinished args c :
  commands (kubectl_cmd self ++ args) ->
  ends_with commands unfinished (run_kubectl env self args c).
Proof.
  intros Hc st r st'. unfold run_kubectl, try_except, bind. simpl.
  destruct (subprocess_run env (kubectl_cmd self ++ args) c st) as [[o | e | ] s1] eqn:E;
    pose proof (ends_run commands unfinished env _ c Hc _ _ _ E) as He.
  - intros H; inversion H; subst. exact I.
  - destruct e; try (intros H; inversion H; subst; exact He).
    destruct stderr as [ text | ]; [ destruct (c && Py.truthy text) | ];
      simpl; intros H; inversion H; subst; exact He.
  - intros H; inversion H; subst. exact He.
Qed.

Ltac ends_step :=
  lazymatch goal with
  | |- ends_with _ _ (bind _ _) => apply ends_bind; [ | intro ]
  | |- ends_with _ _ (try_except _ _) => apply (ends_caught any_command); [ | intros ? ? ? ]
  | |- ends_with _ _ (ret _) => apply ends_ret
  | |- ends_with _ _ time_time => apply ends_time_time
  | |- ends_with _ _ (logger_info _) => apply ends_emit
  | |- ends_with _ _ (logger_warning _) => apply ends_emit
  | |- ends_with _ _ (logger_error _) => apply ends_emit
  | |- ends_with _ _ (time_sleep _ _) => apply ends_sleep
  | |- ends_with any_command _ (run_kubectl _ _ _ _) => apply ends_run_kubectl; exact I
  | |- ends_with _ _ (if ?c then _ else _) => destruct c
  | |- ends_with _ _ (match ?x with _ => _ end) => destruct x
  | |- ends_with _ _ (let _ := _ in _) => cbv zeta
  end.



Lemma ends_delete_spark_job commands unfinished job :
  ends_with commands unfinished (delete_spark_job env self job).
Proof. unfold delete_spark_job. repeat ends_step. Qed.











End Ends.







(** ** [delete_spark_job] and [apply_manifest] *)

Section DeleteAndApply.

Variable env : Env.
Variable self : MDPipelineOrchestrator.

Lemma delete_spark_job_deleted job st out err :
  env_interrupt env (st_step st) = false ->
  env_proc env (st_step st) (delete_cmd self job) = Exits 0 out err ->
  delete_spark_job env self job st =
  time_sleep env 10
    (logged INFO [Str "Deleted existing job '"; Str job; Str "'"]
       (ran env (delete_cmd self job) st)).
Proof.
  intros Hi Hp. unfold delete_spark_job, try_except, delete_cmd in *.
  rewrite (bind_Ok _ _ _ _ _ (run_kubectl_ok env self _ true st out err Hi Hp)).
  run_log. unfold time_sleep.
  match goal with |- context [ if ?c then _ else _ ] => destruct c end; reflexivity.
Qed.

Lemma delete_spark_job_returns st job :
  undisturbed env -> exists s1, delete_spark_job env self job st = (Ok tt, s1).
Proof.
  intros calm.
  destruct (proj2 calm (st_step st) (delete_cmd self job)) as (rc & out & err & Hp).
  destruct (Z.eq_dec rc 0) as [ -> | Hrc ].
  - rewrite (delete_spark_job_deleted job st out err (proj1 calm _) Hp).
    rewrite (time_sleep_ok env calm). eauto.
  - unfold delete_spark_job, try_except, bind. unfold delete_cmd in Hp.
    rewrite (run_kubectl_failed env self _ true st rc out err (proj1 calm _) Hp Hrc).
    unfold logger_info. rewrite emit_logged. eauto.
Qed.

Lemma refused_shape banner job manifest (rest : M bool) st :
  undisturbed env ->
  (forall k rc out err,
     env_proc env k (apply_cmd self manifest) = Exits rc out err -> rc <> 0) ->
  exists rc err st',
    (logger_info banner ;;
     delete_spark_job env self job ;;
     apply_manifest env self manifest ;;
     rest) st = (Raise (CalledProcessError rc (apply_cmd self manifest) (Some err)), st')
    /\ st_calls st' = st_calls st ++ [delete_cmd self job; apply_cmd self manifest]
    /\ In (ERROR, [Str "oc command failed: ";
                   Exc (CalledProcessError rc (apply_cmd self manifest) (Some err))])
          (st_log st').
Proof.
  intros calm Hrefused. run_log.
  destruct (delete_spark_job_returns (logged INFO banner st) job calm) as (s1 & Hd).
  pose proof (delete_spark_job_calls env self _ _ _ _ Hd) as Cd. rewrite logged_calls in Cd.
  rewrite (bind_Ok _ _ _ _ _ Hd).
  set (s2 := logged INFO [Str "Applying manifest: "; Str manifest] s1).
  destruct (run_kubectl_cases env self calm ["apply"; "-f"; manifest] true s2)
    as (rc & out & err & Hp & [[Hrc _] | [Hrc Hq]]).
  { exfalso. exact (Hrefused _ _ _ _ Hp Hrc). }
  exists rc, err. eexists.
  assert (apply_manifest env self manifest s1 =
          (Raise (CalledProcessError rc (apply_cmd self manifest) (Some err)),
           with_records (failure_records rc (apply_cmd self manifest) true err)
             (ran env (apply_cmd self manifest) s2))) as Ha.
  { unfold apply_manifest. run_log. fold s2. rewrite (bind_Raise _ _ _ _ _ Hq). reflexivity. }
  rewrite (bind_Raise _ _ _ _ _ Ha).
  split; [ reflexivity | ]. split.
  - unfold with_records, ran, apply_cmd. cbn [st_calls]. unfold s2.
    rewrite logged_calls, Cd, <- app_assoc. reflexivity.
  - unfold with_records, failure_records. cbn [st_log].
    apply in_or_app. right. left. reflexivity.
Qed.

End DeleteAndApply.

(** X5.  In an undisturbed run against a cluster that refuses the manifest
    of a processing stage, the stage function does not return [False]: it
    raises the [CalledProcessError] of the apply, which [run_kubectl] has
    written to the log at ERROR level.  The delete and the apply are the only
    commands it runs -- the job's status is never asked for -- and [main]
    ends with exit code 1. *)
Theorem refused_manifest_aborts_stage env fuel args job_name manifest_path st :
  arg_check_resources args = false ->
  stage_job (arg_stage args) = Some (job_name, manifest_path) ->
  let self := init (arg_namespace args) (arg_kubeconfig args) in
  undisturbed env ->
  (forall k rc out err,
     env_proc env k (apply_cmd self manifest_path) = Exits rc out err -> rc <> 0) ->
  exists rc err st',
    selected_stage env fuel self (arg_stage args) st =
      (Raise (CalledProcessError rc (apply_cmd self manifest_path) (Some err)), st')
    /\ st_calls st' = st_calls st ++ [delete_cmd self job_name; apply_cmd self manifest_path]
    /\ In (ERROR, [Str "oc command failed: ";
                   Exc (CalledProcessError rc (apply_cmd self manifest_path) (Some err))])
          (st_log st')
    /\ fst (main env fuel args st) = Exited 1.
Proof.
  intros Hflag Hs self calm Hrefused.
  assert (exists rc err st',
            selected_stage env fuel self (arg_stage args) st =
              (Raise (CalledProcessError rc (apply_cmd self manifest_path) (Some err)), st')
            /\ st_calls st' =
               st_calls st ++ [delete_cmd self job_name; apply_cmd self manifest_path]
            /\ In (ERROR, [Str "oc command failed: ";
                           Exc (CalledProcessError rc (apply_cmd self manifest_path)
                                  (Some err))])
                  (st_log st')) as (rc & err & st' & Hrun & Hcalls & Hlog).
  { destruct (arg_stage args); inversion Hs; subst; cbn [selected_stage];
      apply refused_shape; assumption. }
  exists rc, err, st'. repeat split; try assumption.
  unfold main. rewrite Hflag. fold self. rewrite Hrun. reflexivity.
Qed.

Lemma refused_manifest_aborts_stage_witness :
  exists rc err st',
    run_gold_finalize Scenario.apply_refused Scenario.oc 1 Scenario.st0 =
      (Raise (CalledProcessError rc (apply_cmd Scenario.oc "k8s/spark/44-gold-finalize.yaml")
                (Some err)), st')
    /\ st_calls st' =
       [delete_cmd Scenario.oc "mdp-gold-finalize";
        apply_cmd Scenario.oc "k8s/spark/44-gold-finalize.yaml"].
Proof.
  destruct (refused_manifest_aborts_stage Scenario.apply_refused 1
              (mkArgs None "md-pipeline" gold false)
              "mdp-gold-finalize" "k8s/spark/44-gold-finalize.yaml" Scenario.st0
              eq_refl eq_refl (cluster_undisturbed _))
    as (rc & err & st' & Hrun & Hcalls & _).
  - intros k rc out err H. vm_compute in H. inversion H; subst. lia.
  - exists rc, err, st'. split; [ exact Hrun | exact Hcalls ].
Defined.

(** X6.  When the delete command succeeds, [delete_spark_job] writes
    "Deleted existing job" and then pauses for ten seconds before it returns;
    Ctrl-C during that pause is not taken for a missing job but interrupts
    the call.  And whatever the environment does, no command failure leaves
    [delete_spark_job]. *)
Theorem delete_spark_job_pauses env self job_name st out err :
  env_interrupt env (st_step st) = false ->
  env_proc env (st_step st) (delete_cmd self job_name) = Exits 0 out err ->
  let deleted := logged INFO [Str "Deleted existing job '"; Str job_name; Str "'"]
                   (ran env (delete_cmd self job_name) st) in
  (env_interrupt env (S (st_step st)) = false ->
   delete_spark_job env self job_name st = (Ok tt, slept 10 deleted)
   /\ st_now (slept 10 deleted) ==
      st_now st + usec (env_latency env (st_step st)) + 10)%Q
  /\ (env_interrupt env (S (st_step st)) = true ->
      fst (delete_spark_job env self job_name st) = Raise KeyboardInterrupt)
  /\ (forall s, returns_unless_disturbed (fst (delete_spark_job env self job_name s))).
Proof.
  intros Hi Hp deleted.
  pose proof (delete_spark_job_deleted env self job_name st out err Hi Hp) as H.
  fold deleted in H.
  assert (st_step deleted = S (st_step st)) as Hstep by (unfold deleted; apply logged_step).
  split; [ | split ].
  - intros Hi2. rewrite H. unfold time_sleep. rewrite Hstep, Hi2.
    split; [ reflexivity | ].
    unfold slept, deleted. cbn [st_now]. rewrite logged_now. unfold ran. cbn [st_now].
    reflexivity.
  - intros Hi2. rewrite H. unfold time_sleep. rewrite Hstep, Hi2. reflexivity.
  - intros s.
    destruct (delete_spark_job env self job_name s) as [r s'] eqn:E. cbn [fst].
    pose proof (ends_delete_spark_job env self no_command False job_name _ _ _ E) as He.
    destruct r as [ [] | e | ]; [ exact I | | contradiction ].
    destruct e; simpl in *; try exact I; contradiction.
Qed.

Lemma delete_spark_job_pauses_witness :
  delete_spark_job Scenario.healthy Scenario.oc "mdp-smoke" Scenario.st0 =
  (Ok tt,
   slept 10
     (logged INFO [Str "Deleted existing job '"; Str "mdp-smoke"; Str "'"]
        (ran Scenario.healthy (delete_cmd Scenario.oc "mdp-smoke") Scenario.st0)))
  /\ (st_now (snd (delete_spark_job Scenario.healthy Scenario.oc "mdp-smoke" Scenario.st0))
      == 10 + (1 # 4))%Q.
Proof.
  destruct (delete_spark_job_pauses Scenario.healthy Scenario.oc "mdp-smoke" Scenario.st0
              ""%string ""%string eq_refl eq_refl) as (H & _ & _).
  destruct (H eq_refl) as [Hrun Hnow].
  split; [ exact Hrun | ].
  rewrite Hrun. cbn [snd]. rewrite Hnow. vm_compute. reflexivity.
Defined.

(** ** [validate_pipeline] *)


Section Validate.

Variable env : Env.
Variable self : MDPipelineOrchestrator.
Hypothesis calm : undisturbed env.

(** One of the three table checks: it returns whatever its query exits with. *)
Lemma advisory_check msg args warn st :
  exists st',
    try_except
      (emit INFO msg ;; run_kubectl env self args false ;; ret tt)
      (fun _ _ _ => emit WARNING warn) st = (Ok tt, st')
    /\ st_calls st' = st_calls st ++ [kubectl_cmd self ++ args].
Proof.
  unfold try_except. rewrite bind_emit.
  destruct (run_kubectl_cases env self calm args false (logged INFO msg st))
    as (rc & out & err & _ & [[_ H] | [_ H]]).
  - rewrite (bind_Ok _ _ _ _ _ H). eexists. split; [ reflexivity | ].
    unfold ran. cbn [st_calls]. rewrite logged_calls. reflexivity.
  - rewrite (bind_Raise _ _ _ _ _ H). rewrite emit_logged.
    eexists. split; [ reflexivity | ].
    rewrite logged_calls. unfold with_records, ran. cbn [st_calls].
    rewrite logged_calls. reflexivity.
Qed.

Lemma validate_without_pod st rc out err :
  env_proc env (st_step st) (trino_pod_cmd self) = Exits rc out err ->
  rc <> 0 \/ Py.strip out = ""%string ->
  exists st',
    validate_pipeline env self st = (Ok false, st')
    /\ st_calls st' = st_calls st ++ [trino_pod_cmd self].
Proof.
  intros Hp Hno. unfold validate_pipeline, trino_pod_cmd in *. run_log.
  set (s1 := logged INFO _ st).
  assert (st_step s1 = st_step st) as Es by apply logged_step.
  assert (st_calls s1 = st_calls st) as Ec by apply logged_calls.
  rewrite <- Es in Hp.
  unfold try_except at 1.
  destruct (Z.eq_dec rc 0) as [ -> | Hrc ].
  - destruct Hno as [ Hno | Hempty ]; [ contradiction | ].
    rewrite (bind_Ok _ _ _ _ _ (run_kubectl_ok env self _ true s1 out err (proj1 calm _) Hp)).
    rewrite Hempty. cbn [Py.truthy negb]. run_log.
    eexists. split; [ reflexivity | ].
    rewrite logged_calls. unfold ran. cbn [st_calls]. rewrite Ec. reflexivity.
  - rewrite (bind_Raise _ _ _ _ _
               (run_kubectl_failed env self _ true s1 rc out err (proj1 calm _) Hp Hrc)).
    run_log. eexists. split; [ reflexivity | ].
    rewrite logged_calls. unfold with_records, ran. cbn [st_calls]. rewrite Ec. reflexivity.
Qed.

Lemma validate_with_pod st out err rc2 out2 err2 :
  env_proc env (st_step st) (trino_pod_cmd self) = Exits 0 out err ->
  Py.strip out <> ""%string ->
  env_proc env (S (st_step st)) (connectivity_cmd self (Py.strip out)) = Exits rc2 out2 err2 ->
  exists st',
    validate_pipeline env self st = (Ok (rc2 =? 0), st')
    /\ st_calls st' =
       st_calls st ++
       [trino_pod_cmd self; connectivity_cmd self (Py.strip out)] ++
       (if rc2 =? 0
        then [bronze_check_cmd self (Py.strip out); silver_check_cmd self (Py.strip out);
              gold_check_cmd self (Py.strip out)]
        else []).
Proof.
  intros Hp Hpod Hconn.
  unfold validate_pipeline, trino_pod_cmd, connectivity_cmd, bronze_check_cmd,
    silver_check_cmd, gold_check_cmd in *.
  run_log.
  set (s1 := logged INFO _ st).
  assert (st_step s1 = st_step st) as Es by apply logged_step.
  assert (st_calls s1 = st_calls st) as Ec by apply logged_calls.
  rewrite <- Es in Hp.
  unfold try_except at 1.
  rewrite (bind_Ok _ _ _ _ _ (run_kubectl_ok env self _ true s1 out err (proj1 calm _) Hp)).
  destruct (Py.strip out) as [ | c pod ] eqn:Epod; [ contradiction | ].
  cbn [Py.truthy negb]. run_log.
  match goal with
  | |- context [ bind (run_kubectl env self ?args false) _ ?s ] =>
      set (s2 := s);
      assert (st_step s2 = S (st_step st)) as Es2
        by (unfold s2; rewrite !logged_step; unfold ran; cbn [st_step]; rewrite Es; reflexivity);
      assert (st_calls s2 = st_calls st ++ [kubectl_cmd self ++
                ["get"; "pods"; "-l";
                 "app.kubernetes.io/component=coordinator,app.kubernetes.io/instance=mdp-trino"%string;
                 "-n"; namespace self; "-o"; "jsonpath={.items[0].metadata.name}"%string]])
        as Ec2
        by (unfold s2; rewrite !logged_calls; unfold ran; cbn [st_calls]; rewrite Ec; reflexivity)
  end.
  rewrite <- Es2 in Hconn.
  destruct (Z.eqb_spec rc2 0) as [ -> | Hrc ].
  - rewrite (bind_Ok _ _ _ _ _ (run_kubectl_ok env self _ false s2 out2 err2 (proj1 calm _) Hconn)).
    set (s3 := ran env _ s2).
    assert (st_calls s3 = st_calls s2 ++ [kubectl_cmd self ++
              trino_exec self (String c pod)
                ["--catalog"; "iceberg"; "--schema"; "information_schema";
                 "--execute"; "SELECT 1 as test"]%string]) as Ec3 by reflexivity.
    clearbody s3.
    match goal with
    | |- context [ bind (try_except (emit INFO ?msg ;; run_kubectl _ _ ?args false ;; ret tt)
                           (fun _ _ _ => emit WARNING ?warn)) _ s3 ] =>
        destruct (advisory_check msg args warn s3) as (s4 & H4 & Ec4);
        rewrite (bind_Ok _ _ _ _ _ H4)
    end.
    match goal with
    | |- context [ bind (try_except (emit INFO ?msg ;; run_kubectl _ _ ?args false ;; ret tt)
                           (fun _ _ _ => emit WARNING ?warn)) _ s4 ] =>
        destruct (advisory_check msg args warn s4) as (s5 & H5 & Ec5);
        rewrite (bind_Ok _ _ _ _ _ H5)
    end.
    match goal with
    | |- context [ bind (try_except (emit INFO ?msg ;; run_kubectl _ _ ?args false ;; ret tt)
                           (fun _ _ _ => emit WARNING ?warn)) _ s5 ] =>
        destruct (advisory_check msg args warn s5) as (s6 & H6 & Ec6);
        rewrite (bind_Ok _ _ _ _ _ H6)
    end.
    run_log. eexists. split; [ reflexivity | ].
    rewrite logged_calls, Ec6, Ec5, Ec4, Ec3, Ec2, <- !app_assoc. reflexivity.
  - rewrite (bind_Raise _ _ _ _ _
               (run_kubectl_failed env self _ false s2 rc2 out2 err2 (proj1 calm _) Hconn Hrc)).
    run_log. eexists. split; [ reflexivity | ].
    rewrite logged_calls. unfold with_records, ran. cbn [st_calls].
    rewrite Ec2, <- !app_assoc. reflexivity.
Qed.

End Validate.

(** X7.  In an undisturbed run the verdict of [validate_pipeline] rests on
    its first two commands alone.  If the pod lookup exits non-zero or names
    no pod, it returns [False] after that one command.  Otherwise it returns
    [True] exactly when the connectivity query exits with 0: on a non-zero
    exit it stops there, on 0 it goes on to run the Bronze, Silver and Gold
    checks, whose exit statuses change neither the verdict nor what is run. *)
Theorem validate_pipeline_verdict env self st rc out err :
  undisturbed env ->
  env_proc env (st_step st) (trino_pod_cmd self) = Exits rc out err ->
  let pod := Py.strip out in
  (rc <> 0 \/ pod = ""%string ->
   exists st',
     validate_pipeline env self st = (Ok false, st')
     /\ st_calls st' = st_calls st ++ [trino_pod_cmd self])
  /\ (rc = 0 -> pod <> ""%string ->
      forall rc2 out2 err2,
        env_proc env (S (st_step st)) (connectivity_cmd self pod) = Exits rc2 out2 err2 ->
        exists st',
          validate_pipeline env self st = (Ok (rc2 =? 0), st')
          /\ st_calls st' =
             st_calls st ++
             [trino_pod_cmd self; connectivity_cmd self pod] ++
             (if rc2 =? 0
              then [bronze_check_cmd self pod; silver_check_cmd self pod; gold_check_cmd self pod]
              else [])).
Proof.
  intros calm Hp pod. split.
  - intros Hno. exact (validate_without_pod env self calm st rc out err Hp Hno).
  - intros -> Hpod rc2 out2 err2 Hconn.
    exact (validate_with_pod env self calm st out err rc2 out2 err2 Hp Hpod Hconn).
Qed.

Lemma validate_pipeline_verdict_witness :
  exists st',
    validate_pipeline Scenario.healthy Scenario.oc Scenario.st0 = (Ok true, st')
    /\ st_calls st' =
       [trino_pod_cmd Scenario.oc;
        connectivity_cmd Scenario.oc "mdp-trino-coordinator-0";
        bronze_check_cmd Scenario.oc "mdp-trino-coordinator-0";
        silver_check_cmd Scenario.oc "mdp-trino-coordinator-0";
        gold_check_cmd Scenario.oc "mdp-trino-coordinator-0"].
Proof.
  destruct (validate_pipeline_verdict Scenario.healthy Scenario.oc Scenario.st0
              0 "mdp-trino-coordinator-0" "" (cluster_undisturbed _) eq_refl) as [_ H].
  destruct (H eq_refl) with (rc2 := 0) (out2 := ""%string) (err2 := ""%string)
    as (st' & Hrun & Hcalls).
  - discriminate.
  - reflexivity.
  - exists st'. split; [ exact Hrun | exact Hcalls ].
Defined.


(** ** The executor wait of [run_bronze_ingest] *)


Section ExecutorWait.

Variable env : Env.
Variable self : MDPipelineOrchestrator.

Lemma subprocess_run_step cmd c st r st' :
  subprocess_run env cmd c st = (r, st') -> st_step st' = S (st_step st).
Proof.
  unfold subprocess_run.
  destruct (env_interrupt env (st_step st)).
  - intros H; inversion H; subst. reflexivity.
  - destruct (env_proc env (st_step st) cmd) as [rc out err | why].
    + destruct (rc =? 0); intros H; inversion H; subst; reflexivity.
    + intros H; inversion H; subst. reflexivity.
Qed.

(** Whatever the environment does, [run_kubectl] is one blocking call and
    takes the time of its command. *)
Lemma run_kubectl_clock args c st r st' :
  run_kubectl env self args c st = (r, st') ->
  st_step st' = S (st_step st)
  /\ st_now st' = (st_now st + usec (env_latency env (st_step st)))%Q.
Proof.
  unfold run_kubectl, try_except, bind. simpl.
  destruct (subprocess_run env (kubectl_cmd self ++ args) c st) as [[o | e | ] s1] eqn:E;
    pose proof (subprocess_run_step _ _ _ _ _ E) as Hs;
    pose proof (subprocess_run_now env _ _ _ _ _ E) as Hn.
  - intros H; inversion H; subst. split; assumption.
  - destruct e; try (intros H; inversion H; subst; split; assumption).
    destruct stderr as [ text | ]; [ destruct (c && Py.truthy text) | ];
      simpl; intros H; inversion H; subst; simpl; split; assumption.
  - intros H; inversion H; subst. split; assumption.
Qed.

Lemma get_executor_count_clock job st r st' :
  get_executor_count env self job st = (r, st') ->
  st_step st' = S (st_step st)
  /\ st_now st' = (st_now st + usec (env_latency env (st_step st)))%Q.
Proof.
  unfold get_executor_count, try_except.
  match goal with
  | |- context [ match ?X with _ => _ end ] => destruct X as [[a | e | ] s] eqn:E
  end;
    (assert (st_step s = S (st_step st)
             /\ st_now s = (st_now st + usec (env_latency env (st_step st)))%Q) as Hs;
     [ apply bind_inv in E;
       destruct E as [(o & s1 & Hq & E) | [(e' & Hq & He) | (Hq & He)]];
       pose proof (run_kubectl_clock _ _ _ _ _ Hq) as Hc;
       [ destruct o as [ text | ]; [ destruct (Py.truthy text) | ];
         inversion E; subst; exact Hc
       | exact Hc | exact Hc ]
     | ]).
  - intros H; inversion H; subst. exact Hs.
  - destruct e; intros H; inversion H; subst; exact Hs.
  - intros H; inversion H; subst. exact Hs.
Qed.



Hypothesis calm : undisturbed env.


End ExecutorWait.





(** ** The performance lines of the driver log *)

Lemma with_records_nil st : with_records [] st = st.
Proof. destruct st. unfold with_records. simpl. rewrite app_nil_r. reflexivity. Qed.

Lemma with_records_logged l msg records st :
  with_records records (logged l msg st) =
  with_records ((if levelno logger_level <=? levelno l then [(l, msg)] else []) ++ records) st.
Proof.
  unfold with_records, logged, emit.
  destruct (levelno logger_level <=? levelno l); simpl.
  - rewrite <- app_assoc. reflexivity.
  - reflexivity.
Qed.

(** X11.  The loop over the driver log in [run_bronze_ingest] writes one
    INFO record for each line that contains "Throughput:", "Est. Size:" or
    "Rows:" -- the line stripped of surrounding white space, in the order of
    the log -- and nothing for any other line; it runs no command, takes no
    time and cannot fail. *)
Theorem log_performance_reports lines st :
  log_performance lines st = (Ok tt, with_records (performance_records lines) st)
  /\ map fst (performance_records lines) = repeat INFO (length (filter is_performance_line lines))
  /\ (forall line,
        In (INFO, [Str "Performance: "; Str (Py.strip line)]) (performance_records lines)
        <-> exists l, In l lines /\ is_performance_line l = true /\ Py.strip l = Py.strip line).
Proof.
  split; [ | split ].
  - revert st. induction lines as [ | line rest IH ]; intros st.
    + cbn [log_performance]. unfold performance_records. simpl.
      rewrite with_records_nil. reflexivity.
    + cbn [log_performance]. unfold performance_records. cbn [filter].
      fold (is_performance_line line).
      destruct (is_performance_line line); cbn [map].
      * run_log. rewrite IH, with_records_logged. reflexivity.
      * unfold bind at 1, ret at 1. apply IH.
  - unfold performance_records. rewrite map_map. cbn [fst].
    induction (filter is_performance_line lines) as [ | x l IH ]; simpl; congruence.
  - intros line. unfold performance_records. rewrite in_map_iff. split.
    + intros (l & E & Hin). apply filter_In in Hin. destruct Hin as [Hin Hp].
      exists l. inversion E; subst. auto.
    + intros (l & Hin & Hp & E). exists l. split; [ rewrite E; reflexivity | ].
      apply filter_In. auto.
Qed.

(** ** [wait_for_spark_job]: what a poll writes and when it can succeed *)

Lemma Py_eq_true a b : Py.eq a b = true <-> a = b.
Proof.
  destruct a as [ x | ], b as [ y | ]; simpl; split; intros H;
    try discriminate; try reflexivity.
  - apply String.eqb_eq in H. congruence.
  - inversion H; subst. apply String.eqb_refl.
Qed.

Section Polls.

Variable env : Env.
Variable self : MDPipelineOrchestrator.

Lemma get_executor_count_listed job st out err :
  env_interrupt env (st_step st) = false ->
  env_proc env (st_step st) (kubectl_cmd self ++ pods_query self job) = Exits 0 out err ->
  get_executor_count env self job st =
  (Ok (visible_lines (Py.strip out)), ran env (kubectl_cmd self ++ pods_query self job) st).
Proof.
  intros Hi Hp. unfold get_executor_count, try_except, bind.
  fold (pods_query self job).
  rewrite (run_kubectl_ok env self _ true st out err Hi Hp).
  destruct (Py.strip out); reflexivity.
Qed.

Lemma body_goes_round job tm start ts ls lc st out err out2 err2 :
  timed_out start ts st = false ->
  env_interrupt env (st_step st) = false ->
  env_interrupt env (S (st_step st)) = false ->
  env_interrupt env (S (S (st_step st))) = false ->
  env_proc env (st_step st) (status_cmd self job) = Exits 0 out err ->
  env_proc env (S (st_step st)) (kubectl_cmd self ++ pods_query self job) = Exits 0 out2 err2 ->
  let status := Some (Py.strip out) in
  let count := visible_lines (Py.strip out2) in
  is_terminal status = false ->
  exists st',
    wait_for_spark_job_body env self job tm start ts ls lc st =
      (Ok (Continue (status, count)), st')
    /\ st_log st' =
       st_log st ++
       (if Py.eq status ls && (count =? lc) then []
        else [progress_record job (st_now st - start) status count]).
Proof.
  intros Ht Hi1 Hi2 Hi3 Hp Hp2 status count Hterm.
  unfold wait_for_spark_job_body, timed_out, status_cmd in *.
  unfold bind at 1, time_time. rewrite Ht.
  unfold try_except at 1. unfold bind at 1.
  rewrite (run_kubectl_ok env self _ true st out err Hi1 Hp). fold status.
  set (s1 := ran env _ st).
  assert (st_step s1 = S (st_step st)) as Es1 by reflexivity.
  assert (st_log s1 = st_log st) as El1 by reflexivity.
  rewrite <- Es1 in Hi2, Hp2.
  rewrite (bind_Ok _ _ _ _ _ (get_executor_count_listed job s1 out2 err2 Hi2 Hp2)).
  fold count.
  set (s2 := ran env _ s1).
  assert (st_step s2 = S (S (st_step st))) as Es2 by reflexivity.
  assert (st_log s2 = st_log st) as El2 by reflexivity.
  clearbody s2. clear Hi2 Hp2 Es1 El1. clearbody s1.
  unfold is_terminal, is_success, is_failure in Hterm.
  apply orb_false_iff in Hterm. destruct Hterm as [Hs Hf].
  match goal with
  | |- context [ bind ?m _ s2 ] =>
      assert (exists s3,
                m s2 = (Ok (status, count), s3)
                /\ st_step s3 = st_step s2
                /\ st_log s3 =
                   st_log s2 ++
                   (if Py.eq status ls && (count =? lc) then []
                    else [progress_record job (st_now st - start) status count]))
        as (s3 & Hl & Es3 & El3)
  end.
  { destruct (Py.eq status ls) eqn:Eeq; [ destruct (Z.eqb_spec count lc) as [ Ec | Hne ] | ];
      cbn [negb orb andb].
    - apply Py_eq_true in Eeq. rewrite <- Eeq, <- Ec.
      eexists. split; [ reflexivity | ]. split; [ reflexivity | ].
      rewrite app_nil_r. reflexivity.
    - run_log. eexists. split; [ reflexivity | ]. split; [ apply logged_step | reflexivity ].
    - run_log. eexists. split; [ reflexivity | ]. split; [ apply logged_step | reflexivity ]. }
  rewrite (bind_Ok _ _ _ _ _ Hl). rewrite Hs, Hf.
  assert (time_sleep env 30 s3 = (Ok tt, slept 30 s3)) as Hsleep.
  { unfold time_sleep. destruct (env_interrupt env (st_step s3)) eqn:Ei; [ | reflexivity ].
    rewrite Es3, Es2 in Ei. congruence. }
  rewrite (bind_Ok _ _ _ _ _ Hsleep).
  eexists. split; [ reflexivity | ].
  unfold slept. cbn [st_log]. rewrite El3, El2. reflexivity.
Qed.

End Polls.

(** X12.  A poll of [wait_for_spark_job] whose two queries succeed and whose
    status is not terminal goes round again with that status and executor
    count, after a thirty-second sleep.  It writes the progress record, with
    the minutes elapsed, only when the status or the count differs from the
    one the previous poll left; a poll that finds both unchanged writes
    nothing at all. *)
Theorem progress_is_logged_on_change env self job_name tm start ts ls lc st out err out2 err2 :
  timed_out start ts st = false ->
  env_interrupt env (st_step st) = false ->
  env_interrupt env (S (st_step st)) = false ->
  env_interrupt env (S (S (st_step st))) = false ->
  env_proc env (st_step st) (status_cmd self job_name) = Exits 0 out err ->
  env_proc env (S (st_step st)) (kubectl_cmd self ++ pods_query self job_name)
    = Exits 0 out2 err2 ->
  let status := Some (Py.strip out) in
  let count := visible_lines (Py.strip out2) in
  is_terminal status = false ->
  exists st',
    wait_for_spark_job_body env self job_name tm start ts ls lc st =
      (Ok (Continue (status, count)), st')
    /\ (status = ls -> count = lc -> st_log st' = st_log st)
    /\ (status <> ls \/ count <> lc ->
        st_log st' = st_log st ++ [progress_record job_name (st_now st - start) status count]).
Proof.
  intros Ht Hi1 Hi2 Hi3 Hp Hp2 status count Hterm.
  destruct (body_goes_round env self job_name tm start ts ls lc st out err out2 err2
              Ht Hi1 Hi2 Hi3 Hp Hp2 Hterm) as (st' & Hrun & Hlog).
  exists st'. split; [ exact Hrun | ].
  fold status count in Hlog. split.
  - intros <- <-. rewrite Hlog.
    rewrite (proj2 (Py_eq_true status status) eq_refl), Z.eqb_refl. apply app_nil_r.
  - intros Hchange. rewrite Hlog.
    destruct (Py.eq status ls) eqn:Eeq; [ | reflexivity ].
    apply Py_eq_true in Eeq.
    destruct (Z.eqb_spec count lc) as [ Ec | Hne ]; [ | reflexivity ].
    exfalso. destruct Hchange as [ H | H ]; [ exact (H Eeq) | exact (H Ec) ].
Qed.

Lemma progress_is_logged_on_change_witness :
  (exists st',
     wait_for_spark_job_body (Scenario.always "RUNNING") Scenario.oc "mdp-smoke" 10 0 600
       (Some "RUNNING"%string) 0 Scenario.st0 = (Ok (Continue (Some "RUNNING"%string, 0)), st')
     /\ st_log st' = [])
  /\ (exists st',
        wait_for_spark_job_body (Scenario.always "RUNNING") Scenario.oc "mdp-smoke" 10 0 600
          (Some ""%string) 0 Scenario.st0 = (Ok (Continue (Some "RUNNING"%string, 0)), st')
        /\ st_log st' = [progress_record "mdp-smoke" 0 (Some "RUNNING"%string) 0]).
Proof.
  split.
  - destruct (progress_is_logged_on_change (Scenario.always "RUNNING") Scenario.oc "mdp-smoke"
                10 0 600 (Some "RUNNING"%string) 0 Scenario.st0 "RUNNING" "" "" ""
                eq_refl eq_refl eq_refl eq_refl eq_refl eq_refl eq_refl)
      as (st' & Hrun & Hsame & _).
    exists st'. split; [ exact Hrun | ]. exact (Hsame eq_refl eq_refl).
  - destruct (progress_is_logged_on_change (Scenario.always "RUNNING") Scenario.oc "mdp-smoke"
                10 0 600 (Some ""%string) 0 Scenario.st0 "RUNNING" "" "" ""
                eq_refl eq_refl eq_refl eq_refl eq_refl eq_refl eq_refl)
      as (st' & Hrun & _ & Hchange).
    exists st'. split; [ exact Hrun | ].
    rewrite Hchange; [ reflexivity | left; discriminate ].
Defined.

Section SuccessInTime.

Variable env : Env.
Variable self : MDPipelineOrchestrator.

(** A poll that returns [True] began within the timeout and ran its two
    queries, nothing else. *)
Lemma body_true_clock job tm start ts ls lc st st' :
  wait_for_spark_job_body env self job tm start ts ls lc st = (Ok (Return true), st') ->
  timed_out start ts st = false
  /\ st_step st' = S (S (st_step st))
  /\ st_now st' =
     (st_now st + usec (env_latency env (st_step st))
      + usec (env_latency env (S (st_step st))))%Q.
Proof.
  intros H. unfold wait_for_spark_job_body in H.
  unfold bind at 1, time_time in H. unfold timed_out.
  destruct (Qgt_bool (st_now st - start) (inject_Z ts)).
  { revert H. run_log. discriminate. }
  split; [ reflexivity | ].
  unfold try_except at 1 in H.
  match type of H with
  | context [ match ?X with _ => _ end ] => destruct X as [[c | e | ] s] eqn:E
  end.
  - inversion H; subst. clear H.
    apply bind_inv in E.
    destruct E as [(status & s1 & Hq & E) | [(e & _ & He) | (_ & He)]]; try discriminate.
    destruct (run_kubectl_clock env self _ _ _ _ _ Hq) as [Hs1 Hn1].
    apply bind_inv in E.
    destruct E as [(n & s2 & Hn & E) | [(e & _ & He) | (_ & He)]]; try discriminate.
    destruct (get_executor_count_clock env self _ _ _ _ Hn) as [Hs2 Hn2].
    apply bind_inv in E.
    destruct E as [(last & s3 & Hl & E) | [(e & _ & He) | (_ & He)]]; try discriminate.
    assert (st_step s3 = st_step s2 /\ st_now s3 = st_now s2) as [Hs3 Hn3].
    { destruct (negb (Py.eq status ls) || negb (n =? lc)).
      - revert Hl. run_log. intros Hl. inversion Hl; subst.
        split; [ apply logged_step | apply logged_now ].
      - inversion Hl; subst. split; reflexivity. }
    destruct (Py.eq status (Some "COMPLETED")).
    + revert E. run_log. intros E. inversion E; subst.
      rewrite logged_step, logged_now, Hs3, Hn3, Hs2, Hn2, Hs1, Hn1. split; reflexivity.
    + exfalso.
      destruct (existsb (Py.eq status) [Some "FAILED"; Some "CANCELLED"; Some "ERROR"]).
      * revert E. run_log. intros E. apply bind_inv in E.
        destruct E as [(u & s4 & _ & E) | [(e & _ & He) | (_ & He)]]; discriminate.
      * apply bind_inv in E.
        destruct E as [(u & s4 & _ & E) | [(e & _ & He) | (_ & He)]]; discriminate.
  - destruct e; try discriminate.
    revert H. run_log. intros H. apply bind_inv in H.
    destruct H as [(u & s4 & _ & H) | [(e & _ & He) | (_ & He)]]; discriminate.
  - discriminate.
Qed.

Lemma loop_true_clock n job tm start ts :
  forall ls lc st st',
    wait_for_spark_job_loop env self n job tm start ts ls lc st = (Ok true, st') ->
    exists k,
      (st_step st <= k)%nat
      /\ st_step st' = S (S k)
      /\ (st_now st' - start <=
          inject_Z ts + usec (env_latency env k) + usec (env_latency env (S k)))%Q.
Proof.
  induction n as [ | n IH ]; intros ls lc st st' H; simpl in H; [ discriminate | ].
  apply bind_inv in H.
  destruct H as [(c & s1 & Hb & H) | [(e & _ & He) | (_ & He)]]; try discriminate.
  destruct c as [ b | [ status count ] ].
  - inversion H; subst.
    destruct (body_true_clock _ _ _ _ _ _ _ _ Hb) as (Ht & Hs & Hn).
    exists (st_step st). split; [ lia | ]. split; [ exact Hs | ].
    rewrite Hn. unfold timed_out, Qgt_bool in Ht. apply negb_false_iff in Ht.
    apply Qle_bool_iff in Ht. lra.
  - destruct (IH _ _ _ _ H) as (k & Hk & Hs & Hn).
    destruct (progress_wait_for_spark_job_body _ _ _ _ _ _ _ _ _ _ _ Hb) as [Hstep _].
    exists k. split; [ lia | ]. split; assumption.
Qed.

End SuccessInTime.

(** X13.  Whatever the environment does, [wait_for_spark_job] returns [True]
    only from a poll that began within the timeout: the clock at the return
    is no later than the timeout plus the time the last two commands took (the
    status query that answered and the pod listing after it), which are the
    last two blocking calls of the wait. *)
Theorem success_is_reported_in_time env self fuel job_name timeout_minutes st st' :
  wait_for_spark_job env self fuel job_name timeout_minutes st = (Ok true, st') ->
  exists k,
    (st_step st <= k)%nat
    /\ st_step st' = S (S k)
    /\ (st_now st' - st_now st <=
        inject_Z (timeout_minutes * 60)
        + usec (env_latency env k) + usec (env_latency env (S k)))%Q.
Proof.
  intros H. unfold wait_for_spark_job in H. revert H. run_log.
  unfold bind at 1, time_time. intros H.
  destruct (loop_true_clock env self _ _ _ _ _ _ _ _ _ H) as (k & Hk & Hs & Hn).
  rewrite logged_step in Hk. rewrite logged_now in Hn.
  exists k. split; [ exact Hk | ]. split; [ exact Hs | exact Hn ].
Qed.

Lemma success_is_reported_in_time_witness :
  let st' := snd (wait_for_spark_job Scenario.flaky_then_completed Scenario.oc 2 "mdp-smoke" 10
                    Scenario.st0) in
  exists k,
    st_step st' = S (S k)
    /\ (st_now st' <= 600 + (1 # 4) + (1 # 4))%Q.
Proof.
  intros st'.
  destruct (success_is_reported_in_time Scenario.flaky_then_completed Scenario.oc 2 "mdp-smoke"
              10 Scenario.st0 st') as (k & _ & Hs & Hn).
  - vm_compute. reflexivity.
  - exists k. split; [ exact Hs | ].
    change (st_now Scenario.st0) with 0%Q in Hn.
    change (inject_Z (10 * 60)) with 600%Q in Hn.
    change (usec (env_latency Scenario.flaky_then_completed k)) with (250000 # 1000000)%Q in Hn.
    change (usec (env_latency Scenario.flaky_then_completed (S k)))
      with (250000 # 1000000)%Q in Hn.
    assert ((250000 # 1000000) == (1 # 4))%Q as Hq by reflexivity.
    rewrite Hq in Hn. lra.
Defined.

(** ** [main]: where Ctrl-C is handled *)



(** ** How [run_full_pipeline] can end *)

Section PipelineEnds.

Variable env : Env.
Variable self : MDPipelineOrchestrator.
Variable fuel : nat.





End PipelineEnds.



(** X16.  In an undisturbed run the resource check never holds the pipeline
    up: whatever its two commands exit with, [run_full_pipeline] goes on to
    the smoke test, and the next command it runs is the delete of the smoke
    job. *)
Theorem resource_check_never_blocks_pipeline env self fuel st :
  undisturbed env ->
  exists s more,
    smoke_entry env self st s
    /\ st_calls (snd (run_full_pipeline env self fuel st)) =
       st_calls s ++ delete_cmd self "mdp-smoke" :: more.
Proof.
  intros calm.
  set (a0 := logged INFO
               [Str "Target: 1TB Bronze (no compression) -> Silver Iceberg -> Gold Analytics"]
               (logged INFO [Str "Starting MD-Pipeline (1TB Medallion Benchmark)"] st)).
  destruct (check_cluster_resources_ok env self calm a0) as (c0 & Hcheck & _).
  set (s := logged INFO [Str (String Py.LF "--- STEP 1: Smoke Test ---")] c0).
  assert (smoke_entry env self st s) as Hentry.
  { exists c0. split; [ exact Hcheck | reflexivity ]. }
  destruct (run_full_pipeline env self fuel st) as [r st'] eqn:E. cbn [snd].
  unfold run_full_pipeline, logger_info in E. rewrite !bind_emit in E. fold a0 in E.
  rewrite (bind_Ok _ _ _ _ _ Hcheck), bind_time_time, bind_emit in E. fold s in E.
  destruct (stage_commands_selected env self fuel smoke _ _ s eq_refl) as [Hstage _].
  cbn [selected_stage] in Hstage.
  apply bind_inv in E.
  destruct E as [(ok & s1 & Hsmoke & E) | [(e & Hsmoke & _) | (Hsmoke & _)]];
    rewrite Hsmoke in Hstage; cbn [snd] in Hstage;
    destruct Hstage as (more & Hcalls & _).
  - match type of E with
    | ?K s1 = _ => assert (keeps (runs_only self all_verbs) K) as HK by only_pipeline
    end.
    destruct (HK _ _ _ E) as (later & Hlater & _).
    exists s, (more ++ later). split; [ exact Hentry | ].
    rewrite Hlater, Hcalls, <- app_assoc. reflexivity.
  - exists s, more. split; [ exact Hentry | exact Hcalls ].
  - exists s, more. split; [ exact Hentry | exact Hcalls ].
Qed.

Lemma resource_check_never_blocks_pipeline_witness :
  exists s more,
    smoke_entry Scenario.no_metrics Scenario.oc Scenario.st0 s
    /\ st_calls (snd (run_full_pipeline Scenario.no_metrics Scenario.oc 1 Scenario.st0)) =
       st_calls s ++ delete_cmd Scenario.oc "mdp-smoke" :: more.
Proof.
  exact (resource_check_never_blocks_pipeline Scenario.no_metrics Scenario.oc 1 Scenario.st0
           (cluster_undisturbed _)).
Defined.

(** ** [run_kubectl] *)



(** ** What a success says about the jobs *)

Section Success.

Variable env : Env.
Variable self : MDPipelineOrchestrator.
Variable fuel : nat.

Lemma wait_true_inv job tm st st' :
  wait_for_spark_job env self fuel job tm st = (Ok true, st') ->
  seen_completed env self job (st_step st) (st_step st').
Proof.
  intros H. unfold wait_for_spark_job in H. revert H. run_log.
  unfold bind at 1, time_time. intros H.
  destruct (loop_true_inv env self _ _ _ _ _ _ _ _ _ H) as (k & out & err & Hk & Hp & Hs).
  rewrite logged_step in Hk. exists k, out, err. auto.
Qed.

Lemma seen_completed_wider job a b a' b' :
  (a' <= a)%nat -> (b <= b')%nat ->
  seen_completed env self job a b -> seen_completed env self job a' b'.
Proof.
  intros Ha Hb (k & out & err & Hk & Hp & Hs). exists k, out, err.
  split; [ lia | ]. split; assumption.
Qed.

Lemma progress_delete_spark_job job : keeps progress (delete_spark_job env self job).
Proof.
  apply keeps_delete_spark_job;
    eauto using progress_refl, progress_trans, progress_emit, progress_run, progress_sleep.
Qed.

Lemma stage_true_shape banner job manifest (rest : M bool) :
  (forall s st', rest s = (Ok true, st') ->
                 seen_completed env self job (st_step s) (st_step st')) ->
  forall st st',
    (logger_info banner ;;
     delete_spark_job env self job ;;
     apply_manifest env self manifest ;;
     rest) st = (Ok true, st') ->
    seen_completed env self job (st_step st) (st_step st').
Proof.
  intros Hrest st st'. run_log. intros H.
  apply bind_inv in H.
  destruct H as [([] & s1 & Hd & H) | [(e & _ & He) | (_ & He)]]; try discriminate.
  apply bind_inv in H.
  destruct H as [([] & s2 & Ha & H) | [(e & _ & He) | (_ & He)]]; try discriminate.
  destruct (progress_delete_spark_job _ _ _ _ Hd) as [P1 _].
  destruct (progress_apply_manifest env self _ _ _ _ Ha) as [P2 _].
  rewrite logged_step in P1.
  apply (seen_completed_wider job (st_step s2) (st_step st')); [ lia | lia | ].
  exact (Hrest _ _ H).
Qed.

Lemma verdict_true job tm yes no :
  forall s st',
    (ok <- wait_for_spark_job env self fuel job tm ;;
     if ok then logger_info yes ;; ret true else logger_error no ;; ret false) s
    = (Ok true, st') ->
    seen_completed env self job (st_step s) (st_step st').
Proof.
  intros s st' H. apply bind_inv in H.
  destruct H as [(ok & s1 & Hw & H) | [(e & _ & He) | (_ & He)]]; try discriminate.
  destruct ok; revert H; run_log; intros H; inversion H; subst.
  rewrite logged_step. exact (wait_true_inv _ _ _ _ Hw).
Qed.

Lemma stage_true stage job manifest st st' :
  stage_job stage = Some (job, manifest) ->
  selected_stage env fuel self stage st = (Ok true, st') ->
  seen_completed env self job (st_step st) (st_step st').
Proof.
  intros Hs.
  destruct stage; inversion Hs; subst; cbn [selected_stage];
    try (apply stage_true_shape; apply verdict_true).
  unfold run_bronze_ingest. apply stage_true_shape.
  intros s s' H. rewrite bind_time_time in H. revert H. run_log. intros H.
  apply bind_inv in H.
  destruct H as [([] & s1 & Hl & H) | [(e & _ & He) | (_ & He)]]; try discriminate.
  apply bind_inv in H.
  destruct H as [(ok & s2 & Hw & H) | [(e & _ & He) | (_ & He)]]; try discriminate.
  assert (progress (logged INFO [Str "Waiting for executors to start..."] s) s1) as [P1 _].
  { revert Hl. apply keeps_run_bronze_ingest_loop;
      eauto using progress_refl, progress_trans, progress_emit, progress_run, progress_sleep. }
  rewrite logged_step in P1.
  destruct ok.
  - pose proof (wait_true_inv _ _ _ _ Hw) as Hseen.
    assert (progress s2 s') as [P2 _].
    { revert H.
      apply (keeps_bind progress progress_trans); [ apply progress_emit | intros _ ].
      apply (keeps_bind progress progress_trans);
        [ | intro; apply (keeps_ret progress progress_refl) ].
      apply (keeps_try_except progress progress_trans); [ | intros; apply progress_emit ].
      apply (keeps_bind progress progress_trans).
      + apply keeps_run_kubectl;
          eauto using progress_refl, progress_trans, progress_emit, progress_run.
      + intros [ text | ].
        * apply keeps_log_performance; eauto using progress_refl, progress_trans, progress_emit.
        * apply (keeps_raise progress progress_refl). }
    apply (seen_completed_wider _ (st_step s1) (st_step s2)); [ lia | lia | exact Hseen ].
  - revert H. run_log. discriminate.
Qed.

End Success.

(** X18.  Whatever the environment does, a processing stage returns [True]
    only if one of its own status queries about its job answered
    ["COMPLETED"]: a stage never reports a success it has not seen. *)
Theorem stage_success_was_seen env fuel self stage job_name manifest_path st st' :
  stage_job stage = Some (job_name, manifest_path) ->
  selected_stage env fuel self stage st = (Ok true, st') ->
  seen_completed env self job_name (st_step st) (st_step st').
Proof. intros Hs H. exact (stage_true env self fuel stage job_name manifest_path st st' Hs H). Qed.

Lemma stage_success_was_seen_witness :
  let run := selected_stage Scenario.flaky_then_completed 2 Scenario.oc gold Scenario.st0 in
  fst run = Ok true
  /\ seen_completed Scenario.flaky_then_completed Scenario.oc "mdp-gold-finalize" 0
       (st_step (snd run)).
Proof.
  intros run.
  assert (fst run = Ok true) as Hr by (vm_compute; reflexivity).
  split; [ exact Hr | ].
  apply (stage_success_was_seen Scenario.flaky_then_completed 2 Scenario.oc gold
           "mdp-gold-finalize" "k8s/spark/44-gold-finalize.yaml" Scenario.st0 (snd run) eq_refl).
  rewrite <- Hr. unfold run. destruct (selected_stage _ _ _ _ _); reflexivity.
Defined.

Section PipelineSuccess.

Variable env : Env.
Variable self : MDPipelineOrchestrator.
Variable fuel : nat.

Ltac passed H ok s Hc :=
  apply bind_inv in H;
  destruct H as [(ok & s & Hc & H) | [(? & _ & ?) | (_ & ?)]]; try discriminate;
  destruct ok; cbn [negb] in H;
  [ | rewrite bind_emit in H; discriminate ].

Lemma pipeline_true st st' :
  run_full_pipeline env self fuel st = (Ok true, st') ->
  exists a b c,
    seen_completed env self "mdp-smoke" (st_step st) a
    /\ seen_completed env self "mdp-bronze-ingest" a b
    /\ seen_completed env self "mdp-silver-build" b c
    /\ seen_completed env self "mdp-gold-finalize" c (st_step st').
Proof.
  intros H. unfold run_full_pipeline in H.
  unfold logger_info, logger_error, logger_warning in H.
  rewrite !bind_emit in H.
  apply bind_inv in H.
  destruct H as [(u & c0 & Hcheck & H) | [(? & _ & ?) | (_ & ?)]]; try discriminate.
  rewrite bind_time_time, bind_emit in H.
  passed H ok1 s1 Hsmoke.
  rewrite bind_emit, bind_time_time in H.
  passed H ok2 s2 Hbronze.
  rewrite bind_time_time, bind_emit, bind_time_time in H.
  passed H ok3 s3 Hsilver.
  rewrite bind_time_time, bind_emit, bind_time_time in H.
  passed H ok4 s4 Hgold.
  pose proof (stage_true env self fuel smoke _ _ _ _ eq_refl Hsmoke) as K1.
  pose proof (stage_true env self fuel bronze _ _ _ _ eq_refl Hbronze) as K2.
  pose proof (stage_true env self fuel silver _ _ _ _ eq_refl Hsilver) as K3.
  pose proof (stage_true env self fuel gold _ _ _ _ eq_refl Hgold) as K4.
  rewrite logged_step in K1, K2, K3, K4.
  assert (progress
            (logged INFO
               [Str "Target: 1TB Bronze (no compression) -> Silver Iceberg -> Gold Analytics"]
               (logged INFO [Str "Starting MD-Pipeline (1TB Medallion Benchmark)"] st)) c0)
    as [P0 _].
  { revert Hcheck. apply keeps_check_cluster_resources;
      eauto using progress_refl, progress_trans, progress_emit, progress_run. }
  rewrite !logged_step in P0.
  assert (progress s4 st') as [P5 _].
  { match type of H with
    | ?K s4 = _ => assert (keeps progress K) as HK; [ | exact (HK _ _ _ H) ]
    end.
    repeat
      lazymatch goal with
      | |- keeps progress (bind _ _) => apply (keeps_bind progress progress_trans); [ | intro ]
      | |- keeps progress (ret _) => apply (keeps_ret progress progress_refl)
      | |- keeps progress time_time => apply (keeps_time_time progress progress_refl)
      | |- keeps progress (truediv _ _) => apply (keeps_truediv progress progress_refl)
      | |- keeps progress (emit _ _) => apply progress_emit
      | |- keeps progress (validate_pipeline _ _) => apply progress_validate_pipeline
      | |- keeps progress (if ?c then _ else _) => destruct c
      end. }
  exists (st_step s1), (st_step s2), (st_step s3).
  split; [ | split; [ | split ] ].
  - apply (seen_completed_wider env self _ (st_step c0) (st_step s1)); [ lia | lia | exact K1 ].
  - exact K2.
  - exact K3.
  - apply (seen_completed_wider env self _ (st_step s3) (st_step s4)); [ lia | lia | exact K4 ].
Qed.

End PipelineSuccess.

(** X19.  Whatever the environment does, [main --stage full] ends with exit
    code 0 only if the pipeline saw each of the four jobs ["COMPLETED"], in
    the order smoke, bronze, silver, gold: four status queries of its own,
    one per job, each in its stage's stretch of the run. *)
Theorem exit_0_means_every_job_completed env fuel args st :
  arg_check_resources args = false ->
  arg_stage args = full ->
  fst (main env fuel args st) = Exited 0 ->
  let self := init (arg_namespace args) (arg_kubeconfig args) in
  exists a b c,
    seen_completed env self "mdp-smoke" (st_step st) a
    /\ seen_completed env self "mdp-bronze-ingest" a b
    /\ seen_completed env self "mdp-silver-build" b c
    /\ seen_completed env self "mdp-gold-finalize" c (st_step (snd (main env fuel args st))).
Proof.
  intros Hflag Hstage Hexit self. revert Hexit.
  unfold main. rewrite Hflag, Hstage. fold self. cbn [selected_stage].
  destruct (run_full_pipeline env self fuel st) as [[[ | ] | e | ] s] eqn:E; cbn [fst snd];
    try discriminate.
  - intros _. exact (pipeline_true env self fuel st s E).
  - destruct e; discriminate.
Qed.

Lemma exit_0_means_every_job_completed_witness :
  let run := main Scenario.healthy 32 (mkArgs None "md-pipeline" full false) Scenario.st0 in
  fst run = Exited 0
  /\ exists a b c,
       seen_completed Scenario.healthy Scenario.oc "mdp-smoke" 0 a
       /\ seen_completed Scenario.healthy Scenario.oc "mdp-bronze-ingest" a b
       /\ seen_completed Scenario.healthy Scenario.oc "mdp-silver-build" b c
       /\ seen_completed Scenario.healthy Scenario.oc "mdp-gold-finalize" c (st_step (snd run)).
Proof.
  intros run.
  assert (fst run = Exited 0) as Hr by (vm_compute; reflexivity).
  split; [ exact Hr | ].
  exact (exit_0_means_every_job_completed Scenario.healthy 32
           (mkArgs None "md-pipeline" full false) Scenario.st0 eq_refl eq_refl Hr).
Defined.
